(** * Branch-location scrapers and market analysis: a shallow embedding

    The development follows [scripts/run_analysis.py] (the analysis
    pipeline for the target bank) and the two scrapers
    [scrapers/abb_branches.py] and [scrapers/kb_branches.py].

    Numbers.  The script computes on IEEE doubles; here coordinates,
    distances and scores are real numbers ([R]), so rounding is idealised
    and a missing value (NaN) is an explicit [None].  Comparisons that the
    script performs on numbers are booleans obtained from the decidable
    order of [R].

    Exceptions.  Python code that can raise is a function into [result]. *)

From Stdlib Require Import String Ascii.
From Stdlib Require Import Reals Lra Lia List Bool Arith.
From Stdlib Require Import Permutation Sorted ZArith.
Import ListNotations.

Local Open Scope R_scope.
Local Open Scope string_scope.

(* ================================================================== *)
(** * Part I: the program *)
(* ================================================================== *)

(** ** Numeric comparisons as the script writes them *)

Definition Rltb (x y : R) : bool := if Rlt_dec x y then true else false.
Definition Rleb (x y : R) : bool := if Rle_dec x y then true else false.

(** ** Exceptions *)

Inductive exception : Type :=
| ValueError
| KeyError
| TypeError
| AttributeError.

Inductive result (A : Type) : Type :=
| Ok (a : A)
| Raise (e : exception).

Arguments Ok {A} a.
Arguments Raise {A} e.

Definition bind {A B : Type} (r : result A) (k : A -> result B) : result B :=
  match r with
  | Ok a => k a
  | Raise e => Raise e
  end.

Notation "x <- r ;; k" := (bind r (fun x => k))
  (at level 61, r at next level, right associativity).

Definition fails {A : Type} (r : result A) : Prop := exists e, r = Raise e.

(** ** The combined table *)

Definition coord : Type := (R * R)%type.

Record row : Type := mkRow {
  bank_name : string;
  lat : R;
  long : R
}.

Definition dataframe : Type := list row.

Definition target_bank : string := "AzerTurk Bank".

(** [df[df['bank_name'] == b]] and [df[df['bank_name'] != b]] *)
Definition rows_of (b : string) (df : dataframe) : dataframe :=
  filter (fun r => String.eqb (bank_name r) b) df.

Definition rows_not_of (b : string) (df : dataframe) : dataframe :=
  filter (fun r => negb (String.eqb (bank_name r) b)) df.

(** [frame[['lat', 'long']].values] *)
Definition coords (df : dataframe) : list coord :=
  map (fun r => (lat r, long r)) df.

(** ** Load and clean (run_analysis.py, lines 41-48) *)

(** A cell of the raw [lat] / [long] column as [read_csv] leaves it. *)
Inductive cell : Type :=
| CNum (x : R)
| CStr (s : string)
| CNaN.

Record raw_row : Type := mkRaw {
  raw_bank : string;
  raw_lat : cell;
  raw_long : cell
}.

Record coerced_row : Type := mkCoerced {
  c_bank : string;
  c_lat : option R;
  c_long : option R
}.

Section Load.

(** The text-to-number parser behind [pd.to_numeric]; [None] is a text
    that does not parse. *)
Variable parse_number : string -> option R.

(** [pd.to_numeric(col, errors='coerce')] on one cell: what does not
    parse becomes NaN. *)
Definition to_numeric (c : cell) : option R :=
  match c with
  | CNum x => Some x
  | CStr s => parse_number s
  | CNaN => None
  end.

Definition coerce_row (r : raw_row) : coerced_row :=
  mkCoerced (raw_bank r) (to_numeric (raw_lat r)) (to_numeric (raw_long r)).

(** [df.dropna(subset=['lat', 'long'])] *)
Fixpoint dropna (rows : list coerced_row) : dataframe :=
  match rows with
  | [] => []
  | r :: rest =>
      match c_lat r, c_long r with
      | Some la, Some lo => mkRow (c_bank r) la lo :: dropna rest
      | _, _ => dropna rest
      end
  end.

Definition load_and_clean (raw : list raw_row) : dataframe :=
  dropna (map coerce_row raw).

(** A raw row has valid numeric coordinates. *)
Definition valid_coordinates (r : raw_row) : bool :=
  match to_numeric (raw_lat r), to_numeric (raw_long r) with
  | Some _, Some _ => true
  | _, _ => false
  end.

(** The cleaned row a raw row stands for. *)
Definition cleaned_as (r : raw_row) (c : row) : Prop :=
  bank_name c = raw_bank r /\
  to_numeric (raw_lat r) = Some (lat c) /\
  to_numeric (raw_long r) = Some (long c).

End Load.

(** ** Ranking (run_analysis.py, lines 78-80) *)

(** One more occurrence of [b] in a table of counts. *)
Fixpoint bump (b : string) (vc : list (string * nat)) : list (string * nat) :=
  match vc with
  | [] => [(b, 1%nat)]
  | (k, n) :: rest =>
      if String.eqb k b then (k, S n) :: rest else (k, n) :: bump b rest
  end.

Definition tally (names : list string) : list (string * nat) :=
  fold_left (fun acc b => bump b acc) names [].

(** Insertion of an entry in a table ordered by decreasing count; entries
    of equal count keep their order of arrival. *)
Fixpoint insert_desc (e : string * nat) (vc : list (string * nat))
  : list (string * nat) :=
  match vc with
  | [] => [e]
  | h :: rest =>
      if (snd h <? snd e)%nat then e :: h :: rest else h :: insert_desc e rest
  end.

Definition sort_desc (vc : list (string * nat)) : list (string * nat) :=
  fold_right insert_desc [] vc.

(** [df['bank_name'].value_counts()] *)
Definition value_counts (df : dataframe) : list (string * nat) :=
  sort_desc (tally (map bank_name df)).

(** [df[df['bank_name'] == b].shape[0]] *)
Definition branch_count (df : dataframe) (b : string) : nat :=
  length (rows_of b df).

(** [(df['bank_name'].value_counts() > count).sum() + 1] *)
Definition bank_rank (df : dataframe) (b : string) : nat :=
  (length (filter (fun e => (branch_count df b <? snd e)%nat) (value_counts df))
   + 1)%nat.

Definition atb_count (df : dataframe) : nat := branch_count df target_bank.
Definition atb_rank (df : dataframe) : nat := bank_rank df target_bank.

(** The banks of a table, each once, and the number of rows of each, as the
    specification speaks of them. *)
Definition banks (df : dataframe) : list string :=
  nodup string_dec (map bank_name df).

Definition count (df : dataframe) (b : string) : nat :=
  count_occ string_dec (map bank_name df) b.

(** ** Region and zone tagging (run_analysis.py, lines 473 and 815-842) *)

(** [lo <= x <= hi], Python's chained comparison *)
Definition between (lo x hi : R) : bool := Rleb lo x && Rleb x hi.

Definition region (r : row) : string :=
  if between 40.3 (lat r) 40.5 && between 49.7 (long r) 50.0
  then "Baku" else "Regions".

Definition assign_zone (r : row) : string :=
  let lat := lat r in
  let long := long r in
  if between 40.3 lat 40.5 && between 49.7 long 50.0 then "Baku City"
  else if between 40.2 lat 40.6 && between 49.5 long 50.3 then "Absheron"
  else if Rltb 41.0 lat then "North"
  else if Rltb 40.5 lat && Rltb long 48.5 then "Northwest"
  else if between 40.0 lat 40.8 && (Rleb 47.0 long && Rltb long 49.5)
       then "Central"
  else if Rltb lat 39.0 then "South"
  else if Rltb long 46.0 then "West"
  else "Other".

(** ** Distances and nearest neighbours *)

Definition sq (x : R) : R := x * x.

(** [np.sqrt(((a - b)**2).sum())]: the Euclidean distance of two
    [(lat, long)] pairs, in raw degrees. *)
Definition distance (a b : coord) : R :=
  sqrt (sq (fst a - fst b) + sq (snd a - snd b)).

(** [NearestNeighbors(n_neighbors=1).fit(X)].  The fitted model is the
    non-empty array of reference points; an array without rows is refused
    with a [ValueError]. *)
Definition fitted : Type := (coord * list coord)%type.

Definition fit (X : list coord) : result fitted :=
  match X with
  | [] => Raise ValueError
  | p :: rest => Ok (p, rest)
  end.

(** The scan for the nearest reference point of a query [q]: [best] is the
    smallest distance so far with the index where it was found, [i] the
    index of the head of [pts].  The first of equally near points wins. *)
Fixpoint nearest_from (q : coord) (best : R * nat) (i : nat)
         (pts : list coord) : R * nat :=
  match pts with
  | [] => best
  | p :: rest =>
      let d := distance p q in
      nearest_from q (if Rltb d (fst best) then (d, i) else best) (S i) rest
  end.

Definition nearest (model : fitted) (q : coord) : R * nat :=
  nearest_from q (distance (fst model) q, 0%nat) 1%nat (snd model).

(** [model.kneighbors(Q)]: per query row the distance to, and the index of,
    its nearest reference point; an array without rows is refused. *)
Definition kneighbors (model : fitted) (Q : list coord)
  : result (list (R * nat)) :=
  match Q with
  | [] => Raise ValueError
  | _ => Ok (map (nearest model) Q)
  end.

(** [d] is the distance from [q] to a nearest point of [pts]: it is the
    distance to one of them and no point of [pts] is nearer. *)
Definition is_nearest_distance (d : R) (q : coord) (pts : list coord) : Prop :=
  (exists p, In p pts /\ d = distance p q)
  /\ (forall p, In p pts -> d <= distance p q).

(** ** Gap analysis (run_analysis.py, lines 559-576) *)

Definition atb_coords (df : dataframe) : list coord :=
  coords (rows_of target_bank df).

Definition comp_coords (df : dataframe) : list coord :=
  coords (rows_not_of target_bank df).

Definition comp_banks (df : dataframe) : list string :=
  map bank_name (rows_not_of target_bank df).

Record gap_row : Type := mkGap {
  g_lat : R;
  g_long : R;
  g_bank : string;
  distance_to_bob : R
}.

Definition gap_df (df : dataframe) : result (list gap_row) :=
  nbrs <- fit (atb_coords df) ;;
  found <- kneighbors nbrs (comp_coords df) ;;
  Ok (map (fun rf : row * (R * nat) =>
             mkGap (lat (fst rf)) (long (fst rf)) (bank_name (fst rf))
                   (fst (snd rf)))
          (combine (rows_not_of target_bank df) found)).

(** [sort_values('distance_to_bob', ascending=False)] *)
Fixpoint insert_gap (g : gap_row) (l : list gap_row) : list gap_row :=
  match l with
  | [] => [g]
  | h :: rest =>
      if Rltb (distance_to_bob h) (distance_to_bob g)
      then g :: h :: rest
      else h :: insert_gap g rest
  end.

Definition sort_gaps (l : list gap_row) : list gap_row :=
  fold_right insert_gap [] l.

Definition is_gap (g : gap_row) : bool := Rltb 0.3 (distance_to_bob g).

Definition gaps (df : dataframe) : result (list gap_row) :=
  table <- gap_df df ;;
  Ok (sort_gaps (filter is_gap table)).

(** ** Nearest competitor (run_analysis.py, lines 653-659) *)

Record atb_row : Type := mkAtb {
  a_row : row;
  dist_to_competitor : R;
  nearest_competitor : string
}.

Definition atb_analysis (df : dataframe) : result (list atb_row) :=
  nbrs_comp <- fit (comp_coords df) ;;
  found <- kneighbors nbrs_comp (atb_coords df) ;;
  Ok (map (fun rf : row * (R * nat) =>
             mkAtb (fst rf) (fst (snd rf))
                   (nth (snd (snd rf)) (comp_banks df) EmptyString))
          (combine (rows_of target_bank df) found)).

(** ** Competitive intensity (run_analysis.py, lines 721-738) *)

Definition default_radius : R := 0.1.

(** The body of the loop over the rows of the bank: the number of rows
    of the whole table at a distance from [coord] that is positive and
    smaller than [radius]. *)
Definition intensity_at (df : dataframe) (radius : R) (coord : coord) : nat :=
  let all_coords := coords df in
  let distances := map (fun a => distance a coord) all_coords in
  length (filter (fun d => Rltb 0 d && Rltb d radius) distances).

Definition calculate_competitive_intensity
           (df : dataframe) (bank : string) (radius : R) : list nat :=
  let bank_coords := coords (rows_of bank df) in
  map (intensity_at df radius) bank_coords.

(** [df['bank_name'].unique()]: the names in order of first appearance *)
Fixpoint unique (names : list string) : list string :=
  match names with
  | [] => []
  | b :: rest => b :: filter (fun k => negb (String.eqb k b)) (unique rest)
  end.

Definition intensity_data (df : dataframe) : list (string * list nat) :=
  map (fun bank => (bank, calculate_competitive_intensity df bank default_radius))
      (unique (map bank_name df)).

(** The rows at other positions than [i] that lie within [radius] of the
    row at position [i] (nearer than [radius]), as the specification counts
    them. *)
Definition others_within (df : dataframe) (i : nat) (radius : R) : nat :=
  match nth_error df i with
  | None => 0%nat
  | Some r =>
      length
        (filter (fun jr : nat * row =>
                   negb (fst jr =? i)%nat
                   && Rltb (distance (lat (snd jr), long (snd jr))
                                     (lat r, long r))
                           radius)
                (combine (seq 0 (length df)) df))
  end.

(** ** Opportunity scores (run_analysis.py, lines 962-1011 and 1178-1216) *)

Definition baku_lat_min : R := 40.30.
Definition baku_lat_max : R := 40.65.
Definition baku_long_min : R := 49.60.
Definition baku_long_max : R := 50.20.

(** [(lat >= baku_lat_min) & (lat <= baku_lat_max) &
     (long >= baku_long_min) & (long <= baku_long_max)] *)
Definition in_baku_absheron (la lo : R) : bool :=
  Rleb baku_lat_min la && Rleb la baku_lat_max
  && Rleb baku_long_min lo && Rleb lo baku_long_max.

Definition df_baku (df : dataframe) : dataframe :=
  filter (fun r => in_baku_absheron (lat r) (long r)) df.

Definition df_regions (df : dataframe) : dataframe :=
  filter (fun r => negb (in_baku_absheron (lat r) (long r))) df.

Definition atb_baku (df : dataframe) : dataframe :=
  rows_of target_bank (df_baku df).
Definition comp_baku (df : dataframe) : dataframe :=
  rows_not_of target_bank (df_baku df).
Definition atb_regions (df : dataframe) : dataframe :=
  rows_of target_bank (df_regions df).
Definition comp_regions (df : dataframe) : dataframe :=
  rows_not_of target_bank (df_regions df).

Definition placeholder_baku : coord := (40.4, 49.85).
Definition placeholder_regions : coord := (40.0, 48.0).

(** [atb_baku[['lat', 'long']].values if len(atb_baku) > 0
     else np.array([[40.4, 49.85]])] *)
Definition atb_coords_baku (df : dataframe) : list coord :=
  if (0 <? length (atb_baku df))%nat then coords (atb_baku df)
  else [placeholder_baku].

Definition comp_coords_baku (df : dataframe) : list coord :=
  coords (comp_baku df).

Definition atb_coords_regions (df : dataframe) : list coord :=
  if (0 <? length (atb_regions df))%nat then coords (atb_regions df)
  else [placeholder_regions].

Definition comp_coords_regions (df : dataframe) : list coord :=
  coords (comp_regions df).

(** [a.min()] of an array: an empty array has no minimum. *)
Definition array_min (a : list R) : result R :=
  match a with
  | [] => Raise ValueError
  | x :: rest => Ok (fold_left Rmin rest x)
  end.

(** [((distances < radius)).sum()] over the distances from [point] *)
Definition nearby (pts : list coord) (point : coord) (radius : R) : nat :=
  length (filter (fun d => Rltb d radius)
                 (map (fun c => distance c point) pts)).

Definition calculate_opportunity_score_baku (df : dataframe) (point : coord)
  : result R :=
  dist_score <- array_min (map (fun a => distance a point)
                               (atb_coords_baku df)) ;;
  let nearby_comps := nearby (comp_coords_baku df) point 0.05 in
  Ok (dist_score * 15 + INR nearby_comps * 0.8).

Definition calculate_opportunity_score_regions (df : dataframe) (point : coord)
  : result R :=
  if between baku_lat_min (fst point) baku_lat_max
     && between baku_long_min (snd point) baku_long_max
  then Ok 0
  else
    dist_score <-
      (if (0 <? length (atb_coords_regions df))%nat
       then array_min (map (fun a => distance a point)
                           (atb_coords_regions df))
       else Ok 2.0) ;;
    let nearby_comps := nearby (comp_coords_regions df) point 0.3 in
    Ok (dist_score * 10 + INR nearby_comps * 0.5).

(** [np.linspace(start, stop, num)] *)
Definition linspace (start stop : R) (num : nat) : list R :=
  map (fun i => start + INR i * ((stop - start) / INR (num - 1)))
      (seq 0 num).

(** [np.array([[lat, long] for lat in lat_grid for long in long_grid])] *)
Definition grid_points (lat_grid long_grid : list R) : list coord :=
  flat_map (fun la => map (fun lo => (la, lo)) long_grid) lat_grid.

Definition grid_resolution_baku : nat := 35.
Definition grid_resolution_regions : nat := 30.

Definition grid_points_baku : list coord :=
  grid_points (linspace baku_lat_min baku_lat_max grid_resolution_baku)
              (linspace baku_long_min baku_long_max grid_resolution_baku).

(** [col.min()] and [col.max()] of a table column; a column without rows
    has none (the script gets NaN). *)
Definition column_min (col : list R) : option R :=
  match col with
  | [] => None
  | x :: rest => Some (fold_left Rmin rest x)
  end.

Definition column_max (col : list R) : option R :=
  match col with
  | [] => None
  | x :: rest => Some (fold_left Rmax rest x)
  end.

(** The regional grid; there is none (a grid of NaN in the script) when no
    row lies outside the Baku-Absheron box. *)
Definition grid_points_regions (df : dataframe) : option (list coord) :=
  let lats := map lat (df_regions df) in
  let longs := map long (df_regions df) in
  match column_min lats, column_max lats, column_min longs, column_max longs with
  | Some lat_lo, Some lat_hi, Some long_lo, Some long_hi =>
      Some (grid_points
              (linspace (lat_lo - 0.1) (lat_hi + 0.1) grid_resolution_regions)
              (linspace (long_lo - 0.1) (long_hi + 0.1) grid_resolution_regions))
  | _, _, _, _ => None
  end.

(** A list comprehension whose body can raise. *)
Fixpoint map_result {A B : Type} (f : A -> result B) (l : list A)
  : result (list B) :=
  match l with
  | [] => Ok []
  | a :: rest => b <- f a ;; bs <- map_result f rest ;; Ok (b :: bs)
  end.

Definition opportunity_scores_baku (df : dataframe) : result (list R) :=
  map_result (calculate_opportunity_score_baku df) grid_points_baku.

Definition opportunity_scores_regions (df : dataframe)
  : option (result (list R)) :=
  option_map (map_result (calculate_opportunity_score_regions df))
             (grid_points_regions df).

(** ** Multi-metric comparison (run_analysis.py, lines 1333-1370) *)

(** A float of a table cell: [None] is NaN. *)
Definition number : Type := option R.

Definition number_add (a b : number) : number :=
  match a, b with
  | Some x, Some y => Some (x + y)
  | _, _ => None
  end.

Definition number_sub (a b : number) : number :=
  match a, b with
  | Some x, Some y => Some (x - y)
  | _, _ => None
  end.

(** [k / n * 100] for two counts; [0 / 0] is NaN. *)
Definition percentage (k n : nat) : number :=
  match n with
  | O => None
  | _ => Some (INR k / INR n * 100)
  end.

(** [np.mean] of a list of counts; the mean of no value is NaN. *)
Definition mean (l : list nat) : number :=
  match l with
  | [] => None
  | _ => Some (INR (list_sum l) / INR (length l))
  end.

(** [d[k]] on a dictionary *)
Fixpoint lookup {V : Type} (k : string) (d : list (string * V)) : result V :=
  match d with
  | [] => Raise KeyError
  | (k', v) :: rest => if String.eqb k' k then Ok v else lookup k rest
  end.

(** [df['bank_name'].value_counts().head(5).index] *)
Definition top_5_banks (df : dataframe) : list string :=
  map fst (firstn 5 (value_counts df)).

Definition comparison_banks (df : dataframe) : list string :=
  if negb (existsb (fun b => String.eqb b target_bank) (top_5_banks df))
  then firstn 4 (top_5_banks df) ++ [target_bank]
  else top_5_banks df.

Record metric_row : Type := mkMetric {
  Bank : string;
  Branch_Count : number;
  Geographic_Spread : number;
  Baku_Percentage : number;
  Avg_Competitive_Intensity : number
}.

(** [(bank_data['region'] == 'Baku').sum()] *)
Definition baku_rows (bank_data : dataframe) : nat :=
  length (filter (fun r => String.eqb (region r) "Baku") bank_data).

Definition bank_metrics (df : dataframe) (bank : string) : result metric_row :=
  let bank_data := rows_of bank df in
  let lat_range :=
    number_sub (column_max (map lat bank_data)) (column_min (map lat bank_data)) in
  let long_range :=
    number_sub (column_max (map long bank_data))
               (column_min (map long bank_data)) in
  let geo_spread := number_add lat_range long_range in
  let baku_pct := percentage (baku_rows bank_data) (length bank_data) in
  intensities <- lookup bank (intensity_data df) ;;
  let avg_intensity := mean intensities in
  Ok (mkMetric bank (Some (INR (length bank_data))) geo_spread baku_pct
               avg_intensity).

Definition metrics_df (df : dataframe) : result (list metric_row) :=
  map_result (bank_metrics df) (comparison_banks df).

(** The values of a column that are not NaN. *)
Definition present (col : list number) : list R :=
  flat_map (fun v => match v with Some x => [x] | None => [] end) col.

(** [col / max_val * 100] when [col.max() > 0], the column as it is
    otherwise. *)
Definition normalize_values (col : list number) : list number :=
  match column_max (present col) with
  | Some max_val =>
      if Rltb 0 max_val
      then map (option_map (fun x => x / max_val * 100)) col
      else col
  | None => col
  end.

(** [table[col] = values] *)
Definition assign_column (set : number -> metric_row -> metric_row)
           (values : list number) (table : list metric_row)
  : list metric_row :=
  map (fun vm => set (fst vm) (snd vm)) (combine values table).

Definition set_Branch_Count (v : number) (m : metric_row) : metric_row :=
  mkMetric (Bank m) v (Geographic_Spread m) (Baku_Percentage m)
           (Avg_Competitive_Intensity m).
Definition set_Geographic_Spread (v : number) (m : metric_row) : metric_row :=
  mkMetric (Bank m) (Branch_Count m) v (Baku_Percentage m)
           (Avg_Competitive_Intensity m).
Definition set_Baku_Percentage (v : number) (m : metric_row) : metric_row :=
  mkMetric (Bank m) (Branch_Count m) (Geographic_Spread m) v
           (Avg_Competitive_Intensity m).
Definition set_Avg_Competitive_Intensity (v : number) (m : metric_row)
  : metric_row :=
  mkMetric (Bank m) (Branch_Count m) (Geographic_Spread m) (Baku_Percentage m)
           v.

Definition normalize_column (get : metric_row -> number)
           (set : number -> metric_row -> metric_row)
           (table : list metric_row) : list metric_row :=
  assign_column set (normalize_values (map get table)) table.

Definition metrics_normalized (table : list metric_row) : list metric_row :=
  normalize_column Avg_Competitive_Intensity set_Avg_Competitive_Intensity
    (normalize_column Baku_Percentage set_Baku_Percentage
       (normalize_column Geographic_Spread set_Geographic_Spread
          (normalize_column Branch_Count set_Branch_Count table))).

(** The percentage of the rows of a bank outside the Baku box, as the
    specification describes the regional-coverage metric. *)
Definition non_baku_percentage (df : dataframe) (bank : string) : number :=
  percentage
    (length (filter (fun r => negb (String.eqb (region r) "Baku"))
                    (rows_of bank df)))
    (length (rows_of bank df)).

(** ** The scrapers (abb_branches.py and kb_branches.py) *)

(** A parsed JSON value.  A number is kept as the text Python prints for
    it; a dictionary is the list of its items in insertion order. *)
#[warnings="-register-all"]
Inductive json : Type :=
| JNull
| JBool (b : bool)
| JNum (text : string)
| JStr (s : string)
| JList (items : list json)
| JDict (items : list (string * json)).

Definition dict : Type := list (string * json).

Fixpoint dict_find (k : string) (d : dict) : option json :=
  match d with
  | [] => None
  | (k', v) :: rest => if String.eqb k' k then Some v else dict_find k rest
  end.

(** [d.get(k, default)] and [d.get(k)] *)
Definition get_default (d : dict) (k : string) (default : json) : json :=
  match dict_find k d with
  | Some v => v
  | None => default
  end.

Definition get (d : dict) (k : string) : json := get_default d k JNull.

(** [d[k] = v] *)
Fixpoint dict_set (k : string) (v : json) (d : dict) : dict :=
  match d with
  | [] => [(k, v)]
  | (k', v') :: rest =>
      if String.eqb k' k then (k', v) :: rest else (k', v') :: dict_set k v rest
  end.

(** [d.keys()] *)
Definition keys (d : dict) : list string := map fst d.

(** [s.lower().replace(" ", "_")] on ASCII letters *)
Definition lower_char (c : ascii) : ascii :=
  let n := nat_of_ascii c in
  if (65 <=? n)%nat && (n <=? 90)%nat then ascii_of_nat (n + 32)
  else if (n =? 32)%nat then "_"%char
  else c.

Fixpoint lower_replace (s : string) : string :=
  match s with
  | EmptyString => EmptyString
  | String c rest => String (lower_char c) (lower_replace rest)
  end.

(** The outcome of a call of [save_to_csv]: the file it wrote, if any, as
    the header and the rows handed to the CSV writer (one cell per field
    name), and the line it printed. *)
Record csv_table : Type := mkCsv {
  header : list string;
  data_rows : list (list json)
}.

Inductive report : Type :=
| NoData
| Saved (n : nat) (output_file : string).

Definition outcome : Type := (option (string * csv_table) * report)%type.

(** A set of field names: each name once. *)
Definition set_add (k : string) (s : list string) : list string :=
  if existsb (String.eqb k) s then s else s ++ [k].

(** [fieldnames.update(branch.keys())] *)
Definition set_update (s : list string) (ks : list string) : list string :=
  fold_left (fun acc k => set_add k acc) ks s.

(** [sorted(fieldnames)]: the order of Python on [str], by code point
    (which is the order of the UTF-8 bytes). *)
Fixpoint insert_name (k : string) (l : list string) : list string :=
  match l with
  | [] => [k]
  | h :: rest => if String.leb k h then k :: h :: rest else h :: insert_name k rest
  end.

Definition sorted (s : list string) : list string :=
  fold_right insert_name [] s.

Definition collect_fieldnames (branches : list dict) : list string :=
  sorted (fold_left (fun acc branch => set_update acc (keys branch)) branches []).

(** [csv.DictWriter(csvfile, fieldnames=fieldnames)]: a row with a key
    outside [fieldnames] is refused; a field the row lacks is written as
    the empty text. *)
Definition dict_to_list (fieldnames : list string) (rowdict : dict)
  : result (list json) :=
  if forallb (fun k => existsb (String.eqb k) fieldnames) (keys rowdict)
  then Ok (map (fun k => get_default rowdict k (JStr EmptyString)) fieldnames)
  else Raise ValueError.

Definition writerows (fieldnames : list string) (rows : list dict)
  : result (list (list json)) :=
  map_result (dict_to_list fieldnames) rows.

(** [save_to_csv] of abb_branches.py *)
Definition abb_save_to_csv (branches : list dict) (output_file : string)
  : result outcome :=
  match branches with
  | [] => Ok (None, NoData)
  | _ =>
      let fieldnames := collect_fieldnames branches in
      rows <- writerows fieldnames branches ;;
      Ok (Some (output_file, mkCsv fieldnames rows),
          Saved (length branches) output_file)
  end.

Section Flatten.

(** The text [str()] gives for a list or a dictionary inside an f-string. *)
Variable container_text : json -> string.

(** [f"{v}"] *)
Definition py_str (v : json) : string :=
  match v with
  | JNull => "None"
  | JBool true => "True"
  | JBool false => "False"
  | JNum text => text
  | JStr s => s
  | JList _ | JDict _ => container_text v
  end.

(** [for day in working_days]: what the loop runs over *)
Definition iterate (v : json) : result (list json) :=
  match v with
  | JList items => Ok items
  | JDict items => Ok (map (fun kv => JStr (fst kv)) items)
  | JStr s => Ok (map (fun c => JStr (String c EmptyString))
                      (list_ascii_of_string s))
  | JNull | JBool _ | JNum _ => Raise TypeError
  end.

(** One turn of the loop over the working days. *)
Definition add_day (flattened : dict) (day : json) : result dict :=
  match day with
  | JDict d =>
      let day_num := get d "day_of_week" in
      day_name <-
        match get_default d "day_of_week_name" (JStr EmptyString) with
        | JStr s => Ok (lower_replace s)
        | _ => Raise AttributeError
        end ;;
      let n := py_str day_num in
      Ok (dict_set ("day_" ++ n ++ "_customer_close")
                   (get d "customer_close_time")
         (dict_set ("day_" ++ n ++ "_customer_open")
                   (get d "customer_open_time")
         (dict_set ("day_" ++ n ++ "_close_time") (get d "close_time")
         (dict_set ("day_" ++ n ++ "_open_time") (get d "open_time")
         (dict_set ("day_" ++ n ++ "_is_open") (get d "is_open")
         (dict_set ("day_" ++ n ++ "_name") (get d "day_of_week_name")
                   flattened))))))
  | _ => Raise AttributeError
  end.

Fixpoint add_days (flattened : dict) (days : list json) : result dict :=
  match days with
  | [] => Ok flattened
  | day :: rest => f <- add_day flattened day ;; add_days f rest
  end.

Definition flatten_branch_data (branch : dict) : result dict :=
  let flattened :=
    [ ("id", get branch "id");
      ("name", get branch "name");
      ("slug", get branch "slug");
      ("city_id", get branch "city_id");
      ("type", get branch "type");
      ("is_open", get branch "is_open");
      ("is_nfc", get branch "is_nfc");
      ("cash_in", get branch "cash_in");
      ("working_weekends", get branch "working_weekends");
      ("is_digital", get branch "is_digital");
      ("latitude", get branch "lat");
      ("longitude", get branch "lng");
      ("address", get branch "address");
      ("work_hours_week", get branch "work_hours_week");
      ("work_hours_saturday", get branch "work_hours_saturday");
      ("work_hours_sunday", get branch "work_hours_sunday");
      ("notes", get branch "notes") ] in
  working_days <- iterate (get_default branch "working_days" (JList [])) ;;
  add_days flattened working_days.

(** [save_to_csv] of kb_branches.py *)
Definition kb_save_to_csv (branches : list dict) (output_file : string)
  : result outcome :=
  match branches with
  | [] => Ok (None, NoData)
  | _ =>
      flattened_branches <- map_result flatten_branch_data branches ;;
      let fieldnames := collect_fieldnames flattened_branches in
      rows <- writerows fieldnames flattened_branches ;;
      Ok (Some (output_file, mkCsv fieldnames rows),
          Saved (length branches) output_file)
  end.

End Flatten.

(** The table [save_to_csv] is specified to write for the records [rows]:
    the header is sorted, holds each key of each record once and nothing
    else, and there is one line per record, in order, with the value of
    each header field or the empty text where the record lacks it. *)
Definition alphabetical (a b : string) : Prop := String.leb a b = true.

Definition csv_of_records (rows : list dict) (t : csv_table) : Prop :=
  StronglySorted alphabetical (header t)
  /\ NoDup (header t)
  /\ (forall k, In k (header t) <-> exists r, In r rows /\ In k (keys r))
  /\ data_rows t
     = map (fun r => map (fun k => get_default r k (JStr EmptyString)) (header t)) rows.

(** A Kapital Bank record that [flatten_branch_data] accepts: what the loop
    over [working_days] runs over are dictionaries whose
    [day_of_week_name], when present, is a text. *)
Definition well_formed_day (day : json) : bool :=
  match day with
  | JDict d =>
      match get_default d "day_of_week_name" (JStr EmptyString) with
      | JStr _ => true
      | _ => false
      end
  | _ => false
  end.

Definition well_formed_branch (branch : dict) : bool :=
  match get_default branch "working_days" (JList []) with
  | JList items => forallb well_formed_day items
  | JDict items => match items with [] => true | _ => false end
  | JStr s => match s with EmptyString => true | _ => false end
  | JNull | JBool _ | JNum _ => false
  end.

(** Two records of the first scraper, and two of the second. *)
Definition abb_example : list dict :=
  [ [ ("id", JNum "1"); ("name", JStr "Main") ];
    [ ("id", JNum "2"); ("lat", JNum "40.4") ] ].

Definition kb_example : list dict :=
  [ [ ("id", JNum "7");
      ("working_days",
       JList [ JDict [ ("day_of_week", JNum "1");
                       ("day_of_week_name", JStr "Monday");
                       ("is_open", JBool true) ] ]) ];
    [ ("id", JNum "8") ] ].

(** A Kapital Bank record with [working_days] null. *)
Definition null_working_days : dict := [ ("id", JNum "1"); ("working_days", JNull) ].

(** ** Example tables *)

(** The end-to-end scenario of the specification: five rows of a bank A
    around (40.40, 49.86), three rows of a bank B around (41.0, 47.0), and
    one row of the target bank at (40.41, 49.87). *)
Definition scenario_df : dataframe :=
  [ mkRow "Bank A" 40.40 49.86; mkRow "Bank A" 40.41 49.86;
    mkRow "Bank A" 40.40 49.87; mkRow "Bank A" 40.39 49.86;
    mkRow "Bank A" 40.40 49.85;
    mkRow "Bank B" 41.00 47.00; mkRow "Bank B" 41.01 47.00;
    mkRow "Bank B" 41.00 47.01;
    mkRow target_bank 40.41 49.87 ].

(** One target row and one competitor row. *)
Definition pair_df : dataframe :=
  [ mkRow target_bank 40.41 49.87; mkRow "Bank A" 40.40 49.86 ].

(** Competitors only: the target bank has no row. *)
Definition competitors_only_df : dataframe :=
  [ mkRow "Bank A" 40.40 49.86; mkRow "Bank B" 41.00 47.00 ].

(** The target bank inside the Baku-Absheron box, one competitor outside. *)
Definition box_df : dataframe :=
  [ mkRow target_bank 40.4 49.8; mkRow "Bank A" 40.1 48.1 ].

(** The target bank alone, with one branch in central Baku. *)
Definition baku_only_df : dataframe := [ mkRow target_bank 40.4 49.8 ].

(** Two banks with a branch at the same coordinates. *)
Definition colocated_df : dataframe :=
  [ mkRow "Bank A" 40.4 49.8; mkRow "Bank B" 40.4 49.8 ].

(** ** Notions used in the statements *)

(** The count a table of counts holds for a bank (0 when absent). *)
Fixpoint held (vc : list (string * nat)) (b : string) : nat :=
  match vc with
  | [] => 0
  | (k, n) :: rest => if String.eqb k b then n else held rest b
  end.

(** A table in order of decreasing distance has every row before the rows
    that are not farther. *)
Definition farther_first (a b : gap_row) : Prop :=
  distance_to_bob b <= distance_to_bob a.

(** The table of competitor rows with the distance to the nearest target
    row, written as one map over the competitor rows. *)
Definition gap_table (model : fitted) (comp : dataframe) : list gap_row :=
  map (fun r => mkGap (lat r) (long r) (bank_name r)
                      (fst (nearest model (lat r, long r))))
      comp.

(** The four metrics of a row are numbers, none negative. *)
Definition proper_metrics (m : metric_row) : Prop :=
  (exists x, Branch_Count m = Some x /\ 0 <= x)
  /\ (exists x, Geographic_Spread m = Some x /\ 0 <= x)
  /\ (exists x, Baku_Percentage m = Some x /\ 0 <= x)
  /\ (exists x, Avg_Competitive_Intensity m = Some x /\ 0 <= x).

(** [col'] is [col] normalised by its maximum: every value of [col] is a
    number between 0 and the maximum [mx] of the column; when [mx] is
    positive the value becomes [x / mx * 100], otherwise it stays; the
    result lies between 0 and 100. *)
Definition normalized_to_max (col col' : list number) : Prop :=
  exists mx,
    column_max (present col) = Some mx
    /\ Forall2 (fun v v' =>
                  exists x y,
                    v = Some x /\ v' = Some y /\ 0 <= x <= mx
                    /\ (0 < mx -> y = x / mx * 100)
                    /\ (mx <= 0 -> y = x)
                    /\ 0 <= y <= 100)
               col col'.

(** ** Market share (run_analysis.py, lines 78-82 and 96-146) *)

Definition total_count (df : dataframe) : nat := length df.

(** [df['bank_name'].value_counts()] once more, under the name of Chart 2 *)
Definition market_share (df : dataframe) : list (string * nat) :=
  value_counts df.

(** [sort_values(ascending=False)] of a series of percentages *)
Fixpoint insert_pct (e : string * R) (l : list (string * R))
  : list (string * R) :=
  match l with
  | [] => [e]
  | h :: rest =>
      if Rltb (snd h) (snd e) then e :: h :: rest else h :: insert_pct e rest
  end.

Definition sort_pct (l : list (string * R)) : list (string * R) :=
  fold_right insert_pct [] l.

(** [(market_share / total_count * 100).sort_values(ascending=False)] *)
Definition market_pct (df : dataframe) : list (string * R) :=
  sort_pct (map (fun e => (fst e, INR (snd e) / INR (total_count df) * 100))
                (market_share df)).

(** The colours of the stacked bar: '#e74c3c', '#3498db' and '#95a5a6'. *)
Inductive colour : Type := Red | Blue | Grey.

Record segment : Type := mkSegment {
  seg_bank : string;
  seg_left : R;
  seg_width : R;
  seg_colour : colour;
  seg_labelled : bool
}.

(** The loop that stacks one bar segment per bank: [left] is where the next
    segment starts. *)
Fixpoint stack_segments (left : R) (pct : list (string * R))
  : list segment * R :=
  match pct with
  | [] => ([], left)
  | (bank, width) :: rest =>
      let color :=
        if String.eqb bank target_bank then Red
        else if Rleb 5 width then Blue
        else Grey in
      let seg := mkSegment bank left width color (Rleb 3 width) in
      let '(segs, final) := stack_segments (left + width) rest in
      (seg :: segs, final)
  end.

Definition stacked_bar (df : dataframe) : list segment * R :=
  stack_segments 0 (market_pct df).

(** ** The target bank against its largest competitors (lines 152-192) *)

(** [market_share[market_share.index != 'AzerTurk Bank'].head(5)] *)
Definition top_competitors (df : dataframe) : list (string * nat) :=
  firstn 5 (filter (fun e => negb (String.eqb (fst e) target_bank))
                   (market_share df)).

(** [market_share['AzerTurk Bank']] *)
Definition atb_value (df : dataframe) : result nat :=
  lookup target_bank (market_share df).

Record chart2_comparison : Type := mkComparison {
  cmp_banks : list string;
  cmp_values : list nat;
  cmp_pct : list R;
  cmp_gap : option Z
}.

Definition comparison_chart2 (df : dataframe) : result chart2_comparison :=
  v <- atb_value df ;;
  let comparison_banks := target_bank :: map fst (firstn 5 (top_competitors df)) in
  let comparison_values := v :: map snd (firstn 5 (top_competitors df)) in
  let comparison_pct :=
    map (fun x => INR x / INR (total_count df) * 100) comparison_values in
  let gap :=
    if (1 <? length comparison_values)%nat
    then Some (Z.of_nat (nth 1 comparison_values 0%nat)
               - Z.of_nat (nth 0 comparison_values 0%nat))%Z
    else None in
  Ok (mkComparison comparison_banks comparison_values comparison_pct gap).

(** Chart 4 (lines 288-289):
    [['AzerTurk Bank'] + [b for b in top_3_competitors if b != 'AzerTurk Bank'][:3]] *)
Definition top_3_competitors (df : dataframe) : list string :=
  map fst (firstn 3 (value_counts df)).

Definition comparison_banks_chart4 (df : dataframe) : list string :=
  target_bank
  :: firstn 3 (filter (fun b => negb (String.eqb b target_bank))
                      (top_3_competitors df)).

(** ** Figures of the report (lines 1588-1590 and 1669-1671) *)

(** [branch_counts.max()]; a table without rows has no maximum. *)
Definition branch_counts_max (df : dataframe) : option nat :=
  match map snd (value_counts df) with
  | [] => None
  | n :: rest => Some (fold_left Nat.max rest n)
  end.

(** [branch_counts.max() - atb_count] *)
Definition gap_to_leader (df : dataframe) : option Z :=
  option_map (fun m => (Z.of_nat m - Z.of_nat (atb_count df))%Z)
             (branch_counts_max df).

(** [sorted(values, reverse=True)] on counts *)
Fixpoint insert_count (n : nat) (l : list nat) : list nat :=
  match l with
  | [] => [n]
  | h :: rest => if (h <? n)%nat then n :: h :: rest else h :: insert_count n rest
  end.

Definition sorted_reverse (l : list nat) : list nat :=
  fold_right insert_count [] l.

(** [sorted(branch_counts.values, reverse=True)[4] - atb_count]; [None] is
    the [IndexError] of a list with fewer than five counts. *)
Definition need_for_fifth (df : dataframe) : option Z :=
  option_map (fun n => (Z.of_nat n - Z.of_nat (atb_count df))%Z)
             (nth_error (sorted_reverse (map snd (value_counts df))) 4).

(** ** Baku city table (lines 399-400 and 461-465) *)

Definition baku_df (df : dataframe) : dataframe :=
  filter (fun r => Rleb 40.3 (lat r) && Rleb (lat r) 40.5
                   && Rleb 49.7 (long r) && Rleb (long r) 50.0)
         df.

(** ** Market dominance by zone (run_analysis.py, lines 886-905) *)

Definition zones_order : list string :=
  [ "Baku City"; "Absheron"; "North"; "Northwest"; "Central"; "South";
    "West" ].

(** [df[df['zone'] == zone]] *)
Definition zone_rows (df : dataframe) (zone : string) : dataframe :=
  filter (fun r => String.eqb (assign_zone r) zone) df.

(** The cell [ATB_Rank]: a rank, or the text 'N/A'. *)
Inductive rank_cell : Type :=
| Rank (n : nat)
| RankNA.

Record zone_entry : Type := mkZone {
  Zone : string;
  Total : nat;
  ATB_Count : nat;
  ATB_Share : R;
  ATB_Rank : rank_cell;
  Leader : string;
  Leader_Count : nat
}.

(** One turn of the loop over [zones_order]: the entry appended for a zone
    with rows, none for a zone without. *)
Definition zone_entry_of (df : dataframe) (zone : string) : option zone_entry :=
  let zone_df := zone_rows df zone in
  if (0 <? length zone_df)%nat then
    let top_banks_zone := firstn 3 (value_counts zone_df) in
    let atb_count_zone := length (rows_of target_bank zone_df) in
    let atb_rank_zone :=
      if (0 <? atb_count_zone)%nat
      then (length (filter (fun e => (atb_count_zone <? snd e)%nat)
                           (value_counts zone_df)) + 1)%nat
      else 0%nat in
    Some (mkZone zone
                 (length zone_df)
                 atb_count_zone
                 (if (0 <? length zone_df)%nat
                  then INR atb_count_zone / INR (length zone_df) * 100
                  else 0)
                 (if (0 <? atb_count_zone)%nat then Rank atb_rank_zone
                  else RankNA)
                 (match top_banks_zone with
                  | e :: _ => fst e
                  | [] => "N/A"
                  end)
                 (match top_banks_zone with
                  | e :: _ => snd e
                  | [] => 0%nat
                  end))
  else None.

Definition zone_market_data (df : dataframe) : list zone_entry :=
  flat_map (fun zone => match zone_entry_of df zone with
                        | Some e => [e]
                        | None => []
                        end)
           zones_order.

(** ** The largest gaps (run_analysis.py, line 597) *)

(** [gaps.head(15)] *)
Definition top_gaps (df : dataframe) : result (list gap_row) :=
  g <- gaps df ;;
  Ok (firstn 15 g).

(** ** The regions of the target bank (lines 487, 1473 and 1593-1594) *)

(** [df[df['bank_name'] == 'AzerTurk Bank']['region'].value_counts()] *)
Definition atb_region (df : dataframe) : list (string * nat) :=
  sort_desc (tally (map region (rows_of target_bank df))).

(** [atb_region['Regions'] / atb_count * 100] *)
Definition regional_presence (df : dataframe) : result R :=
  n <- lookup "Regions" (atb_region df) ;;
  Ok (INR n / INR (atb_count df) * 100).

(** [atb_region['Baku'] / atb_count * 100] *)
Definition baku_concentration (df : dataframe) : result R :=
  n <- lookup "Baku" (atb_region df) ;;
  Ok (INR n / INR (atb_count df) * 100).

(** ** The table of intensities (lines 741-749) *)

(** [np.max] and [np.min] of a list of counts refuse an empty list. *)
Definition np_max (l : list nat) : result nat :=
  match l with
  | [] => Raise ValueError
  | n :: rest => Ok (fold_left Nat.max rest n)
  end.

Definition np_min (l : list nat) : result nat :=
  match l with
  | [] => Raise ValueError
  | n :: rest => Ok (fold_left Nat.min rest n)
  end.

Record intensity_row : Type := mkIntensity {
  i_Bank : string;
  Avg_Competitors_Nearby : number;
  Max_Competitors_Nearby : nat;
  Min_Competitors_Nearby : nat
}.

Definition intensity_row_of (item : string * list nat) : result intensity_row :=
  hi <- np_max (snd item) ;;
  lo <- np_min (snd item) ;;
  Ok (mkIntensity (fst item) (mean (snd item)) hi lo).

(** [sort_values('Avg_Competitors_Nearby', ascending=False)]; a NaN goes
    last. *)
Definition avg_before (a b : intensity_row) : bool :=
  match Avg_Competitors_Nearby a, Avg_Competitors_Nearby b with
  | Some x, Some y => Rltb y x
  | Some _, None => true
  | None, _ => false
  end.

Fixpoint insert_intensity (e : intensity_row) (l : list intensity_row)
  : list intensity_row :=
  match l with
  | [] => [e]
  | h :: rest =>
      if avg_before e h then e :: h :: rest else h :: insert_intensity e rest
  end.

Definition intensity_comparison (df : dataframe) : result (list intensity_row) :=
  rows <- map_result intensity_row_of (intensity_data df) ;;
  Ok (fold_right insert_intensity [] rows).

(** ** The recommended locations (lines 1041-1043 and 1251-1258) *)

(** [scores.argsort()]: the positions of the scores in order of increasing
    score; among equal scores the earlier position comes first. *)
Fixpoint insert_index (scores : list R) (i : nat) (l : list nat) : list nat :=
  match l with
  | [] => [i]
  | h :: rest =>
      if Rleb (nth i scores 0) (nth h scores 0)
      then i :: h :: rest
      else h :: insert_index scores i rest
  end.

Definition argsort (scores : list R) : list nat :=
  fold_right (insert_index scores) [] (seq 0 (length scores)).

(** [a[-n:]] and [a[::-1]] *)
Definition last_n {A : Type} (n : nat) (a : list A) : list A :=
  skipn (length a - n) a.

(** [scores.argsort()[-top_n:][::-1]] *)
Definition top_indices (top_n : nat) (scores : list R) : list nat :=
  rev (last_n top_n (argsort scores)).

Definition top_n_baku : nat := 15.
Definition top_n_regions : nat := 15.

Definition flat_indices_baku (df : dataframe) : result (list nat) :=
  scores <- opportunity_scores_baku df ;;
  Ok (top_indices top_n_baku scores).

(** [grid_points[flat_indices]]; the positions of an [argsort] all lie in
    the grid, so the default of [nth] is never taken. *)
Definition take_points (grid : list coord) (indices : list nat) : list coord :=
  map (fun i => nth i grid (0, 0)) indices.

Definition top_opportunities_baku (df : dataframe) : result (list coord) :=
  indices <- flat_indices_baku df ;;
  Ok (take_points grid_points_baku indices).

(** The regional recommendations: the points of the largest scores, those
    inside the Baku-Absheron box left out, at most [top_n_regions] of
    them.  There are none when there is no regional grid. *)
Definition top_opportunities_regions (df : dataframe)
  : option (result (list coord)) :=
  match grid_points_regions df with
  | None => None
  | Some grid =>
      Some (scores <- map_result (calculate_opportunity_score_regions df) grid ;;
            let flat_indices := top_indices top_n_regions scores in
            let top := take_points grid flat_indices in
            Ok (firstn top_n_regions
                  (filter (fun p =>
                             negb (between baku_lat_min (fst p) baku_lat_max
                                   && between baku_long_min (snd p)
                                              baku_long_max))
                          top)))
  end.

(** ** Notions used in the further statements *)

(** The score at a position, and positions in order of increasing score. *)
Definition score_at (scores : list R) (i : nat) : R := nth i scores 0.

Definition by_increasing_score (scores : list R) (i j : nat) : Prop :=
  score_at scores i <= score_at scores j.


Definition by_decreasing_count (a b : string * nat) : Prop :=
  (snd b <= snd a)%nat.

(** The sum of a list of numbers. *)
Definition Rsum (l : list R) : R := fold_right Rplus 0 l.

(** The segments tile the interval from [left] to [final]: each starts
    where the one before ends. *)
Fixpoint tiles (left : R) (segs : list segment) (final : R) : Prop :=
  match segs with
  | [] => left = final
  | s :: rest => seg_left s = left /\ tiles (left + seg_width s) rest final
  end.

(** Six banks of 6, 5, 4, 3, 2 and 1 rows; the target bank has one. *)
Definition six_banks_df : dataframe :=
  [ mkRow "Bank A" 40.40 49.86; mkRow "Bank A" 40.41 49.86;
    mkRow "Bank A" 40.40 49.87; mkRow "Bank A" 40.39 49.86;
    mkRow "Bank A" 40.40 49.85; mkRow "Bank A" 41.00 47.00;
    mkRow "Bank B" 41.00 47.00; mkRow "Bank B" 41.01 47.00;
    mkRow "Bank B" 41.00 47.01; mkRow "Bank B" 40.37 49.83;
    mkRow "Bank B" 40.38 49.84;
    mkRow "Bank C" 40.68 46.36; mkRow "Bank C" 40.69 46.36;
    mkRow "Bank C" 40.41 49.95; mkRow "Bank C" 40.42 49.96;
    mkRow "Bank D" 38.75 48.85; mkRow "Bank D" 38.76 48.85;
    mkRow "Bank D" 40.45 49.75;
    mkRow "Bank E" 39.20 45.41; mkRow "Bank E" 40.58 49.63;
    mkRow target_bank 40.41 49.87 ].

(** The competitors of the target bank in [market_share], in its order. *)
Definition competitors (df : dataframe) : list (string * nat) :=
  filter (fun e => negb (String.eqb (fst e) target_bank)) (market_share df).

(** The target rows tagged with a region. *)
Definition atb_rows_in (df : dataframe) (label : string) : nat :=
  length (filter (fun r => String.eqb (region r) label)
                 (rows_of target_bank df)).

(* ================================================================== *)
(** * Part II: properties *)
(* ================================================================== *)

(** ** Comparisons *)

Lemma Rltb_true (x y : R) : Rltb x y = true <-> x < y.
Proof. unfold Rltb. destruct (Rlt_dec x y); split; intros; try easy. Qed.

Lemma Rltb_false (x y : R) : Rltb x y = false <-> y <= x.
Proof.
  unfold Rltb. destruct (Rlt_dec x y); split; intros; try easy; lra.
Qed.

Lemma Rleb_true (x y : R) : Rleb x y = true <-> x <= y.
Proof. unfold Rleb. destruct (Rle_dec x y); split; intros; try easy. Qed.

Lemma Rleb_false (x y : R) : Rleb x y = false <-> y < x.
Proof.
  unfold Rleb. destruct (Rle_dec x y); split; intros; try easy; lra.
Qed.

(** ** Load and clean *)

Section LoadFacts.

Variable parse_number : string -> option R.

Lemma dropna_length (raw : list raw_row) :
  length (load_and_clean parse_number raw)
  = length (filter (valid_coordinates parse_number) raw).
Proof.
  unfold load_and_clean.
  induction raw as [|r raw IH]; simpl; [reflexivity|].
  unfold valid_coordinates.
  destruct (to_numeric parse_number (raw_lat r)),
           (to_numeric parse_number (raw_long r)); simpl; auto.
Qed.

Lemma dropna_sound (raw : list raw_row) (c : row) :
  In c (load_and_clean parse_number raw) ->
  exists r, In r raw /\ valid_coordinates parse_number r = true
            /\ cleaned_as parse_number r c.
Proof.
  unfold load_and_clean.
  induction raw as [|r raw IH]; simpl; [tauto|].
  destruct (to_numeric parse_number (raw_lat r)) as [la|] eqn:Ela;
    destruct (to_numeric parse_number (raw_long r)) as [lo|] eqn:Elo;
    simpl; intros H.
  - destruct H as [<-|H].
    + exists r. unfold valid_coordinates, cleaned_as.
      rewrite Ela, Elo. simpl. auto.
    + destruct (IH H) as (r' & ? & ?). exists r'. auto.
  - destruct (IH H) as (r' & ? & ?); exists r'; auto.
  - destruct (IH H) as (r' & ? & ?); exists r'; auto.
  - destruct (IH H) as (r' & ? & ?); exists r'; auto.
Qed.

Lemma dropna_complete (raw : list raw_row) (r : raw_row) :
  In r raw -> valid_coordinates parse_number r = true ->
  exists c, In c (load_and_clean parse_number raw)
            /\ cleaned_as parse_number r c.
Proof.
  unfold load_and_clean.
  induction raw as [|r' raw IH]; simpl; [tauto|].
  intros [->|Hin] Hv.
  - unfold valid_coordinates in Hv.
    destruct (to_numeric parse_number (raw_lat r)) as [la|] eqn:Ela;
      destruct (to_numeric parse_number (raw_long r)) as [lo|] eqn:Elo;
      try discriminate.
    exists (mkRow (raw_bank r) la lo). split; [now left|].
    unfold cleaned_as. simpl. auto.
  - destruct (IH Hin Hv) as (c & Hc & Hcl). exists c. split; [|exact Hcl].
    destruct (to_numeric parse_number (raw_lat r'));
      destruct (to_numeric parse_number (raw_long r')); simpl; auto.
Qed.

Lemma dropna_invalid (raw : list raw_row) (r : raw_row) (c : row) :
  valid_coordinates parse_number r = false ->
  ~ cleaned_as parse_number r c.
Proof.
  unfold valid_coordinates, cleaned_as. intros Hv (_ & Hla & Hlo).
  rewrite Hla, Hlo in Hv. discriminate.
Qed.

End LoadFacts.

Section LoadTheorem.

Variable parse_number : string -> option R.

Lemma dropna_pointwise (raw : list raw_row) :
  Forall2 (cleaned_as parse_number)
          (filter (valid_coordinates parse_number) raw)
          (load_and_clean parse_number raw).
Proof.
  unfold load_and_clean.
  induction raw as [|r raw IH]; simpl; [constructor|].
  unfold valid_coordinates.
  destruct (to_numeric parse_number (raw_lat r)) as [la|] eqn:Ela;
    destruct (to_numeric parse_number (raw_long r)) as [lo|] eqn:Elo;
    simpl; try exact IH.
  constructor; [|exact IH].
  unfold cleaned_as. simpl. auto.
Qed.


End LoadTheorem.

(** ** Region and zone *)

(** C10.  A row is tagged region "Baku" exactly when it is tagged zone
    "Baku City": both tags test the same box, and the zone test comes
    first. *)
Theorem region_baku_iff_zone_baku_city (r : row) :
  region r = "Baku" <-> assign_zone r = "Baku City".
Proof.
  unfold region, assign_zone.
  destruct (between 40.3 (lat r) 40.5 && between 49.7 (long r) 50.0).
  - split; reflexivity.
  - split; [discriminate|].
    repeat match goal with
           | |- context [if ?c then _ else _] => destruct c
           end; discriminate.
Qed.

(** ** Ranking *)

Lemma bump_keys (b k : string) (vc : list (string * nat)) :
  In k (map fst (bump b vc)) <-> k = b \/ In k (map fst vc).
Proof.
  induction vc as [|[k' n] vc IH]; simpl.
  - intuition.
  - destruct (String.eqb_spec k' b) as [->|Hne]; simpl.
    + intuition.
    + rewrite IH. intuition.
Qed.

Lemma bump_NoDup (b : string) (vc : list (string * nat)) :
  NoDup (map fst vc) -> NoDup (map fst (bump b vc)).
Proof.
  induction vc as [|[k n] vc IH]; simpl; intros H.
  - constructor; [simpl; tauto | constructor].
  - inversion H as [|? ? Hnin Hnd]; subst.
    destruct (String.eqb_spec k b) as [->|Hne]; simpl.
    + constructor; assumption.
    + constructor; [|auto].
      rewrite bump_keys. intros [->|Hin]; [congruence | contradiction].
Qed.

Lemma bump_held (b k : string) (vc : list (string * nat)) :
  held (bump b vc) k
  = if String.eqb b k then S (held vc k) else held vc k.
Proof.
  induction vc as [|[k' n] vc IH]; simpl.
  - destruct (String.eqb b k); reflexivity.
  - destruct (String.eqb_spec k' b) as [->|Hne]; simpl.
    + destruct (String.eqb b k); reflexivity.
    + destruct (String.eqb_spec k' k) as [->|Hne'].
      * destruct (String.eqb_spec b k) as [->|_]; [congruence | reflexivity].
      * exact IH.
Qed.

Lemma fold_bump (names : list string) :
  forall acc : list (string * nat),
    NoDup (map fst acc) ->
    let vc := fold_left (fun a b => bump b a) names acc in
    NoDup (map fst vc)
    /\ (forall k, In k (map fst vc) <-> In k (map fst acc) \/ In k names)
    /\ (forall k, held vc k
                  = (held acc k + count_occ string_dec names k)%nat).
Proof.
  induction names as [|b names IH]; intros acc Hnd; simpl.
  - repeat split; intuition.
  - destruct (IH (bump b acc) (bump_NoDup b acc Hnd)) as (H1 & H2 & H3).
    split; [exact H1|]. split.
    + intros k. rewrite H2, bump_keys. intuition.
    + intros k. rewrite H3, bump_held.
      destruct (string_dec b k) as [->|Hne].
      * rewrite String.eqb_refl. lia.
      * destruct (String.eqb_spec b k); [congruence | reflexivity].
Qed.

Lemma held_In (vc : list (string * nat)) :
  NoDup (map fst vc) ->
  forall k n, In (k, n) vc <-> In k (map fst vc) /\ n = held vc k.
Proof.
  induction vc as [|[k' n'] vc IH]; simpl; intros Hnd k n.
  - intuition.
  - inversion Hnd as [|? ? Hnin Hnd']; subst.
    destruct (String.eqb_spec k' k) as [->|Hne].
    + split.
      * intros [Heq|Hin]; [inversion Heq; auto|].
        exfalso. apply Hnin. apply (in_map fst) in Hin. exact Hin.
      * intros [_ ->]. now left.
    + rewrite (IH Hnd' k n). split.
      * intros [Heq|H]; [inversion Heq; congruence | intuition].
      * intros [[Heq|Hin] Hn]; [congruence | right; auto].
Qed.

Lemma tally_entries (names : list string) :
  Permutation (tally names)
              (map (fun b => (b, count_occ string_dec names b))
                   (nodup string_dec names)).
Proof.
  unfold tally.
  destruct (fold_bump names [] (NoDup_nil _)) as (Hnd & Hkeys & Hheld).
  simpl in *.
  set (vc := fold_left (fun a b => bump b a) names []) in *.
  apply NoDup_Permutation.
  - apply (NoDup_map_inv fst). exact Hnd.
  - apply (NoDup_map_inv fst). rewrite map_map. simpl. rewrite map_id.
    apply NoDup_nodup.
  - intros [k n]. rewrite (held_In vc Hnd), Hkeys, Hheld, in_map_iff.
    simpl. split.
    + intros [[[]|Hin] ->]. exists k. split; [reflexivity|].
      now apply nodup_In.
    + intros (b & Heq & Hin). inversion Heq; subst.
      apply nodup_In in Hin. auto.
Qed.

Lemma insert_desc_perm (e : string * nat) (vc : list (string * nat)) :
  Permutation (insert_desc e vc) (e :: vc).
Proof.
  induction vc as [|h vc IH]; simpl; [reflexivity|].
  destruct (snd h <? snd e)%nat; [reflexivity|].
  rewrite IH. apply perm_swap.
Qed.

Lemma sort_desc_perm (vc : list (string * nat)) :
  Permutation (sort_desc vc) vc.
Proof.
  induction vc as [|h vc IH]; simpl; [reflexivity|].
  rewrite insert_desc_perm. now constructor.
Qed.

Lemma filter_perm_length {A : Type} (p : A -> bool) (l l' : list A) :
  Permutation l l' -> length (filter p l) = length (filter p l').
Proof.
  induction 1; simpl; auto.
  - destruct (p x); simpl; auto.
  - destruct (p x), (p y); reflexivity.
  - congruence.
Qed.

Lemma filter_map_length {A B : Type} (p : B -> bool) (f : A -> B)
      (l : list A) :
  length (filter p (map f l)) = length (filter (fun a => p (f a)) l).
Proof.
  induction l as [|a l IH]; simpl; [reflexivity|].
  destruct (p (f a)); simpl; auto.
Qed.

Lemma branch_count_count (df : dataframe) (b : string) :
  branch_count df b = count df b.
Proof.
  unfold branch_count, count, rows_of.
  induction df as [|r df IH]; simpl; [reflexivity|].
  destruct (String.eqb_spec (bank_name r) b) as [->|Hne].
  - destruct (string_dec b b); [simpl; auto | congruence].
  - destruct (string_dec (bank_name r) b); [congruence | exact IH].
Qed.

Lemma bank_rank_unfold (df : dataframe) (b : string) :
  bank_rank df b
  = (1 + length (filter (fun b' => count df b <? count df b') (banks df)))%nat.
Proof.
  unfold bank_rank, value_counts, banks.
  rewrite (filter_perm_length _ _ _ (sort_desc_perm _)).
  rewrite (filter_perm_length _ _ _ (tally_entries _)).
  rewrite filter_map_length. simpl.
  rewrite branch_count_count. unfold count. lia.
Qed.

(** C3.  The rank of a bank is one more than the number of banks with
    strictly more branches; a bank that no bank exceeds has rank 1. *)
Theorem bank_rank_counts_larger_banks (df : dataframe) (b : string) :
  bank_rank df b
  = (1 + length (filter (fun b' => count df b <? count df b') (banks df)))%nat
  /\ (Forall (fun b' => count df b' <= count df b)%nat (banks df) ->
      bank_rank df b = 1%nat).
Proof.
  split; [apply bank_rank_unfold|].
  intros Hmax. rewrite bank_rank_unfold.
  induction Hmax as [|b' l Hle _ IH]; simpl; [reflexivity|].
  destruct (Nat.ltb_spec (count df b) (count df b')); [lia | exact IH].
Qed.

(** ** Distances *)

Lemma sq_nonneg (x : R) : 0 <= sq x.
Proof. unfold sq. nra. Qed.

Lemma sq_opp (x y : R) : sq (x - y) = sq (y - x).
Proof. unfold sq. ring. Qed.

Lemma distance_nonneg (a b : coord) : 0 <= distance a b.
Proof. unfold distance. apply sqrt_pos. Qed.

Lemma distance_sym (a b : coord) : distance a b = distance b a.
Proof.
  unfold distance. now rewrite (sq_opp (fst a)), (sq_opp (snd a)).
Qed.

Lemma distance_self (a : coord) : distance a a = 0.
Proof.
  unfold distance, sq.
  replace ((fst a - fst a) * (fst a - fst a)
           + (snd a - snd a) * (snd a - snd a)) with 0 by ring.
  apply sqrt_0.
Qed.

Lemma sqrt_lt_bound (x r : R) : 0 <= x -> 0 < r -> (sqrt x < r <-> x < r * r).
Proof.
  intros Hx Hr. rewrite <- (sqrt_square r) at 1 by lra. split.
  - apply sqrt_lt_0; nra.
  - apply sqrt_lt_1; nra.
Qed.

(** ** Nearest neighbours *)

Lemma nearest_from_spec (q : coord) (pts : list coord) :
  forall (best : R * nat) (i : nat),
    let r := nearest_from q best i pts in
    (fst r = fst best \/ exists p, In p pts /\ fst r = distance p q)
    /\ fst r <= fst best
    /\ (forall p, In p pts -> fst r <= distance p q).
Proof.
  induction pts as [|p pts IH]; intros best i; simpl.
  - repeat split; [now left | lra | tauto].
  - set (best' := if Rltb (distance p q) (fst best)
                  then (distance p q, i) else best).
    destruct (IH best' (S i)) as (Hwhere & Hle & Hall).
    assert (Hb : fst best' <= fst best /\ fst best' <= distance p q
                 /\ (fst best' = fst best \/ fst best' = distance p q)).
    { unfold best'. destruct (Rltb (distance p q) (fst best)) eqn:E; simpl.
      - apply Rltb_true in E. lra.
      - apply Rltb_false in E. lra. }
    destruct Hb as (Hb1 & Hb2 & Hb3).
    split; [|split].
    + destruct Hwhere as [Heq|(p' & Hin & Heq)].
      * destruct Hb3 as [Hb3|Hb3]; [left; congruence|].
        right. exists p. split; [now left | congruence].
      * right. exists p'. split; [now right | exact Heq].
    + lra.
    + intros p' [<-|Hin]; [lra | now apply Hall].
Qed.

Lemma nearest_spec (p : coord) (rest : list coord) (q : coord) :
  is_nearest_distance (fst (nearest (p, rest) q)) q (p :: rest).
Proof.
  unfold nearest. simpl.
  destruct (nearest_from_spec q rest (distance p q, 0%nat) 1%nat)
    as (Hwhere & Hle & Hall).
  simpl in *. split.
  - destruct Hwhere as [Heq|(p' & Hin & Heq)].
    + exists p. split; [now left | exact Heq].
    + exists p'. split; [now right | exact Heq].
  - intros p' [<-|Hin]; [exact Hle | now apply Hall].
Qed.

Lemma fit_nonempty (X : list coord) :
  X <> [] -> exists p rest, X = p :: rest /\ fit X = Ok (p, rest).
Proof.
  destruct X as [|p rest]; [congruence|]. intros _. now exists p, rest.
Qed.

Lemma kneighbors_nonempty (model : fitted) (Q : list coord) :
  Q <> [] -> kneighbors model Q = Ok (map (nearest model) Q).
Proof. destruct Q; [congruence | reflexivity]. Qed.

(** ** Gap analysis *)

Lemma insert_gap_perm (g : gap_row) (l : list gap_row) :
  Permutation (insert_gap g l) (g :: l).
Proof.
  induction l as [|h l IH]; simpl; [reflexivity|].
  destruct (Rltb (distance_to_bob h) (distance_to_bob g)); [reflexivity|].
  rewrite IH. apply perm_swap.
Qed.

Lemma sort_gaps_perm (l : list gap_row) : Permutation (sort_gaps l) l.
Proof.
  induction l as [|h l IH]; simpl; [reflexivity|].
  rewrite insert_gap_perm. now constructor.
Qed.

Lemma insert_gap_sorted (g : gap_row) (l : list gap_row) :
  StronglySorted farther_first l -> StronglySorted farther_first (insert_gap g l).
Proof.
  induction 1 as [|h l Hs IH Hall]; simpl.
  - repeat constructor.
  - destruct (Rltb (distance_to_bob h) (distance_to_bob g)) eqn:E.
    + apply Rltb_true in E. constructor; [now constructor|].
      constructor; [unfold farther_first; lra|].
      eapply Forall_impl; [|exact Hall]. unfold farther_first. intros; lra.
    + apply Rltb_false in E. constructor; [exact IH|].
      apply (Permutation_Forall (Permutation_sym (insert_gap_perm g l))).
      constructor; [exact E | exact Hall].
Qed.

Lemma sort_gaps_sorted (l : list gap_row) :
  StronglySorted farther_first (sort_gaps l).
Proof.
  induction l as [|h l IH]; simpl; [constructor|].
  now apply insert_gap_sorted.
Qed.

Lemma map_combine_map {A B C : Type} (f : A -> B) (h : A * B -> C)
      (l : list A) :
  map h (combine l (map f l)) = map (fun x => h (x, f x)) l.
Proof. induction l as [|a l IH]; simpl; [reflexivity | now rewrite IH]. Qed.

Lemma gap_df_ok (df : dataframe) (p : coord) (rest : list coord) :
  atb_coords df = p :: rest -> comp_coords df <> [] ->
  gap_df df = Ok (gap_table (p, rest) (rows_not_of target_bank df)).
Proof.
  intros Hatb Hcomp. unfold gap_df. rewrite Hatb. simpl.
  rewrite (kneighbors_nonempty _ _ Hcomp). simpl.
  unfold comp_coords, coords. rewrite map_map.
  now rewrite map_combine_map.
Qed.

Lemma gap_table_rows (model : fitted) (comp : dataframe) :
  Forall2 (fun r g =>
             g_lat g = lat r /\ g_long g = long r /\ g_bank g = bank_name r
             /\ distance_to_bob g = fst (nearest model (lat r, long r)))
          comp (gap_table model comp).
Proof.
  induction comp as [|r comp IH]; simpl; constructor; auto.
Qed.

(** C5.  When the target bank and its competitors both have rows, the gap
    analysis yields a table with, for each competitor row in order, the
    distance to a nearest target row; the gaps are exactly the rows of that
    table whose distance is strictly greater than 0.3 (each as often as it
    occurs), in order of decreasing distance. *)
Theorem gaps_are_far_competitors_by_decreasing_distance (df : dataframe) :
  atb_coords df <> [] -> comp_coords df <> [] ->
  exists table gs,
    gap_df df = Ok table /\ gaps df = Ok gs
    /\ Forall2 (fun r g =>
                  g_lat g = lat r /\ g_long g = long r
                  /\ g_bank g = bank_name r
                  /\ is_nearest_distance (distance_to_bob g)
                                         (lat r, long r) (atb_coords df))
               (rows_not_of target_bank df) table
    /\ Permutation gs (filter is_gap table)
    /\ (forall g, In g gs <-> In g table /\ 0.3 < distance_to_bob g)
    /\ StronglySorted farther_first gs.
Proof.
  intros Hatb Hcomp.
  destruct (fit_nonempty _ Hatb) as (p & rest & Heq & _).
  pose proof (gap_df_ok df p rest Heq Hcomp) as Htable.
  exists (gap_table (p, rest) (rows_not_of target_bank df)).
  exists (sort_gaps (filter is_gap
                            (gap_table (p, rest) (rows_not_of target_bank df)))).
  split; [exact Htable|].
  split; [unfold gaps; now rewrite Htable|].
  split.
  { eapply Forall2_impl; [|apply gap_table_rows].
    intros r g (H1 & H2 & H3 & H4). repeat split; auto; rewrite H4, Heq;
      apply nearest_spec. }
  split; [apply sort_gaps_perm|].
  split; [|apply sort_gaps_sorted].
  intros g. split.
  - intros Hin. apply (Permutation_in _ (sort_gaps_perm _)) in Hin.
    apply filter_In in Hin. destruct Hin as [Hin Hgap].
    split; [exact Hin | now apply Rltb_true].
  - intros [Hin Hfar].
    apply (Permutation_in _ (Permutation_sym (sort_gaps_perm _))).
    apply filter_In. split; [exact Hin | now apply Rltb_true].
Qed.

(** ** Nearest competitor *)

(** C6.  With exactly one target row [t] and exactly one competitor row
    [c], the gap analysis and the nearest-competitor analysis report the
    same distance. *)
Theorem single_pair_distances_agree (df : dataframe) (t c : row) :
  rows_of target_bank df = [t] -> rows_not_of target_bank df = [c] ->
  exists table analysis,
    gap_df df = Ok table /\ atb_analysis df = Ok analysis
    /\ length table = 1%nat /\ length analysis = 1%nat
    /\ map distance_to_bob table = map dist_to_competitor analysis.
Proof.
  intros Ht Hc.
  unfold gap_df, atb_analysis, atb_coords, comp_coords, comp_banks.
  rewrite Ht, Hc. simpl. unfold nearest. simpl.
  eexists. eexists. split; [reflexivity|]. split; [reflexivity|]. simpl.
  split; [reflexivity|]. split; [reflexivity|].
  now rewrite (distance_sym (lat c, long c)).
Qed.

(** ** Worked examples *)

Lemma bank_rank_of_largest_bank :
  Forall (fun b' => count scenario_df b' <= count scenario_df "Bank A")%nat
         (banks scenario_df)
  /\ bank_rank scenario_df "Bank A" = 1%nat.
Proof.
  assert (H : Forall (fun b' => count scenario_df b'
                                <= count scenario_df "Bank A")%nat
                     (banks scenario_df)).
  { unfold banks, count, scenario_df, target_bank. simpl.
    repeat constructor. }
  split; [exact H|].
  exact (proj2 (bank_rank_counts_larger_banks scenario_df "Bank A") H).
Defined.

Lemma scenario_ranks :
  bank_rank scenario_df "Bank A" = 1%nat
  /\ bank_rank scenario_df "Bank B" = 2%nat
  /\ atb_rank scenario_df = 3%nat.
Proof.
  unfold atb_rank. rewrite !bank_rank_unfold.
  unfold banks, count, scenario_df, target_bank. simpl. auto.
Qed.

Lemma scenario_gaps_exist :
  atb_coords scenario_df <> [] /\ comp_coords scenario_df <> []
  /\ exists gs, gaps scenario_df = Ok gs
                /\ StronglySorted farther_first gs.
Proof.
  assert (Ha : atb_coords scenario_df <> []) by (simpl; discriminate).
  assert (Hc : comp_coords scenario_df <> []) by (simpl; discriminate).
  split; [exact Ha|]. split; [exact Hc|].
  destruct (gaps_are_far_competitors_by_decreasing_distance scenario_df Ha Hc)
    as (table & gs & _ & Hg & _ & _ & _ & Hs).
  exists gs. split; assumption.
Defined.

Lemma pair_distances_agree :
  rows_of target_bank pair_df = [mkRow target_bank 40.41 49.87]
  /\ rows_not_of target_bank pair_df = [mkRow "Bank A" 40.40 49.86]
  /\ exists table analysis,
       gap_df pair_df = Ok table /\ atb_analysis pair_df = Ok analysis
       /\ map distance_to_bob table = map dist_to_competitor analysis.
Proof.
  assert (Ht : rows_of target_bank pair_df = [mkRow target_bank 40.41 49.87])
    by reflexivity.
  assert (Hc : rows_not_of target_bank pair_df = [mkRow "Bank A" 40.40 49.86])
    by reflexivity.
  split; [exact Ht|]. split; [exact Hc|].
  destruct (single_pair_distances_agree pair_df _ _ Ht Hc)
    as (table & analysis & H1 & H2 & _ & _ & H3).
  exists table, analysis. auto.
Defined.

(** ** Competitive intensity *)

(** Concrete comparisons of real numbers are settled by [lra]. *)
Ltac Rcompare :=
  repeat match goal with
         | |- context [Rleb ?a ?b] =>
             first [ rewrite (proj2 (Rleb_true a b)) by lra
                   | rewrite (proj2 (Rleb_false a b)) by lra ]
         | |- context [Rltb ?a ?b] =>
             first [ rewrite (proj2 (Rltb_true a b)) by lra
                   | rewrite (proj2 (Rltb_false a b)) by lra ]
         end.

Lemma intensity_skips_self (c : coord) (radius : R) :
  Rltb 0 (distance c c) && Rltb (distance c c) radius = false.
Proof. rewrite distance_self. now rewrite (proj2 (Rltb_false 0 0)) by lra. Qed.

Lemma distance_zero (a b : coord) : distance a b = 0 -> a = b.
Proof.
  unfold distance. intros H.
  pose proof (sq_nonneg (fst a - fst b)) as H1.
  pose proof (sq_nonneg (snd a - snd b)) as H2.
  apply sqrt_eq_0 in H; [|lra].
  assert (Hf : sq (fst a - fst b) = 0) by lra.
  assert (Hs : sq (snd a - snd b) = 0) by lra.
  unfold sq in Hf, Hs.
  apply Rmult_integral in Hf. apply Rmult_integral in Hs.
  destruct a as [a1 a2], b as [b1 b2]. simpl in *. f_equal; lra.
Qed.

Lemma intensity_counts_others (c : coord) (radius : R) (i : nat)
      (l : dataframe) :
  forall start : nat,
    (forall j r, nth_error l j = Some r ->
                 ((start + j)%nat = i -> (lat r, long r) = c)
                 /\ ((start + j)%nat <> i -> (lat r, long r) <> c)) ->
    length (filter (fun d => Rltb 0 d && Rltb d radius)
                   (map (fun a => distance a c) (coords l)))
    = length (filter (fun jr : nat * row =>
                        negb (fst jr =? i)%nat
                        && Rltb (distance (lat (snd jr), long (snd jr)) c)
                                radius)
                     (combine (seq start (length l)) l)).
Proof.
  induction l as [|r l IH]; intros start Hrows; [reflexivity|].
  assert (Htail : forall j r', nth_error l j = Some r' ->
                     ((S start + j)%nat = i -> (lat r', long r') = c)
                     /\ ((S start + j)%nat <> i -> (lat r', long r') <> c)).
  { intros j r' Hj. replace (S start + j)%nat with (start + S j)%nat by lia.
    now apply (Hrows (S j) r'). }
  specialize (IH (S start) Htail).
  destruct (Hrows 0%nat r eq_refl) as [Hsame Hother].
  rewrite Nat.add_0_r in Hsame, Hother.
  cbn [coords map length seq combine filter fst snd] in *.
  destruct (Nat.eqb_spec start i) as [Heq|Hne].
  - rewrite (Hsame Heq), intensity_skips_self. exact IH.
  - assert (Hpos : 0 < distance (lat r, long r) c).
    { destruct (distance_nonneg (lat r, long r) c) as [Hlt|Hz];
        [exact Hlt|].
      symmetry in Hz. apply distance_zero in Hz. now apply Hother in Hne. }
    rewrite (proj2 (Rltb_true _ _) Hpos). cbn [negb andb].
    unfold coords in IH.
    destruct (Rltb (distance (lat r, long r) c) radius); cbn [length];
      now rewrite IH.
Qed.

(** Where no other row shares the coordinates of the row at position [i],
    the intensity computed for that row is the number of other rows nearer
    than the radius. *)
Lemma intensity_without_colocation (df : dataframe) (i : nat) (r : row)
      (radius : R) :
  nth_error df i = Some r ->
  (forall j r', nth_error df j = Some r' -> j <> i ->
                (lat r', long r') <> (lat r, long r)) ->
  intensity_at df radius (lat r, long r) = others_within df i radius.
Proof.
  intros Hi Hdistinct. unfold intensity_at, others_within. rewrite Hi.
  apply intensity_counts_others. intros j r' Hj. simpl. split.
  - intros ->. congruence.
  - now apply Hdistinct.
Qed.

(** C4, at two co-located branches of different banks: the intensity of the
    first row is 0, although one other row lies within the radius of it. *)
Theorem colocated_rows_are_not_counted :
  calculate_competitive_intensity colocated_df "Bank A" default_radius
  = [0%nat]
  /\ others_within colocated_df 0 default_radius = 1%nat.
Proof.
  unfold calculate_competitive_intensity, intensity_at, others_within,
    colocated_df, default_radius.
  simpl. rewrite !distance_self. Rcompare. simpl. auto.
Qed.

(** ** Opportunity scores *)

Lemma fold_Rmin_spec (l : list R) :
  forall x : R,
    let m := fold_left Rmin l x in
    (m = x \/ In m l) /\ m <= x /\ (forall y, In y l -> m <= y).
Proof.
  induction l as [|y l IH]; intros x; simpl.
  - repeat split; [now left | lra | tauto].
  - destruct (IH (Rmin x y)) as (Hwhere & Hle & Hall).
    pose proof (Rmin_l x y). pose proof (Rmin_r x y).
    split; [|split].
    + destruct Hwhere as [Heq|Hin]; [|now right; right].
      rewrite Heq. unfold Rmin. destruct (Rle_dec x y); auto.
    + lra.
    + intros z [<-|Hin]; [lra | now apply Hall].
Qed.

Lemma array_min_distance (pts : list coord) (q : coord) :
  pts <> [] ->
  exists m, array_min (map (fun a => distance a q) pts) = Ok m
            /\ is_nearest_distance m q pts.
Proof.
  destruct pts as [|p rest]; [congruence|]. intros _. simpl.
  eexists. split; [reflexivity|].
  destruct (fold_Rmin_spec (map (fun a => distance a q) rest) (distance p q))
    as (Hwhere & Hle & Hall).
  simpl in *. split.
  - destruct Hwhere as [Heq|Hin].
    + exists p. split; [now left | exact Heq].
    + apply in_map_iff in Hin. destruct Hin as (p' & Heq & Hin).
      exists p'. split; [now right | now symmetry].
  - intros p' [<-|Hin]; [exact Hle|].
    apply Hall. apply in_map_iff. now exists p'.
Qed.

Lemma coords_length (df : dataframe) : length (coords df) = length df.
Proof. unfold coords. apply length_map. Qed.

Lemma atb_coords_baku_nonempty (df : dataframe) : atb_coords_baku df <> [].
Proof.
  unfold atb_coords_baku.
  destruct (Nat.ltb_spec 0 (length (atb_baku df))) as [Hlt|_];
    [|discriminate].
  intros Hnil. apply (f_equal (@length coord)) in Hnil.
  rewrite coords_length in Hnil. simpl in Hnil. lia.
Qed.

Lemma atb_coords_regions_nonempty (df : dataframe) :
  atb_coords_regions df <> [].
Proof.
  unfold atb_coords_regions.
  destruct (Nat.ltb_spec 0 (length (atb_regions df))) as [Hlt|_];
    [|discriminate].
  intros Hnil. apply (f_equal (@length coord)) in Hnil.
  rewrite coords_length in Hnil. simpl in Hnil. lia.
Qed.

Lemma nearby_rows (rows : dataframe) (point : coord) (radius : R) :
  nearby (coords rows) point radius
  = length (filter (fun r => Rltb (distance (lat r, long r) point) radius)
                   rows).
Proof.
  unfold nearby, coords. rewrite map_map. apply filter_map_length.
Qed.

Lemma score_baku_value (df : dataframe) (point : coord) :
  exists d,
    is_nearest_distance d point (atb_coords_baku df)
    /\ calculate_opportunity_score_baku df point
       = Ok (d * 15 + INR (nearby (comp_coords_baku df) point 0.05) * 0.8).
Proof.
  unfold calculate_opportunity_score_baku.
  destruct (array_min_distance _ point (atb_coords_baku_nonempty df))
    as (m & Hm & Hnear).
  exists m. split; [exact Hnear|]. now rewrite Hm.
Qed.

Lemma score_regions_inside (df : dataframe) (point : coord) :
  between baku_lat_min (fst point) baku_lat_max
  && between baku_long_min (snd point) baku_long_max = true ->
  calculate_opportunity_score_regions df point = Ok 0.
Proof.
  intros H. unfold calculate_opportunity_score_regions. now rewrite H.
Qed.

Lemma score_regions_outside (df : dataframe) (point : coord) :
  between baku_lat_min (fst point) baku_lat_max
  && between baku_long_min (snd point) baku_long_max = false ->
  exists d,
    is_nearest_distance d point (atb_coords_regions df)
    /\ calculate_opportunity_score_regions df point
       = Ok (d * 10 + INR (nearby (comp_coords_regions df) point 0.3) * 0.5).
Proof.
  intros H. unfold calculate_opportunity_score_regions. rewrite H.
  destruct (array_min_distance _ point (atb_coords_regions_nonempty df))
    as (m & Hm & Hnear).
  exists m. split; [exact Hnear|].
  destruct (Nat.ltb_spec 0 (length (atb_coords_regions df))) as [_|Hlen].
  - now rewrite Hm.
  - pose proof (atb_coords_regions_nonempty df) as Hne.
    destruct (atb_coords_regions df); [congruence | simpl in Hlen; lia].
Qed.

Lemma map_result_total {A B : Type} (f : A -> result B) (l : list A) :
  (forall a, In a l -> exists b, f a = Ok b) ->
  exists bs, map_result f l = Ok bs /\ length bs = length l.
Proof.
  induction l as [|a l IH]; simpl; intros Hf.
  - now exists [].
  - destruct (Hf a (or_introl eq_refl)) as (b & Hb).
    destruct IH as (bs & Hbs & Hlen); [intros; apply Hf; now right|].
    exists (b :: bs). rewrite Hb, Hbs. simpl. auto.
Qed.

Lemma rows_of_filter (b : string) (p : row -> bool) (df : dataframe) :
  rows_of b (filter p df) = filter p (rows_of b df).
Proof.
  unfold rows_of. induction df as [|r df IH]; simpl; [reflexivity|].
  destruct (p r) eqn:Ep, (String.eqb (bank_name r) b) eqn:Eb; simpl;
    rewrite ?Ep, ?Eb, ?IH; reflexivity.
Qed.

Lemma no_target_rows_placeholders (df : dataframe) :
  rows_of target_bank df = [] ->
  atb_coords_baku df = [placeholder_baku]
  /\ atb_coords_regions df = [placeholder_regions].
Proof.
  intros H.
  unfold atb_coords_baku, atb_coords_regions, atb_baku, atb_regions,
    df_baku, df_regions.
  now rewrite !rows_of_filter, H.
Qed.

Lemma no_target_rows_gap_df (df : dataframe) :
  rows_of target_bank df = [] ->
  gap_df df = Raise ValueError /\ gaps df = Raise ValueError.
Proof.
  intros H. unfold gaps, gap_df, atb_coords. now rewrite H.
Qed.

Lemma no_target_rows_score_baku (df : dataframe) (p : coord) :
  rows_of target_bank df = [] ->
  calculate_opportunity_score_baku df p
  = Ok (distance placeholder_baku p * 15
        + INR (nearby (comp_coords_baku df) p 0.05) * 0.8).
Proof.
  intros H. unfold calculate_opportunity_score_baku.
  now rewrite (proj1 (no_target_rows_placeholders df H)).
Qed.

Lemma no_target_rows_score_regions (df : dataframe) (p : coord) :
  rows_of target_bank df = [] ->
  between baku_lat_min (fst p) baku_lat_max
  && between baku_long_min (snd p) baku_long_max = false ->
  calculate_opportunity_score_regions df p
  = Ok (distance placeholder_regions p * 10
        + INR (nearby (comp_coords_regions df) p 0.3) * 0.5).
Proof.
  intros H Hout. unfold calculate_opportunity_score_regions.
  now rewrite Hout, (proj2 (no_target_rows_placeholders df H)).
Qed.

Lemma opportunity_scores_baku_total (df : dataframe) :
  exists scores, opportunity_scores_baku df = Ok scores
                 /\ length scores = length grid_points_baku.
Proof.
  unfold opportunity_scores_baku. apply map_result_total.
  intros p _. destruct (score_baku_value df p) as (d & _ & Hd).
  eexists. exact Hd.
Qed.

Lemma opportunity_scores_regions_total (df : dataframe) (grid : list coord) :
  grid_points_regions df = Some grid ->
  exists scores, opportunity_scores_regions df = Some (Ok scores)
                 /\ length scores = length grid.
Proof.
  intros Hg. unfold opportunity_scores_regions. rewrite Hg. simpl.
  destruct (map_result_total (calculate_opportunity_score_regions df) grid)
    as (scores & Hs & Hlen).
  - intros p _.
    destruct (between baku_lat_min (fst p) baku_lat_max
              && between baku_long_min (snd p) baku_long_max) eqn:E.
    + exists 0. now apply score_regions_inside.
    + destruct (score_regions_outside df p E) as (d & _ & Hd).
      eexists. exact Hd.
  - exists scores. now rewrite Hs.
Qed.


Lemma competitors_only_has_no_target_row :
  rows_of target_bank competitors_only_df = [].
Proof. reflexivity. Qed.



(** ** The regional grid *)

Lemma in_baku_absheron_between (p : coord) :
  between baku_lat_min (fst p) baku_lat_max
  && between baku_long_min (snd p) baku_long_max
  = in_baku_absheron (fst p) (snd p).
Proof.
  unfold in_baku_absheron, between. now rewrite !andb_assoc.
Qed.

Lemma linspace_start (start stop : R) (num : nat) :
  (0 < num)%nat -> In start (linspace start stop num).
Proof.
  intros Hnum. unfold linspace. apply in_map_iff. exists 0%nat. split.
  - simpl. lra.
  - apply in_seq. lia.
Qed.

Lemma grid_points_In (la lo : R) (lats longs : list R) :
  In la lats -> In lo longs -> In (la, lo) (grid_points lats longs).
Proof.
  intros Hla Hlo. unfold grid_points. apply in_flat_map.
  exists la. split; [exact Hla|]. apply in_map_iff. now exists lo.
Qed.

Lemma grid_points_regions_single (df : dataframe) (r : row) :
  df_regions df = [r] ->
  grid_points_regions df
  = Some (grid_points
            (linspace (lat r - 0.1) (lat r + 0.1) grid_resolution_regions)
            (linspace (long r - 0.1) (long r + 0.1) grid_resolution_regions)).
Proof.
  intros H. unfold grid_points_regions. now rewrite H.
Qed.


Lemma box_df_regions : df_regions box_df = [mkRow "Bank A" 40.1 48.1].
Proof.
  unfold df_regions, box_df, in_baku_absheron, baku_lat_min, baku_lat_max,
    baku_long_min, baku_long_max.
  simpl. Rcompare. simpl. Rcompare. reflexivity.
Qed.

Lemma box_df_grid_corner :
  exists grid, grid_points_regions box_df = Some grid
               /\ In (40.1 - 0.1, 48.1 - 0.1) grid.
Proof.
  eexists. split.
  - apply (grid_points_regions_single _ _ box_df_regions).
  - apply grid_points_In; apply linspace_start;
      unfold grid_resolution_regions; lia.
Qed.

Lemma box_df_corner_outside :
  in_baku_absheron (fst (40.1 - 0.1, 48.1 - 0.1))
                   (snd (40.1 - 0.1, 48.1 - 0.1)) = false.
Proof.
  unfold in_baku_absheron, baku_lat_min, baku_lat_max, baku_long_min,
    baku_long_max.
  simpl. Rcompare. reflexivity.
Qed.



(** ** Multi-metric comparison *)

Lemma fold_Rmax_spec (l : list R) :
  forall x : R,
    let m := fold_left Rmax l x in
    (m = x \/ In m l) /\ x <= m /\ (forall y, In y l -> y <= m).
Proof.
  induction l as [|y l IH]; intros x; simpl.
  - repeat split; [now left | lra | tauto].
  - destruct (IH (Rmax x y)) as (Hwhere & Hle & Hall).
    pose proof (Rmax_l x y). pose proof (Rmax_r x y).
    split; [|split].
    + destruct Hwhere as [Heq|Hin]; [|now right; right].
      rewrite Heq. unfold Rmax. destruct (Rle_dec x y); auto.
    + lra.
    + intros z [<-|Hin]; [lra | now apply Hall].
Qed.

Lemma column_range (col : list R) :
  col <> [] ->
  exists lo hi, column_min col = Some lo /\ column_max col = Some hi
                /\ lo <= hi
                /\ (forall x, In x col -> lo <= x <= hi).
Proof.
  destruct col as [|x rest]; [congruence|]. intros _. simpl.
  destruct (fold_Rmin_spec rest x) as (_ & Hlo & Hlos).
  destruct (fold_Rmax_spec rest x) as (_ & Hhi & Hhis).
  simpl in *. do 2 eexists. split; [reflexivity|]. split; [reflexivity|].
  split; [lra|].
  intros y [<-|Hin]; [lra|]. split; [now apply Hlos | now apply Hhis].
Qed.

Lemma unique_In (names : list string) (b : string) :
  In b (unique names) <-> In b names.
Proof.
  induction names as [|k names IH]; simpl; [tauto|].
  rewrite filter_In, IH.
  destruct (String.eqb_spec b k) as [->|Hne]; simpl.
  - intuition.
  - intuition congruence.
Qed.

Lemma lookup_computed {V : Type} (f : string -> V) (keys : list string)
      (k : string) :
  In k keys -> lookup k (map (fun b => (b, f b)) keys) = Ok (f k).
Proof.
  induction keys as [|k' keys IH]; simpl; [tauto|].
  destruct (String.eqb_spec k' k) as [->|Hne]; [reflexivity|].
  intros [Heq|Hin]; [congruence | auto].
Qed.

Lemma lookup_absent {V : Type} (f : string -> V) (keys : list string)
      (k : string) :
  ~ In k keys -> lookup k (map (fun b => (b, f b)) keys) = Raise KeyError.
Proof.
  induction keys as [|k' keys IH]; simpl; [reflexivity|].
  intros Hnin. destruct (String.eqb_spec k' k) as [->|Hne]; [tauto|].
  apply IH. tauto.
Qed.

Lemma rows_of_nonempty_iff (df : dataframe) (b : string) :
  rows_of b df <> [] <-> In b (map bank_name df).
Proof.
  rewrite (count_occ_In string_dec).
  change (count_occ string_dec (map bank_name df) b) with (count df b).
  rewrite <- branch_count_count. unfold branch_count.
  destruct (rows_of b df); simpl; split; intros; try congruence; lia.
Qed.

Lemma intensity_length (df : dataframe) (b : string) (radius : R) :
  length (calculate_competitive_intensity df b radius) = length (rows_of b df).
Proof.
  unfold calculate_competitive_intensity. now rewrite length_map, coords_length.
Qed.

Lemma mean_nonneg (l : list nat) :
  l <> [] -> exists x, mean l = Some x /\ 0 <= x.
Proof.
  destruct l as [|n l]; [congruence|]. intros _.
  eexists. split; [reflexivity|].
  apply Rmult_le_pos; [apply pos_INR|].
  apply Rlt_le, Rinv_0_lt_compat, lt_0_INR. simpl. lia.
Qed.

Lemma percentage_bounds (k n : nat) :
  (k <= n)%nat -> (0 < n)%nat ->
  exists x, percentage k n = Some x /\ 0 <= x <= 100.
Proof.
  intros Hk Hn. destruct n as [|n]; [lia|].
  eexists. split; [reflexivity|].
  assert (Hpos : 0 < INR (S n)) by (apply lt_0_INR; lia).
  assert (Hle : INR k <= INR (S n)) by now apply le_INR.
  pose proof (pos_INR k) as Hk0.
  assert (Hq : 0 <= INR k / INR (S n) <= 1).
  { split.
    - apply Rmult_le_pos; [exact Hk0|]. now apply Rlt_le, Rinv_0_lt_compat.
    - apply (Rmult_le_reg_r (INR (S n))); [exact Hpos|].
      unfold Rdiv. rewrite Rmult_assoc, Rinv_l by lra. lra. }
  lra.
Qed.

Lemma bank_metrics_present (df : dataframe) (b : string) :
  rows_of b df <> [] ->
  exists m, bank_metrics df b = Ok m
            /\ Bank m = b
            /\ Baku_Percentage m
               = percentage (baku_rows (rows_of b df)) (length (rows_of b df))
            /\ Branch_Count m = Some (INR (length (rows_of b df)))
            /\ proper_metrics m.
Proof.
  intros Hrows. unfold bank_metrics, intensity_data.
  rewrite lookup_computed
    by (apply unique_In; now apply rows_of_nonempty_iff).
  simpl. eexists. split; [reflexivity|]. simpl.
  split; [reflexivity|]. split; [reflexivity|]. split; [reflexivity|].
  unfold proper_metrics. simpl. repeat split.
  - eexists. split; [reflexivity | apply pos_INR].
  - destruct (column_range (map lat (rows_of b df)))
      as (lo & hi & -> & -> & Hle & _).
    { destruct (rows_of b df); [congruence | discriminate]. }
    destruct (column_range (map long (rows_of b df)))
      as (lo' & hi' & -> & -> & Hle' & _).
    { destruct (rows_of b df); [congruence | discriminate]. }
    simpl. eexists. split; [reflexivity | lra].
  - destruct (percentage_bounds (baku_rows (rows_of b df))
                                (length (rows_of b df)))
      as (x & Hx & Hb).
    + unfold baku_rows. apply filter_length_le.
    + destruct (rows_of b df); [congruence | simpl; lia].
    + exists x. split; [exact Hx | lra].
  - apply mean_nonneg. intros Hnil.
    apply (f_equal (@length nat)) in Hnil.
    rewrite intensity_length in Hnil.
    destruct (rows_of b df); [congruence | discriminate].
Qed.

Lemma bank_metrics_absent (df : dataframe) (b : string) :
  rows_of b df = [] -> bank_metrics df b = Raise KeyError.
Proof.
  intros Hrows. unfold bank_metrics, intensity_data.
  rewrite lookup_absent; [reflexivity|].
  rewrite unique_In, <- rows_of_nonempty_iff. tauto.
Qed.

Lemma value_counts_keys (df : dataframe) (b : string) :
  In b (map fst (value_counts df)) -> In b (map bank_name df).
Proof.
  unfold value_counts. intros Hin.
  apply in_map_iff in Hin. destruct Hin as ([k n] & <- & Hin).
  apply (Permutation_in _ (sort_desc_perm _)) in Hin.
  apply (Permutation_in _ (tally_entries _)) in Hin.
  apply in_map_iff in Hin. destruct Hin as (b & Heq & Hin).
  inversion Heq; subst. simpl. now apply nodup_In in Hin.
Qed.

Lemma firstn_subset {A : Type} (n : nat) (l : list A) (x : A) :
  In x (firstn n l) -> In x l.
Proof.
  revert l. induction n as [|n IH]; intros [|a l]; simpl; try tauto.
  intros [->|Hin]; [now left | right; auto].
Qed.

Lemma comparison_banks_have_rows (df : dataframe) (b : string) :
  rows_of target_bank df <> [] ->
  In b (comparison_banks df) -> rows_of b df <> [].
Proof.
  intros Htarget Hin.
  assert (Htop : forall k, In k (top_5_banks df) -> rows_of k df <> []).
  { intros k Hk. apply rows_of_nonempty_iff, value_counts_keys.
    unfold top_5_banks in Hk. rewrite <- firstn_map in Hk.
    now apply firstn_subset in Hk. }
  unfold comparison_banks in Hin.
  destruct (negb (existsb (fun k => String.eqb k target_bank) (top_5_banks df))).
  - apply in_app_or in Hin. destruct Hin as [Hin|[<-|[]]]; [|exact Htarget].
    apply Htop. now apply firstn_subset in Hin.
  - now apply Htop.
Qed.

Lemma map_result_Forall2 {A B : Type} (f : A -> result B) (P : A -> B -> Prop)
      (l : list A) :
  (forall a, In a l -> exists b, f a = Ok b /\ P a b) ->
  exists bs, map_result f l = Ok bs /\ Forall2 P l bs.
Proof.
  induction l as [|a l IH]; simpl; intros Hf.
  - exists []. split; [reflexivity | constructor].
  - destruct (Hf a (or_introl eq_refl)) as (b & Hb & HP).
    destruct IH as (bs & Hbs & Hall); [intros; apply Hf; now right|].
    exists (b :: bs). rewrite Hb, Hbs. simpl. split; [reflexivity|].
    now constructor.
Qed.

(** ** Normalisation *)

Lemma present_In (col : list number) (x : R) :
  In (Some x) col -> In x (present col).
Proof.
  intros Hin. unfold present. apply in_flat_map.
  exists (Some x). split; [exact Hin | now left].
Qed.

Lemma normalize_values_length (col : list number) :
  length (normalize_values col) = length col.
Proof.
  unfold normalize_values. destruct (column_max (present col)) as [mx|]; auto.
  destruct (Rltb 0 mx); auto. apply length_map.
Qed.

Lemma scaled_bounds (x mx : R) :
  0 <= x <= mx -> 0 < mx -> 0 <= x / mx * 100 <= 100.
Proof.
  intros Hx Hmx.
  assert (Hq : 0 <= x / mx <= 1).
  { split.
    - apply Rmult_le_pos; [lra|]. now apply Rlt_le, Rinv_0_lt_compat.
    - apply (Rmult_le_reg_r mx); [exact Hmx|].
      unfold Rdiv. rewrite Rmult_assoc, Rinv_l by lra. lra. }
  lra.
Qed.

Lemma normalize_values_spec (col : list number) :
  col <> [] ->
  Forall (fun v => exists x, v = Some x /\ 0 <= x) col ->
  normalized_to_max col (normalize_values col).
Proof.
  intros Hne Hall.
  assert (Hp : present col <> []).
  { destruct col as [|v col]; [congruence|].
    inversion Hall as [|? ? (x & -> & _) _]; subst. discriminate. }
  destruct (column_range (present col) Hp) as (lo & mx & _ & Hmx & _ & Hb).
  exists mx. split; [exact Hmx|].
  unfold normalize_values. rewrite Hmx.
  assert (Hcol : Forall (fun v => exists x, v = Some x /\ 0 <= x <= mx) col).
  { apply Forall_forall. intros v Hin.
    destruct (proj1 (Forall_forall _ _) Hall v Hin) as (x & -> & Hx).
    exists x. split; [reflexivity|]. split; [exact Hx|].
    apply Hb. now apply present_In. }
  clear Hall Hne Hp Hb Hmx.
  destruct (Rltb 0 mx) eqn:E.
  - apply Rltb_true in E.
    induction Hcol as [|v col (x & -> & Hx) _ IH]; simpl; constructor; auto.
    exists x, (x / mx * 100). repeat split; try lra; auto.
    + now apply scaled_bounds.
    + now apply scaled_bounds.
  - apply Rltb_false in E.
    induction Hcol as [|v col (x & -> & Hx) _ IH]; simpl; constructor; auto.
    exists x, x. repeat split; try lra; auto.
Qed.

Lemma assign_column_same (get : metric_row -> number)
      (set : number -> metric_row -> metric_row) :
  (forall v m, get (set v m) = v) ->
  forall values table,
    length values = length table ->
    map get (assign_column set values table) = values.
Proof.
  intros Hgs. unfold assign_column.
  induction values as [|v values IH]; intros [|m table]; simpl;
    try discriminate; [reflexivity|].
  intros Hlen. rewrite Hgs, IH; [reflexivity | lia].
Qed.

Lemma assign_column_other {C : Type} (get : metric_row -> C)
      (set : number -> metric_row -> metric_row) :
  (forall v m, get (set v m) = get m) ->
  forall values table,
    length values = length table ->
    map get (assign_column set values table) = map get table.
Proof.
  intros Hgs. unfold assign_column.
  induction values as [|v values IH]; intros [|m table]; simpl;
    try discriminate; [reflexivity|].
  intros Hlen. rewrite Hgs, IH; [reflexivity | lia].
Qed.

Lemma normalize_column_same (get : metric_row -> number)
      (set : number -> metric_row -> metric_row) (table : list metric_row) :
  (forall v m, get (set v m) = v) ->
  map get (normalize_column get set table) = normalize_values (map get table).
Proof.
  intros Hgs. unfold normalize_column.
  apply (assign_column_same get set Hgs).
  now rewrite normalize_values_length, length_map.
Qed.

Lemma normalize_column_other {C : Type} (get : metric_row -> number)
      (get' : metric_row -> C)
      (set : number -> metric_row -> metric_row) (table : list metric_row) :
  (forall v m, get' (set v m) = get' m) ->
  map get' (normalize_column get set table) = map get' table.
Proof.
  intros Hgs. unfold normalize_column.
  apply (assign_column_other get' set Hgs).
  now rewrite normalize_values_length, length_map.
Qed.

Lemma metrics_normalized_columns (table : list metric_row) :
  map Bank (metrics_normalized table) = map Bank table
  /\ map Branch_Count (metrics_normalized table)
     = normalize_values (map Branch_Count table)
  /\ map Geographic_Spread (metrics_normalized table)
     = normalize_values (map Geographic_Spread table)
  /\ map Baku_Percentage (metrics_normalized table)
     = normalize_values (map Baku_Percentage table)
  /\ map Avg_Competitive_Intensity (metrics_normalized table)
     = normalize_values (map Avg_Competitive_Intensity table).
Proof.
  unfold metrics_normalized.
  repeat split;
    repeat first
      [ rewrite normalize_column_same by reflexivity
      | rewrite normalize_column_other by reflexivity ];
    reflexivity.
Qed.

Lemma comparison_banks_nonempty (df : dataframe) : comparison_banks df <> [].
Proof.
  unfold comparison_banks.
  destruct (existsb (fun b => String.eqb b target_bank) (top_5_banks df)) eqn:E;
    cbn [negb].
  - revert E. destruct (top_5_banks df); simpl; discriminate.
  - intros H. apply app_eq_nil in H. destruct H; discriminate.
Qed.

Lemma metrics_df_table (df : dataframe) :
  rows_of target_bank df <> [] ->
  exists table,
    metrics_df df = Ok table
    /\ Forall2 (fun b m =>
                  Bank m = b
                  /\ Baku_Percentage m
                     = percentage (baku_rows (rows_of b df))
                                  (length (rows_of b df))
                  /\ Branch_Count m = Some (INR (length (rows_of b df)))
                  /\ proper_metrics m)
               (comparison_banks df) table.
Proof.
  intros Htarget. unfold metrics_df. apply map_result_Forall2.
  intros b Hin.
  destruct (bank_metrics_present df b
              (comparison_banks_have_rows df b Htarget Hin))
    as (m & Hm & H1 & H2 & H3 & H4).
  exists m. auto.
Qed.

Lemma Forall2_map_column {A : Type} (P : A -> metric_row -> Prop)
      (get : metric_row -> number) (l : list A) (table : list metric_row) :
  l <> [] ->
  Forall2 P l table ->
  (forall a m, P a m -> exists x, get m = Some x /\ 0 <= x) ->
  map get table <> []
  /\ Forall (fun v => exists x, v = Some x /\ 0 <= x) (map get table).
Proof.
  intros Hne Hall HP. split.
  - destruct Hall; [congruence | discriminate].
  - clear Hne. induction Hall; simpl; constructor; eauto.
Qed.

(** C2 (as the code has it).  When the target bank has rows, the comparison
    table has one row per bank of the shortlist, in order; its
    [Baku_Percentage] is the percentage of the rows of the bank that lie
    in the Baku region; and after normalisation each of the four metric
    columns holds, for each bank, the value divided by the maximum of that
    column over the shortlist, times 100 (the value itself when that maximum
    is not positive), a number between 0 and 100. *)
Theorem comparison_metrics_normalized (df : dataframe) :
  rows_of target_bank df <> [] ->
  exists table,
    metrics_df df = Ok table
    /\ Forall2 (fun b m =>
                  Bank m = b
                  /\ Baku_Percentage m
                     = percentage
                         (length (filter (fun r => String.eqb (region r) "Baku")
                                         (rows_of b df)))
                         (length (rows_of b df)))
               (comparison_banks df) table
    /\ map Bank (metrics_normalized table) = comparison_banks df
    /\ normalized_to_max (map Branch_Count table)
                         (map Branch_Count (metrics_normalized table))
    /\ normalized_to_max (map Geographic_Spread table)
                         (map Geographic_Spread (metrics_normalized table))
    /\ normalized_to_max (map Baku_Percentage table)
                         (map Baku_Percentage (metrics_normalized table))
    /\ normalized_to_max (map Avg_Competitive_Intensity table)
                         (map Avg_Competitive_Intensity
                              (metrics_normalized table)).
Proof.
  intros Htarget.
  destruct (metrics_df_table df Htarget) as (table & Htable & Hrows).
  exists table. split; [exact Htable|].
  destruct (metrics_normalized_columns table) as (Hb & H1 & H2 & H3 & H4).
  split.
  { eapply Forall2_impl; [|exact Hrows]. intros b m (Hm1 & Hm2 & _). auto. }
  split.
  { rewrite Hb. clear - Hrows.
    induction Hrows as [|b m l t (Hm & _) _ IH]; simpl; congruence. }
  pose proof (comparison_banks_nonempty df) as Hne.
  rewrite H1, H2, H3, H4.
  repeat split;
    apply normalize_values_spec;
    try (apply (Forall2_map_column _ _ _ _ Hne Hrows);
         intros a m (_ & _ & _ & Hp); apply Hp).
Qed.

Lemma scenario_comparison_metrics :
  rows_of target_bank scenario_df <> []
  /\ exists table,
      metrics_df scenario_df = Ok table
      /\ map Bank (metrics_normalized table) = comparison_banks scenario_df
      /\ normalized_to_max (map Baku_Percentage table)
                           (map Baku_Percentage (metrics_normalized table)).
Proof.
  assert (H : rows_of target_bank scenario_df <> []) by (simpl; discriminate).
  split; [exact H|].
  destruct (comparison_metrics_normalized scenario_df H)
    as (table & Ht & _ & Hb & _ & _ & Hp & _).
  exists table. auto.
Defined.

Lemma baku_only_region :
  region (mkRow target_bank 40.4 49.8) = "Baku".
Proof. unfold region, between. simpl. Rcompare. reflexivity. Qed.

(** C2 as stated fails on a table with a single target branch in central
    Baku: the regional-coverage metric of the target bank is 100, the
    percentage of its rows inside the Baku region, while the percentage of
    its rows outside it is 0. *)
Lemma regional_coverage_is_baku_share :
  In target_bank (comparison_banks baku_only_df)
  /\ exists m,
      metrics_df baku_only_df = Ok [m]
      /\ Bank m = target_bank
      /\ Baku_Percentage m = Some (1 / 1 * 100)
      /\ non_baku_percentage baku_only_df target_bank = Some (0 / 1 * 100)
      /\ Baku_Percentage m <> non_baku_percentage baku_only_df target_bank.
Proof.
  split; [now left|].
  assert (Hrows : rows_of target_bank baku_only_df <> [])
    by (simpl; discriminate).
  destruct (bank_metrics_present baku_only_df target_bank Hrows)
    as (m & Hm & Hbank & Hpct & _).
  exists m.
  assert (Hb : Baku_Percentage m = Some (1 / 1 * 100)).
  { rewrite Hpct. unfold baku_rows, baku_only_df. simpl.
    rewrite baku_only_region. reflexivity. }
  assert (Hn : non_baku_percentage baku_only_df target_bank
               = Some (0 / 1 * 100)).
  { unfold non_baku_percentage, baku_only_df. simpl.
    rewrite baku_only_region. reflexivity. }
  split.
  { unfold metrics_df.
    change (comparison_banks baku_only_df) with [target_bank].
    cbn [map_result]. now rewrite Hm. }
  split; [exact Hbank|]. split; [exact Hb|]. split; [exact Hn|].
  rewrite Hb, Hn. intros Heq. inversion Heq. lra.
Qed.

(** ** The order of field names *)

Lemma ascii_compare_refl (a : ascii) : Ascii.compare a a = Eq.
Proof. unfold Ascii.compare. apply N.compare_refl. Qed.

Lemma ascii_compare_lt_trans (a b c : ascii) :
  Ascii.compare a b = Lt -> Ascii.compare b c = Lt -> Ascii.compare a c = Lt.
Proof.
  unfold Ascii.compare. rewrite !N.compare_lt_iff. apply N.lt_trans.
Qed.

Lemma string_compare_refl (s : string) : String.compare s s = Eq.
Proof.
  induction s as [|a s IH]; simpl; [reflexivity|].
  now rewrite ascii_compare_refl.
Qed.

Lemma string_compare_lt_trans (s1 : string) :
  forall s2 s3,
    String.compare s1 s2 = Lt -> String.compare s2 s3 = Lt ->
    String.compare s1 s3 = Lt.
Proof.
  induction s1 as [|a s1 IH]; intros [|b s2] [|c s3]; simpl;
    try discriminate; try reflexivity.
  destruct (Ascii.compare a b) eqn:Eab; try discriminate;
    destruct (Ascii.compare b c) eqn:Ebc; try discriminate; intros H1 H2.
  - apply Ascii.compare_eq_iff in Eab, Ebc. subst.
    rewrite ascii_compare_refl. now apply (IH s2).
  - apply Ascii.compare_eq_iff in Eab. subst. now rewrite Ebc.
  - apply Ascii.compare_eq_iff in Ebc. subst. now rewrite Eab.
  - now rewrite (ascii_compare_lt_trans a b c).
Qed.

Lemma string_leb_trans (s1 s2 s3 : string) :
  String.leb s1 s2 = true -> String.leb s2 s3 = true ->
  String.leb s1 s3 = true.
Proof.
  unfold String.leb.
  destruct (String.compare s1 s2) eqn:E12; try discriminate;
    destruct (String.compare s2 s3) eqn:E23; try discriminate; intros _ _.
  - apply String.compare_eq_iff in E12, E23. subst.
    now rewrite string_compare_refl.
  - apply String.compare_eq_iff in E12. subst. now rewrite E23.
  - apply String.compare_eq_iff in E23. subst. now rewrite E12.
  - now rewrite (string_compare_lt_trans s1 s2 s3).
Qed.

Lemma insert_name_perm (k : string) (l : list string) :
  Permutation (insert_name k l) (k :: l).
Proof.
  induction l as [|h l IH]; simpl; [reflexivity|].
  destruct (String.leb k h); [reflexivity|].
  rewrite IH. apply perm_swap.
Qed.

Lemma sorted_perm (s : list string) : Permutation (sorted s) s.
Proof.
  induction s as [|k s IH]; simpl; [reflexivity|].
  rewrite insert_name_perm. now constructor.
Qed.

Lemma insert_name_sorted (k : string) (l : list string) :
  StronglySorted alphabetical l -> StronglySorted alphabetical (insert_name k l).
Proof.
  induction 1 as [|h l Hs IH Hall]; simpl.
  - repeat constructor.
  - destruct (String.leb k h) eqn:E.
    + constructor; [now constructor|].
      constructor; [exact E|].
      eapply Forall_impl; [|exact Hall].
      intros x Hx. now apply (string_leb_trans k h x).
    + constructor; [exact IH|].
      apply (Permutation_Forall (Permutation_sym (insert_name_perm k l))).
      constructor; [|exact Hall].
      destruct (String.leb_total k h) as [Hkh|Hhk]; [congruence | exact Hhk].
Qed.

Lemma sorted_is_sorted (s : list string) : StronglySorted alphabetical (sorted s).
Proof.
  induction s as [|k s IH]; simpl; [constructor|].
  now apply insert_name_sorted.
Qed.

(** ** Field names and rows of the CSV file *)

Lemma existsb_eqb_In (k : string) (s : list string) :
  existsb (String.eqb k) s = true <-> In k s.
Proof.
  rewrite existsb_exists. split.
  - intros (x & Hin & Heq). apply String.eqb_eq in Heq. now subst.
  - intros Hin. exists k. split; [exact Hin | apply String.eqb_refl].
Qed.

Lemma set_add_spec (k : string) (s : list string) :
  NoDup s ->
  NoDup (set_add k s) /\ (forall x, In x (set_add k s) <-> x = k \/ In x s).
Proof.
  intros Hnd. unfold set_add.
  destruct (existsb (String.eqb k) s) eqn:E.
  - apply existsb_eqb_In in E. split; [exact Hnd|].
    intros x. split; [auto | intros [->|H]; auto].
  - assert (Hnin : ~ In k s).
    { intros Hin. apply existsb_eqb_In in Hin. congruence. }
    split.
    + apply NoDup_app; [exact Hnd | repeat constructor; simpl; tauto |].
      intros x Hx [<-|[]]. contradiction.
    + intros x. rewrite in_app_iff. simpl. intuition.
Qed.

Lemma set_update_spec (ks : list string) :
  forall s, NoDup s ->
    NoDup (set_update s ks)
    /\ (forall x, In x (set_update s ks) <-> In x s \/ In x ks).
Proof.
  unfold set_update.
  induction ks as [|k ks IH]; intros s Hnd; simpl.
  - split; [exact Hnd | intuition].
  - destruct (set_add_spec k s Hnd) as [Hnd' Hin'].
    destruct (IH (set_add k s) Hnd') as [Hnd'' Hin''].
    split; [exact Hnd''|].
    intros x. rewrite Hin'', Hin'. intuition.
Qed.

Lemma fieldnames_set_spec (branches : list dict) :
  forall s, NoDup s ->
    let names :=
      fold_left (fun acc branch => set_update acc (keys branch)) branches s in
    NoDup names
    /\ (forall x, In x names
                  <-> In x s \/ exists b, In b branches /\ In x (keys b)).
Proof.
  induction branches as [|b branches IH]; intros s Hnd; simpl.
  - split; [exact Hnd|]. intros x. split; [auto|].
    intros [H|(b & [] & _)]. exact H.
  - destruct (set_update_spec (keys b) s Hnd) as [Hnd' Hin'].
    destruct (IH (set_update s (keys b)) Hnd') as [Hnd'' Hin''].
    split; [exact Hnd''|].
    intros x. rewrite Hin'', Hin'. split.
    + intros [[H|H]|(b' & Hb' & Hx)]; auto.
      * right. exists b. auto.
      * right. exists b'. auto.
    + intros [H|(b' & [<-|Hb'] & Hx)]; auto.
      right. exists b'. auto.
Qed.

Lemma collect_fieldnames_spec (branches : list dict) :
  StronglySorted alphabetical (collect_fieldnames branches)
  /\ NoDup (collect_fieldnames branches)
  /\ (forall k, In k (collect_fieldnames branches)
                <-> exists b, In b branches /\ In k (keys b)).
Proof.
  unfold collect_fieldnames.
  destruct (fieldnames_set_spec branches [] (NoDup_nil _)) as [Hnd Hin].
  simpl in *. split; [apply sorted_is_sorted|]. split.
  - apply (Permutation_NoDup (Permutation_sym (sorted_perm _))). exact Hnd.
  - intros k. split.
    + intros H. apply (Permutation_in _ (sorted_perm _)) in H.
      apply Hin in H. destruct H as [[]|H]. exact H.
    + intros H.
      apply (Permutation_in _ (Permutation_sym (sorted_perm _))).
      apply Hin. now right.
Qed.

Lemma dict_to_list_ok (fieldnames : list string) (rowdict : dict) :
  (forall k, In k (keys rowdict) -> In k fieldnames) ->
  dict_to_list fieldnames rowdict
  = Ok (map (fun k => get_default rowdict k (JStr EmptyString)) fieldnames).
Proof.
  intros Hsub. unfold dict_to_list.
  replace (forallb _ (keys rowdict)) with true; [reflexivity|].
  symmetry. apply forallb_forall. intros k Hk.
  apply existsb_eqb_In. now apply Hsub.
Qed.

Lemma writerows_ok (fieldnames : list string) (rows : list dict) :
  (forall r k, In r rows -> In k (keys r) -> In k fieldnames) ->
  writerows fieldnames rows
  = Ok (map (fun r => map (fun k => get_default r k (JStr EmptyString))
                          fieldnames)
            rows).
Proof.
  unfold writerows. induction rows as [|r rows IH]; intros Hsub; simpl.
  - reflexivity.
  - rewrite dict_to_list_ok by (intros k Hk; apply (Hsub r k); simpl; auto).
    simpl. rewrite IH by (intros r' k Hr' Hk; apply (Hsub r' k); simpl; auto).
    reflexivity.
Qed.

Lemma write_records (records : list dict) :
  exists rows,
    writerows (collect_fieldnames records) records = Ok rows
    /\ csv_of_records records (mkCsv (collect_fieldnames records) rows)
    /\ length rows = length records.
Proof.
  destruct (collect_fieldnames_spec records) as (Hs & Hnd & Hin).
  eexists. split.
  - apply writerows_ok. intros r k Hr Hk. apply Hin. now exists r.
  - split; [|now rewrite length_map].
    unfold csv_of_records. simpl. auto.
Qed.

Lemma abb_save_nonempty (branches : list dict) (output_file : string) :
  branches <> [] ->
  exists table,
    abb_save_to_csv branches output_file
    = Ok (Some (output_file, table), Saved (length branches) output_file)
    /\ csv_of_records branches table
    /\ length (data_rows table) = length branches.
Proof.
  intros Hne. destruct (write_records branches) as (rows & Hrows & Hcsv & Hlen).
  exists (mkCsv (collect_fieldnames branches) rows).
  split; [|split; [exact Hcsv | exact Hlen]].
  unfold abb_save_to_csv. destruct branches; [congruence|].
  now rewrite Hrows.
Qed.

Section FlattenFacts.

Variable container_text : json -> string.

Lemma kb_save_flattened (branches flattened : list dict) (output_file : string) :
  branches <> [] ->
  map_result (flatten_branch_data container_text) branches = Ok flattened ->
  exists table,
    kb_save_to_csv container_text branches output_file
    = Ok (Some (output_file, table), Saved (length branches) output_file)
    /\ csv_of_records flattened table
    /\ length (data_rows table) = length branches.
Proof.
  intros Hne Hflat.
  destruct (write_records flattened) as (rows & Hrows & Hcsv & Hlen).
  exists (mkCsv (collect_fieldnames flattened) rows).
  split; [|split; [exact Hcsv|]].
  - unfold kb_save_to_csv. destruct branches; [congruence|].
    rewrite Hflat. simpl. now rewrite Hrows.
  - simpl. rewrite Hlen. clear - Hflat.
    revert flattened Hflat.
    induction branches as [|b branches IH]; simpl; intros flattened Hflat.
    + now inversion Hflat.
    + destruct (flatten_branch_data container_text b); [|discriminate].
      simpl in Hflat.
      destruct (map_result (flatten_branch_data container_text) branches)
        as [fs|]; [|discriminate].
      simpl in Hflat. inversion Hflat; subst. simpl. now rewrite (IH fs).
Qed.

Lemma kb_save_raises (branches : list dict) (output_file : string)
      (e : exception) :
  map_result (flatten_branch_data container_text) branches = Raise e ->
  kb_save_to_csv container_text branches output_file = Raise e.
Proof.
  intros Hflat. unfold kb_save_to_csv.
  destruct branches; [discriminate|]. now rewrite Hflat.
Qed.

End FlattenFacts.

Section FlattenTheorem.

Variable container_text : json -> string.

Lemma add_day_well_formed (flattened : dict) (day : json) :
  well_formed_day day = true ->
  exists f, add_day container_text flattened day = Ok f.
Proof.
  unfold well_formed_day, add_day. destruct day; try discriminate.
  destruct (get_default items "day_of_week_name" (JStr EmptyString));
    try discriminate.
  intros _. simpl. eexists. reflexivity.
Qed.

Lemma add_day_ill_formed (flattened : dict) (day : json) :
  well_formed_day day = false ->
  add_day container_text flattened day = Raise AttributeError.
Proof.
  unfold well_formed_day, add_day. destruct day; try reflexivity.
  destruct (get_default items "day_of_week_name" (JStr EmptyString));
    try reflexivity.
  discriminate.
Qed.

Lemma add_days_well_formed (days : list json) :
  forall flattened,
    forallb well_formed_day days = true ->
    exists f, add_days container_text flattened days = Ok f.
Proof.
  induction days as [|day days IH]; intros flattened; simpl.
  - intros _. now exists flattened.
  - intros H. apply andb_prop in H. destruct H as [Hday Hdays].
    destruct (add_day_well_formed flattened day Hday) as (f & Hf).
    rewrite Hf. simpl. now apply IH.
Qed.

Lemma add_days_ill_formed (days : list json) :
  forall flattened,
    forallb well_formed_day days = false ->
    add_days container_text flattened days = Raise AttributeError.
Proof.
  induction days as [|day days IH]; intros flattened; simpl.
  - discriminate.
  - destruct (well_formed_day day) eqn:Hday; simpl.
    + intros Hdays.
      destruct (add_day_well_formed flattened day Hday) as (f & Hf).
      rewrite Hf. simpl. now apply IH.
    + intros _. now rewrite add_day_ill_formed.
Qed.

Lemma flatten_well_formed (branch : dict) :
  well_formed_branch branch = true ->
  exists f, flatten_branch_data container_text branch = Ok f.
Proof.
  unfold well_formed_branch, flatten_branch_data.
  destruct (get_default branch "working_days" (JList [])) as [| | |s|items|items];
    try discriminate; cbn [iterate bind].
  - destruct s; [|discriminate]. intros _. simpl. eexists. reflexivity.
  - apply add_days_well_formed.
  - destruct items; [|discriminate]. intros _. simpl. eexists. reflexivity.
Qed.

Lemma flatten_ill_formed (branch : dict) :
  well_formed_branch branch = false ->
  fails (flatten_branch_data container_text branch).
Proof.
  unfold well_formed_branch, flatten_branch_data, fails.
  destruct (get_default branch "working_days" (JList [])) as [| | |s|items|items];
    cbn [iterate bind]; intros H; try (eexists; reflexivity).
  - destruct s as [|c s]; [discriminate|].
    exists AttributeError. reflexivity.
  - exists AttributeError. now apply add_days_ill_formed.
  - destruct items as [|[k v] items]; [discriminate|].
    exists AttributeError. reflexivity.
Qed.

Lemma flatten_all_well_formed (branches : list dict) :
  forallb well_formed_branch branches = true ->
  exists flattened,
    map_result (flatten_branch_data container_text) branches = Ok flattened.
Proof.
  intros H.
  destruct (map_result_total (flatten_branch_data container_text) branches)
    as (fs & Hfs & _).
  - intros b Hb. apply flatten_well_formed.
    now apply (proj1 (forallb_forall _ _) H).
  - now exists fs.
Qed.

Lemma flatten_some_ill_formed (branches : list dict) :
  forallb well_formed_branch branches = false ->
  fails (map_result (flatten_branch_data container_text) branches).
Proof.
  induction branches as [|b branches IH]; simpl; [discriminate|].
  destruct (well_formed_branch b) eqn:Hb; simpl.
  - intros H. destruct (flatten_well_formed b Hb) as (f & ->). simpl.
    destruct (IH H) as (e & ->). now exists e.
  - intros _. destruct (flatten_ill_formed b Hb) as (e & ->). now exists e.
Qed.

(** C9 (as the code has it).  On an empty list either [save_to_csv]
    writes no file and reports that there is no data.  On a non-empty list
    the first scraper writes one table: a sorted header holding each key
    of each record once, then one row per record in input order, the empty
    text standing for a field the record lacks.  The second scraper does
    the same with the flattened records when every record is well formed
    (what its loop over [working_days] runs over are dictionaries whose
    [day_of_week_name] is absent or a text); otherwise it raises and writes
    nothing. *)
Theorem save_to_csv_writes_sorted_union
        (branches : list dict) (output_file : string) :
  abb_save_to_csv [] output_file = Ok (None, NoData)
  /\ kb_save_to_csv container_text [] output_file = Ok (None, NoData)
  /\ (branches <> [] ->
      exists table,
        abb_save_to_csv branches output_file
        = Ok (Some (output_file, table), Saved (length branches) output_file)
        /\ csv_of_records branches table
        /\ length (data_rows table) = length branches)
  /\ (branches <> [] -> forallb well_formed_branch branches = true ->
      exists flattened table,
        map_result (flatten_branch_data container_text) branches = Ok flattened
        /\ kb_save_to_csv container_text branches output_file
           = Ok (Some (output_file, table), Saved (length branches) output_file)
        /\ csv_of_records flattened table
        /\ length (data_rows table) = length branches)
  /\ (forallb well_formed_branch branches = false ->
      fails (kb_save_to_csv container_text branches output_file)).
Proof.
  split; [reflexivity|]. split; [reflexivity|].
  split; [apply abb_save_nonempty|]. split.
  - intros Hne Hwf.
    destruct (flatten_all_well_formed branches Hwf) as (flattened & Hflat).
    destruct (kb_save_flattened container_text branches flattened output_file
                                Hne Hflat) as (table & H1 & H2 & H3).
    exists flattened, table. auto.
  - intros Hwf. destruct (flatten_some_ill_formed branches Hwf) as (e & He).
    exists e. now apply kb_save_raises.
Qed.

End FlattenTheorem.

Lemma save_to_csv_examples :
  abb_example <> [] /\ kb_example <> []
  /\ forallb well_formed_branch kb_example = true
  /\ (exists table,
        abb_save_to_csv abb_example "data/abb_branches.csv"
        = Ok (Some ("data/abb_branches.csv", table),
              Saved 2 "data/abb_branches.csv")
        /\ header table = ["id"; "lat"; "name"])
  /\ (exists table,
        kb_save_to_csv (fun _ => EmptyString) kb_example "data/kb_branches.csv"
        = Ok (Some ("data/kb_branches.csv", table),
              Saved 2 "data/kb_branches.csv")
        /\ length (data_rows table) = 2%nat).
Proof.
  assert (Ha : abb_example <> []) by discriminate.
  assert (Hk : kb_example <> []) by discriminate.
  assert (Hwf : forallb well_formed_branch kb_example = true) by reflexivity.
  split; [exact Ha|]. split; [exact Hk|]. split; [exact Hwf|].
  pose proof (save_to_csv_writes_sorted_union
                (fun _ => EmptyString) abb_example "data/abb_branches.csv")
    as (_ & _ & Habb & _).
  pose proof (save_to_csv_writes_sorted_union
                (fun _ => EmptyString) kb_example "data/kb_branches.csv")
    as (_ & _ & _ & Hkb & _).
  split.
  - destruct (Habb Ha) as (table & Hsave & _ & _).
    exists table. split; [exact Hsave|].
    vm_compute in Hsave. inversion Hsave. reflexivity.
  - destruct (Hkb Hk Hwf) as (flattened & table & _ & Hsave & _ & Hlen).
    exists table. split; [exact Hsave | exact Hlen].
Defined.

(** C9 as stated fails for the second scraper on a non-empty list whose
    record has a null [working_days]: the flattening raises [TypeError],
    so no file is written. *)
Lemma kb_save_to_csv_raises_on_null_working_days :
  [null_working_days] <> []
  /\ kb_save_to_csv (fun _ => EmptyString) [null_working_days]
                    "data/kb_branches.csv"
     = Raise TypeError.
Proof. split; [discriminate | reflexivity]. Qed.

(* ================================================================== *)
(** * Part III: further properties of the pipeline *)
(* ================================================================== *)

(** ** The table of counts *)

Lemma insert_desc_sorted (e : string * nat) (vc : list (string * nat)) :
  StronglySorted by_decreasing_count vc ->
  StronglySorted by_decreasing_count (insert_desc e vc).
Proof.
  induction 1 as [|h l Hs IH Hall]; simpl.
  - repeat constructor.
  - destruct (Nat.ltb_spec (snd h) (snd e)) as [Hlt|Hge].
    + constructor; [now constructor|].
      constructor; [unfold by_decreasing_count; lia|].
      eapply Forall_impl; [|exact Hall].
      unfold by_decreasing_count. intros; lia.
    + constructor; [exact IH|].
      apply (Permutation_Forall (Permutation_sym (insert_desc_perm e l))).
      constructor; [exact Hge | exact Hall].
Qed.

Lemma sort_desc_sorted (vc : list (string * nat)) :
  StronglySorted by_decreasing_count (sort_desc vc).
Proof.
  induction vc as [|h vc IH]; simpl; [constructor|].
  now apply insert_desc_sorted.
Qed.

Lemma value_counts_perm (df : dataframe) :
  Permutation (value_counts df)
              (map (fun b => (b, count df b)) (banks df)).
Proof.
  unfold value_counts. rewrite sort_desc_perm. apply tally_entries.
Qed.

Lemma value_counts_sorted (df : dataframe) :
  StronglySorted by_decreasing_count (value_counts df).
Proof. apply sort_desc_sorted. Qed.

Lemma value_counts_In (df : dataframe) (b : string) (n : nat) :
  In (b, n) (value_counts df) <-> In b (map bank_name df) /\ n = count df b.
Proof.
  split.
  - intros Hin. apply (Permutation_in _ (value_counts_perm df)) in Hin.
    apply in_map_iff in Hin. destruct Hin as (b' & Heq & Hin).
    inversion Heq; subst. split; [|reflexivity].
    unfold banks in Hin. now apply nodup_In in Hin.
  - intros [Hin ->].
    apply (Permutation_in _ (Permutation_sym (value_counts_perm df))).
    apply in_map_iff. exists b. split; [reflexivity|].
    unfold banks. now apply nodup_In.
Qed.

Lemma value_counts_NoDup (df : dataframe) : NoDup (map fst (value_counts df)).
Proof.
  apply (Permutation_NoDup
           (Permutation_sym (Permutation_map fst (value_counts_perm df)))).
  rewrite map_map. simpl. rewrite map_id. apply NoDup_nodup.
Qed.

Lemma count_positive (df : dataframe) (b : string) :
  In b (map bank_name df) <-> (0 < count df b)%nat.
Proof. unfold count. apply (count_occ_In string_dec). Qed.

Lemma value_counts_length (df : dataframe) :
  length (value_counts df) = length (banks df).
Proof.
  rewrite (Permutation_length (value_counts_perm df)). apply length_map.
Qed.

Lemma lookup_In {V : Type} (d : list (string * V)) (k : string) (v : V) :
  NoDup (map fst d) -> (lookup k d = Ok v <-> In (k, v) d).
Proof.
  induction d as [|[k' v'] d IH]; simpl; intros Hnd.
  - split; [discriminate | tauto].
  - inversion Hnd as [|? ? Hnin Hnd']; subst.
    destruct (String.eqb_spec k' k) as [->|Hne].
    + split.
      * intros H. inversion H. now left.
      * intros [H|H]; [now inversion H|].
        exfalso. apply Hnin. apply (in_map fst) in H. exact H.
    + rewrite (IH Hnd'). split; [auto|].
      intros [H|H]; [inversion H; congruence | exact H].
Qed.

Lemma lookup_missing {V : Type} (d : list (string * V)) (k : string) :
  ~ In k (map fst d) -> lookup k d = Raise KeyError.
Proof.
  induction d as [|[k' v'] d IH]; simpl; intros Hnin; [reflexivity|].
  destruct (String.eqb_spec k' k) as [->|Hne]; [tauto|].
  apply IH. tauto.
Qed.

Lemma count_sum_bump (b : string) (vc : list (string * nat)) :
  list_sum (map snd (bump b vc)) = S (list_sum (map snd vc)).
Proof.
  induction vc as [|[k n] vc IH]; simpl; [reflexivity|].
  destruct (String.eqb k b); simpl; [reflexivity|]. rewrite IH. lia.
Qed.

Lemma count_sum_fold (names : list string) :
  forall acc,
    list_sum (map snd (fold_left (fun a b => bump b a) names acc))
    = (list_sum (map snd acc) + length names)%nat.
Proof.
  induction names as [|b names IH]; intros acc; simpl; [lia|].
  rewrite IH, count_sum_bump. lia.
Qed.

Lemma list_sum_perm (l l' : list nat) :
  Permutation l l' -> list_sum l = list_sum l'.
Proof. induction 1; simpl; lia. Qed.

Lemma value_counts_total (df : dataframe) :
  list_sum (map snd (value_counts df)) = length df.
Proof.
  unfold value_counts.
  rewrite (list_sum_perm _ _ (Permutation_map snd (sort_desc_perm _))).
  unfold tally. rewrite count_sum_fold. simpl. apply length_map.
Qed.

(** ** Market share *)

Lemma insert_pct_perm (e : string * R) (l : list (string * R)) :
  Permutation (insert_pct e l) (e :: l).
Proof.
  induction l as [|h l IH]; simpl; [reflexivity|].
  destruct (Rltb (snd h) (snd e)); [reflexivity|].
  rewrite IH. apply perm_swap.
Qed.

Lemma sort_pct_perm (l : list (string * R)) : Permutation (sort_pct l) l.
Proof.
  induction l as [|h l IH]; simpl; [reflexivity|].
  rewrite insert_pct_perm. now constructor.
Qed.

Lemma Rsum_perm (l l' : list R) : Permutation l l' -> Rsum l = Rsum l'.
Proof. unfold Rsum. induction 1; simpl; lra. Qed.

Lemma Rsum_shares (vc : list (string * nat)) (total : R) :
  Rsum (map snd (map (fun e : string * nat =>
                        (fst e, INR (snd e) / total * 100)) vc))
  = INR (list_sum (map snd vc)) / total * 100.
Proof.
  unfold Rsum. induction vc as [|[b n] vc IH]; simpl.
  - lra.
  - rewrite IH, plus_INR. lra.
Qed.

Lemma market_pct_perm (df : dataframe) :
  Permutation (market_pct df)
              (map (fun e : string * nat =>
                      (fst e, INR (snd e) / INR (length df) * 100))
                   (value_counts df)).
Proof. unfold market_pct, market_share, total_count. apply sort_pct_perm. Qed.

Lemma market_pct_sum (df : dataframe) :
  df <> [] -> Rsum (map snd (market_pct df)) = 100.
Proof.
  intros Hne.
  rewrite (Rsum_perm _ _ (Permutation_map snd (market_pct_perm df))).
  rewrite Rsum_shares, value_counts_total.
  assert (Hpos : 0 < INR (length df)).
  { apply lt_0_INR. destruct df; [congruence | simpl; lia]. }
  field. lra.
Qed.

Lemma count_le_total (df : dataframe) (b : string) :
  (count df b <= length df)%nat.
Proof.
  unfold count. rewrite <- (length_map bank_name df). apply count_occ_bound.
Qed.

Lemma share_bounds (k n : nat) :
  (0 < k)%nat -> (k <= n)%nat -> 0 < INR k / INR n * 100 <= 100.
Proof.
  intros Hk Hkn.
  assert (Hn : 0 < INR n) by (apply lt_0_INR; lia).
  assert (Hk0 : 0 < INR k) by (apply lt_0_INR; lia).
  assert (Hle : INR k <= INR n) by now apply le_INR.
  assert (Hq : 0 < INR k / INR n <= 1).
  { split.
    - apply Rmult_lt_0_compat; [exact Hk0|]. now apply Rinv_0_lt_compat.
    - apply (Rmult_le_reg_r (INR n)); [exact Hn|].
      unfold Rdiv. rewrite Rmult_assoc, Rinv_l by lra. lra. }
  lra.
Qed.

Lemma market_pct_In (df : dataframe) (b : string) (x : R) :
  In (b, x) (market_pct df)
  <-> In b (map bank_name df) /\ x = INR (count df b) / INR (length df) * 100.
Proof.
  split.
  - intros Hin. apply (Permutation_in _ (market_pct_perm df)) in Hin.
    apply in_map_iff in Hin. destruct Hin as ([b' n] & Heq & Hin).
    simpl in Heq. inversion Heq; subst.
    apply value_counts_In in Hin. destruct Hin as [Hin ->]. auto.
  - intros [Hin ->].
    apply (Permutation_in _ (Permutation_sym (market_pct_perm df))).
    apply in_map_iff. exists (b, count df b). split; [reflexivity|].
    now apply value_counts_In.
Qed.



Lemma stack_segments_spec (pct : list (string * R)) :
  forall left,
    let segs := fst (stack_segments left pct) in
    let final := snd (stack_segments left pct) in
    final = left + Rsum (map snd pct)
    /\ tiles left segs final
    /\ map (fun s => (seg_bank s, seg_width s)) segs = pct
    /\ Forall (fun s => seg_colour s = Red <-> seg_bank s = target_bank) segs.
Proof.
  induction pct as [|[bank width] pct IH]; intros left; simpl.
  - unfold Rsum. simpl. repeat split; [lra | constructor].
  - specialize (IH (left + width)).
    destruct (stack_segments (left + width) pct) as [segs final]. simpl in *.
    destruct IH as (Hfinal & Htiles & Hbanks & Hcol).
    split; [unfold Rsum in *; simpl; lra|].
    split; [auto|]. split; [now rewrite Hbanks|].
    constructor; [|exact Hcol]. simpl.
    destruct (String.eqb_spec bank target_bank) as [->|Hne].
    + tauto.
    + destruct (Rleb 5 width); split; intros; congruence.
Qed.



(** ** The leader, the fifth place and the rank *)

Lemma fold_max_spec (l : list nat) :
  forall x : nat,
    let m := fold_left Nat.max l x in
    (m = x \/ In m l) /\ (x <= m)%nat /\ (forall y, In y l -> (y <= m)%nat).
Proof.
  induction l as [|y l IH]; intros x; simpl.
  - repeat split; [now left | lia | tauto].
  - destruct (IH (Nat.max x y)) as (Hwhere & Hle & Hall).
    split; [|split].
    + destruct Hwhere as [Heq|Hin]; [|now right; right].
      rewrite Heq. destruct (Nat.max_spec x y) as [[_ ->]|[_ ->]]; auto.
    + lia.
    + intros z [<-|Hin]; [lia | now apply Hall].
Qed.

Lemma filter_empty_length {A : Type} (p : A -> bool) (l : list A) :
  length (filter p l) = 0%nat <-> forall x, In x l -> p x = false.
Proof.
  induction l as [|a l IH]; simpl; [tauto|].
  destruct (p a) eqn:E; simpl.
  - split; [discriminate|]. intros H. rewrite (H a) in E by auto. discriminate.
  - rewrite IH. split.
    + intros H x [<-|Hin]; auto.
    + intros H x Hin. apply H. now right.
Qed.

Lemma rank_one_iff (df : dataframe) (b : string) :
  bank_rank df b = 1%nat
  <-> forall b', In b' (map bank_name df) -> (count df b' <= count df b)%nat.
Proof.
  rewrite bank_rank_unfold.
  assert (Hlen : (1 + length (filter (fun b' => (count df b <? count df b')%nat)
                                     (banks df)))%nat = 1%nat
                 <-> length (filter (fun b' => (count df b <? count df b')%nat)
                                    (banks df)) = 0%nat) by lia.
  rewrite Hlen, filter_empty_length. unfold banks. split.
  - intros H b' Hin. specialize (H b' (proj2 (nodup_In _ _ _) Hin)).
    apply Nat.ltb_ge in H. exact H.
  - intros H b' Hin. apply Nat.ltb_ge. apply H. now apply nodup_In in Hin.
Qed.

Lemma branch_counts_max_spec (df : dataframe) :
  df <> [] ->
  exists m b,
    branch_counts_max df = Some m
    /\ In b (map bank_name df) /\ m = count df b
    /\ (forall b', In b' (map bank_name df) -> (count df b' <= m)%nat).
Proof.
  intros Hne. unfold branch_counts_max.
  assert (Hkeys : forall n, In n (map snd (value_counts df))
                            <-> exists b, In b (map bank_name df)
                                          /\ n = count df b).
  { intros n. rewrite in_map_iff. split.
    - intros ([b k] & <- & Hin). apply value_counts_In in Hin.
      exists b. exact Hin.
    - intros (b & Hin & ->). exists (b, count df b). split; [reflexivity|].
      now apply value_counts_In. }
  destruct (map snd (value_counts df)) as [|n rest] eqn:E.
  - exfalso. destruct df as [|r df]; [congruence|].
    assert (Hin : In (count (r :: df) (bank_name r)) (@nil nat)).
    { apply Hkeys. exists (bank_name r). split; [now left | reflexivity]. }
    exact Hin.
  - destruct (fold_max_spec rest n) as (Hwhere & Hle & Hall). simpl in *.
    assert (Hm : In (fold_left Nat.max rest n) (n :: rest)).
    { destruct Hwhere as [->|Hin]; [now left | now right]. }
    apply Hkeys in Hm. destruct Hm as (b & Hb & Hmb).
    exists (fold_left Nat.max rest n), b.
    split; [reflexivity|]. split; [exact Hb|]. split; [exact Hmb|].
    intros b' Hb'.
    assert (Hin : In (count df b') (n :: rest)).
    { apply Hkeys. now exists b'. }
    destruct Hin as [<-|Hin]; [exact Hle | now apply Hall].
Qed.

Lemma atb_count_count (df : dataframe) : atb_count df = count df target_bank.
Proof. unfold atb_count. apply branch_count_count. Qed.

Lemma count_absent (df : dataframe) (b : string) :
  ~ In b (map bank_name df) -> count df b = 0%nat.
Proof. intros H. unfold count. now apply count_occ_not_In. Qed.

(** X3.  On a table with at least one row the report's gap to the market
    leader is defined and not negative, and it is 0 exactly when the
    target bank has rank 1. *)
Theorem gap_to_leader_zero_iff_rank_one (df : dataframe) :
  df <> [] ->
  exists g,
    gap_to_leader df = Some g /\ (0 <= g)%Z
    /\ (g = 0%Z <-> atb_rank df = 1%nat).
Proof.
  intros Hne.
  destruct (branch_counts_max_spec df Hne) as (m & b & Hm & Hb & Hmb & Hmax).
  unfold gap_to_leader. rewrite Hm. simpl. eexists. split; [reflexivity|].
  rewrite atb_count_count.
  assert (Hle : (count df target_bank <= m)%nat).
  { destruct (in_dec string_dec target_bank (map bank_name df)) as [Hin|Hnin].
    - now apply Hmax.
    - rewrite (count_absent df _ Hnin). lia. }
  split; [lia|]. unfold atb_rank. rewrite rank_one_iff. split.
  - intros Hg b' Hb'. specialize (Hmax b' Hb'). lia.
  - intros Hall. specialize (Hall b Hb). lia.
Qed.

Lemma scenario_gap_to_leader :
  scenario_df <> []
  /\ exists g, gap_to_leader scenario_df = Some g /\ (0 <= g)%Z.
Proof.
  assert (H : scenario_df <> []) by discriminate.
  split; [exact H|].
  destruct (gap_to_leader_zero_iff_rank_one scenario_df H) as (g & Hg & H0 & _).
  exists g. auto.
Defined.

Lemma insert_count_perm (n : nat) (l : list nat) :
  Permutation (insert_count n l) (n :: l).
Proof.
  induction l as [|h l IH]; simpl; [reflexivity|].
  destruct (h <? n)%nat; [reflexivity|].
  rewrite IH. apply perm_swap.
Qed.

Lemma sorted_reverse_perm (l : list nat) : Permutation (sorted_reverse l) l.
Proof.
  induction l as [|h l IH]; simpl; [reflexivity|].
  rewrite insert_count_perm. now constructor.
Qed.

Lemma insert_count_sorted (n : nat) (l : list nat) :
  StronglySorted ge l -> StronglySorted ge (insert_count n l).
Proof.
  induction 1 as [|h l Hs IH Hall]; simpl.
  - repeat constructor.
  - destruct (Nat.ltb_spec h n) as [Hlt|Hge].
    + constructor; [now constructor|].
      constructor; [lia|]. eapply Forall_impl; [|exact Hall].
      intros; lia.
    + constructor; [exact IH|].
      apply (Permutation_Forall (Permutation_sym (insert_count_perm n l))).
      constructor; [lia | exact Hall].
Qed.

Lemma sorted_reverse_sorted (l : list nat) :
  StronglySorted ge (sorted_reverse l).
Proof.
  induction l as [|h l IH]; simpl; [constructor|].
  now apply insert_count_sorted.
Qed.

(** In a list in decreasing order, at most [k] elements exceed [a] exactly
    when the element at position [k] does not. *)
Lemma larger_than_in_sorted (a : nat) (l : list nat) :
  StronglySorted ge l ->
  forall k n,
    nth_error l k = Some n ->
    ((length (filter (fun x => (a <? x)%nat) l) <= k)%nat <-> (n <= a)%nat).
Proof.
  induction 1 as [|h t Hs IH Hall]; intros k n Hk.
  - destruct k; discriminate.
  - assert (Hsmall : (h <= a)%nat ->
                     length (filter (fun x => (a <? x)%nat) t) = 0%nat).
    { intros Hh. apply filter_empty_length. intros x Hx.
      apply Nat.ltb_ge. pose proof (proj1 (Forall_forall _ _) Hall x Hx). lia. }
    simpl. destruct k as [|k]; simpl in Hk.
    + inversion Hk; subst.
      destruct (Nat.ltb_spec a n) as [Hlt|Hge]; simpl; [lia|].
      rewrite (Hsmall Hge). lia.
    + pose proof (proj1 (Forall_forall _ _) Hall n (nth_error_In _ _ Hk)).
      destruct (Nat.ltb_spec a h) as [Hlt|Hge]; simpl.
      * rewrite <- (IH k n Hk). lia.
      * rewrite (Hsmall Hge). lia.
Qed.

Lemma rank_by_counts (df : dataframe) (b : string) :
  bank_rank df b
  = (1 + length (filter (fun x => (count df b <? x)%nat)
                        (sorted_reverse (map snd (value_counts df)))))%nat.
Proof.
  unfold bank_rank. rewrite branch_count_count.
  rewrite (filter_perm_length _ _ _ (sorted_reverse_perm _)).
  rewrite filter_map_length. lia.
Qed.

(** X4.  The report's "need to match #5" raises [IndexError] exactly when
    the table has fewer than five banks; when it is defined, it is at most
    0 exactly when the target bank already has rank 5 or better. *)
Theorem need_for_fifth_and_rank (df : dataframe) :
  (need_for_fifth df = None <-> (length (banks df) < 5)%nat)
  /\ (forall g, need_for_fifth df = Some g ->
                ((g <= 0)%Z <-> (atb_rank df <= 5)%nat)).
Proof.
  unfold need_for_fifth. split.
  - destruct (nth_error _ 4) as [n|] eqn:E; simpl.
    + split; [discriminate|]. intros Hlen.
      assert (Hsome : nth_error (sorted_reverse (map snd (value_counts df))) 4
                      <> None) by congruence.
      apply nth_error_Some in Hsome.
      rewrite (Permutation_length (sorted_reverse_perm _)), length_map,
        value_counts_length in Hsome. lia.
    + split; [|reflexivity]. intros _. apply nth_error_None in E.
      rewrite (Permutation_length (sorted_reverse_perm _)), length_map,
        value_counts_length in E. lia.
  - intros g Hg.
    destruct (nth_error _ 4) as [n|] eqn:E; simpl in Hg; [|discriminate].
    inversion Hg; subst. clear Hg.
    pose proof (larger_than_in_sorted (count df target_bank) _
                  (sorted_reverse_sorted _) 4 n E) as Hiff.
    unfold atb_rank. rewrite rank_by_counts, atb_count_count. lia.
Qed.

Lemma six_banks_need_for_fifth :
  need_for_fifth six_banks_df = Some 1%Z
  /\ ((1 <= 0)%Z <-> (atb_rank six_banks_df <= 5)%nat).
Proof.
  assert (H : need_for_fifth six_banks_df = Some 1%Z) by reflexivity.
  split; [exact H|].
  exact (proj2 (need_for_fifth_and_rank six_banks_df) 1%Z H).
Defined.

(** ** The largest competitors *)

Lemma filter_sorted {A : Type} (R : A -> A -> Prop) (p : A -> bool)
      (l : list A) :
  StronglySorted R l -> StronglySorted R (filter p l).
Proof.
  induction 1 as [|h l Hs IH Hall]; simpl; [constructor|].
  destruct (p h); [|exact IH].
  constructor; [exact IH|].
  apply Forall_forall. intros x Hx. apply filter_In in Hx.
  now apply (proj1 (Forall_forall _ _) Hall).
Qed.

Lemma firstn_sorted {A : Type} (R : A -> A -> Prop) (k : nat) (l : list A) :
  StronglySorted R l ->
  StronglySorted R (firstn k l)
  /\ (forall x y, In x (firstn k l) -> In y (skipn k l) -> R x y).
Proof.
  intros Hs. revert k. induction Hs as [|h l Hs IH Hall]; intros k.
  - rewrite firstn_nil, skipn_nil. split; [constructor | intros ? ? []].
  - destruct k as [|k]; simpl; [split; [constructor | intros ? ? []]|].
    destruct (IH k) as [Hf Hsplit]. split.
    + constructor; [exact Hf|].
      apply Forall_forall. intros x Hx. apply firstn_subset in Hx.
      now apply (proj1 (Forall_forall _ _) Hall).
    + intros x y [<-|Hx] Hy; [|now apply Hsplit].
      apply (proj1 (Forall_forall _ _) Hall).
      rewrite <- (firstn_skipn k l). apply in_or_app. now right.
Qed.

Lemma filtered_keys_NoDup (keep : string * nat -> bool)
      (vc : list (string * nat)) :
  NoDup (map fst vc) -> NoDup (map fst (filter keep vc)).
Proof.
  intros Hkeys. induction vc as [|e vc IH]; [constructor|].
  cbn [map] in Hkeys. apply NoDup_cons_iff in Hkeys.
  destruct Hkeys as [Hfresh Hrest].
  cbn [filter]. destruct (keep e); cbn [map]; [|now apply IH].
  apply NoDup_cons; [|now apply IH].
  intros Hin. apply Hfresh. apply in_map_iff in Hin.
  destruct Hin as (e' & He' & Hin). apply filter_In in Hin.
  rewrite <- He'. apply in_map. tauto.
Qed.

Lemma NoDup_firstn {A : Type} (k : nat) (l : list A) :
  NoDup l -> NoDup (firstn k l).
Proof.
  intros Hnd. revert k. induction Hnd as [|a l Hnin Hnd IH]; intros k.
  - rewrite firstn_nil. constructor.
  - destruct k; simpl; constructor; [|apply IH].
    intros Hin. apply Hnin. now apply firstn_subset in Hin.
Qed.

Lemma competitors_In (df : dataframe) (b : string) (n : nat) :
  In (b, n) (competitors df)
  <-> In b (map bank_name df) /\ b <> target_bank /\ n = count df b.
Proof.
  unfold competitors, market_share. rewrite filter_In, value_counts_In. simpl.
  destruct (String.eqb_spec b target_bank); simpl; intuition congruence.
Qed.

Lemma top_competitors_spec (df : dataframe) :
  (length (top_competitors df) <= 5)%nat
  /\ NoDup (map fst (top_competitors df))
  /\ StronglySorted by_decreasing_count (top_competitors df)
  /\ (forall b n, In (b, n) (top_competitors df) ->
                  In b (map bank_name df) /\ b <> target_bank
                  /\ n = count df b)
  /\ (forall b n b',
        In (b, n) (top_competitors df) ->
        In b' (map bank_name df) -> b' <> target_bank ->
        ~ In b' (map fst (top_competitors df)) ->
        (count df b' <= n)%nat).
Proof.
  unfold top_competitors. fold (competitors df).
  assert (Hs : StronglySorted by_decreasing_count (competitors df)).
  { apply filter_sorted, value_counts_sorted. }
  destruct (firstn_sorted _ 5 _ Hs) as [Hf Hsplit].
  split; [apply firstn_le_length|].
  split.
  { rewrite <- firstn_map. apply NoDup_firstn.
    apply filtered_keys_NoDup, value_counts_NoDup. }
  split; [exact Hf|]. split.
  { intros b n Hin. apply firstn_subset in Hin. now apply competitors_In. }
  intros b n b' Hin Hb' Hne Hnot.
  assert (Hc : In (b', count df b') (competitors df)).
  { apply competitors_In. auto. }
  rewrite <- (firstn_skipn 5 (competitors df)) in Hc.
  apply in_app_or in Hc. destruct Hc as [Hc|Hc].
  - exfalso. apply Hnot. apply (in_map fst) in Hc. exact Hc.
  - exact (Hsplit _ _ Hin Hc).
Qed.

Lemma atb_value_spec (df : dataframe) :
  (rows_of target_bank df <> [] -> atb_value df = Ok (atb_count df))
  /\ (rows_of target_bank df = [] -> atb_value df = Raise KeyError).
Proof.
  unfold atb_value, market_share. split.
  - intros Hrows. apply (lookup_In _ _ _ (value_counts_NoDup df)).
    apply value_counts_In. split; [now apply rows_of_nonempty_iff|].
    apply atb_count_count.
  - intros Hrows. apply lookup_missing. intros Hin.
    apply value_counts_keys in Hin. apply rows_of_nonempty_iff in Hin.
    contradiction.
Qed.

(** X5.  Chart 2's comparison of the target bank with its competitors
    raises [KeyError] when the target bank has no row.  Otherwise it lists
    the target bank first, with its number of rows, and then at most five
    other banks, each once, with their numbers of rows in decreasing
    order; no competitor left out has more rows than a listed one.  The
    annotated gap is the count of the first competitor minus the target
    bank's, and it is at most 0 exactly when the target bank has rank 1. *)
Theorem comparison_chart2_lists_largest_competitors (df : dataframe) :
  (rows_of target_bank df = [] -> comparison_chart2 df = Raise KeyError)
  /\ (rows_of target_bank df <> [] ->
      exists c top,
        comparison_chart2 df = Ok c
        /\ cmp_banks c = target_bank :: map fst top
        /\ cmp_values c = atb_count df :: map snd top
        /\ (length top <= 5)%nat
        /\ NoDup (target_bank :: map fst top)
        /\ StronglySorted by_decreasing_count top
        /\ (forall b n, In (b, n) top ->
                        In b (map bank_name df) /\ n = count df b)
        /\ (forall b n b',
              In (b, n) top -> In b' (map bank_name df) ->
              ~ In b' (target_bank :: map fst top) ->
              (count df b' <= n)%nat)
        /\ (forall g, cmp_gap c = Some g ->
                      ((g <= 0)%Z <-> atb_rank df = 1%nat))).
Proof.
  destruct (atb_value_spec df) as [Hpresent Habsent].
  unfold comparison_chart2. split.
  - intros Hrows. now rewrite (Habsent Hrows).
  - intros Hrows. rewrite (Hpresent Hrows). cbn [bind].
    destruct (top_competitors_spec df) as (Hlen & Hnd & Hs & Hin & Htop).
    assert (Hfirst : firstn 5 (top_competitors df) = top_competitors df).
    { apply firstn_all2. exact Hlen. }
    rewrite Hfirst.
    eexists. exists (top_competitors df).
    split; [reflexivity|]. cbn [cmp_banks cmp_values cmp_gap].
    split; [reflexivity|]. split; [reflexivity|]. split; [exact Hlen|].
    split.
    { constructor; [|exact Hnd]. intros Hin'. apply in_map_iff in Hin'.
      destruct Hin' as ([b n] & Hb & Hbn). simpl in Hb. subst.
      apply Hin in Hbn. tauto. }
    split; [exact Hs|]. split.
    { intros b n Hbn. apply Hin in Hbn. tauto. }
    split.
    { intros b n b' Hbn Hb' Hnot. apply (Htop b n b' Hbn Hb').
      - intros ->. apply Hnot. now left.
      - intros H. apply Hnot. now right. }
    intros g Hg. unfold atb_rank. rewrite rank_one_iff, <- atb_count_count.
    destruct (top_competitors df) as [|[b n] rest] eqn:E;
      simpl in Hg; [discriminate|].
    inversion Hg; subst. clear Hg.
    assert (Hbn : In (b, n) ((b, n) :: rest)) by now left.
    destruct (Hin b n Hbn) as (Hb & Hbne & Hn).
    split.
    + intros Hle b' Hb'.
      destruct (string_dec b' target_bank) as [->|Hne'];
        [rewrite atb_count_count; lia|].
      destruct (in_dec string_dec b' (map fst ((b, n) :: rest))) as [Hl|Hnl].
      * apply in_map_iff in Hl. destruct Hl as ([b2 n2] & Hb2 & Hl).
        simpl in Hb2. subst.
        destruct (Hin b' n2 Hl) as (_ & _ & ->).
        inversion Hs as [|? ? _ Hall]; subst.
        destruct Hl as [Hl|Hl]; [inversion Hl; subst; lia|].
        pose proof (proj1 (Forall_forall _ _) Hall _ Hl) as Hd.
        unfold by_decreasing_count in Hd. simpl in Hd. lia.
      * pose proof (Htop b n b' Hbn Hb' Hne' Hnl). lia.
    + intros Hall. specialize (Hall b Hb). lia.
Qed.

Lemma scenario_comparison_chart2 :
  rows_of target_bank scenario_df <> []
  /\ exists c, comparison_chart2 scenario_df = Ok c
               /\ cmp_banks c = [target_bank; "Bank A"; "Bank B"].
Proof.
  assert (H : rows_of target_bank scenario_df <> []) by (simpl; discriminate).
  split; [exact H|].
  destruct (proj2 (comparison_chart2_lists_largest_competitors scenario_df) H)
    as (c & top & Hc & _).
  exists c. split; [exact Hc|].
  vm_compute in Hc. inversion Hc. reflexivity.
Defined.

(** ** The shortlists of Chart 4 and Chart 14 *)

Lemma NoDup_filter {A : Type} (p : A -> bool) (l : list A) :
  NoDup l -> NoDup (filter p l).
Proof.
  induction 1 as [|a l Hnin Hnd IH]; simpl; [constructor|].
  destruct (p a); [|exact IH].
  constructor; [|exact IH]. intros Hin. apply Hnin.
  now apply filter_In in Hin.
Qed.

Lemma top_banks_NoDup (k : nat) (df : dataframe) :
  NoDup (map fst (firstn k (value_counts df))).
Proof.
  rewrite <- firstn_map. apply NoDup_firstn, value_counts_NoDup.
Qed.

Lemma filter_length_without {A : Type} (p : A -> bool) (l : list A) (x : A) :
  In x l -> p x = false -> (length (filter p l) < length l)%nat.
Proof.
  induction l as [|a l IH]; simpl; [tauto|].
  intros [->|Hin] Hp.
  - rewrite Hp. pose proof (filter_length_le p l). lia.
  - specialize (IH Hin Hp). destruct (p a); simpl; lia.
Qed.

(** X6.  The shortlist of Chart 4 starts with the target bank, names no
    bank twice, and continues with the banks among the three largest that
    are not the target bank, in their order: three competitors when the
    target bank is not among the three largest, at most two when it is. *)
Theorem comparison_banks_chart4_shape (df : dataframe) :
  comparison_banks_chart4 df
  = target_bank
    :: filter (fun b => negb (String.eqb b target_bank)) (top_3_competitors df)
  /\ NoDup (comparison_banks_chart4 df)
  /\ (length (comparison_banks_chart4 df) <= 4)%nat
  /\ (In target_bank (top_3_competitors df) ->
      (length (comparison_banks_chart4 df) <= 3)%nat)
  /\ (forall b, In b (comparison_banks_chart4 df) ->
                b = target_bank \/ In b (top_3_competitors df)).
Proof.
  unfold comparison_banks_chart4.
  set (others := filter (fun b => negb (String.eqb b target_bank))
                        (top_3_competitors df)).
  assert (Htop : (length (top_3_competitors df) <= 3)%nat).
  { unfold top_3_competitors. rewrite length_map. apply firstn_le_length. }
  assert (Hlen : (length others <= 3)%nat).
  { unfold others. pose proof (filter_length_le
      (fun b => negb (String.eqb b target_bank)) (top_3_competitors df)). lia. }
  rewrite firstn_all2 by exact Hlen.
  split; [reflexivity|]. split.
  { constructor.
    - unfold others. rewrite filter_In. intros [_ H].
      rewrite String.eqb_refl in H. discriminate.
    - unfold others, top_3_competitors. apply NoDup_filter, top_banks_NoDup. }
  split; [simpl; lia|]. split.
  { intros Hin. simpl.
    pose proof (filter_length_without
                  (fun b => negb (String.eqb b target_bank))
                  (top_3_competitors df) target_bank Hin) as H.
    cbv beta in H. rewrite String.eqb_refl in H. specialize (H eq_refl).
    fold others in H. lia. }
  intros b [<-|Hin]; [now left | right].
  unfold others in Hin. now apply filter_In in Hin.
Qed.

Lemma scenario_chart4 :
  In target_bank (top_3_competitors scenario_df)
  /\ (length (comparison_banks_chart4 scenario_df) <= 3)%nat.
Proof.
  assert (H : In target_bank (top_3_competitors scenario_df)).
  { right. right. left. reflexivity. }
  split; [exact H|].
  exact (proj1 (proj2 (proj2 (proj2
           (comparison_banks_chart4_shape scenario_df)))) H).
Defined.

Lemma existsb_eqb_target (l : list string) :
  existsb (fun b => String.eqb b target_bank) l = true <-> In target_bank l.
Proof.
  rewrite existsb_exists. split.
  - intros (x & Hin & Heq). apply String.eqb_eq in Heq. now subst.
  - intros Hin. exists target_bank. split; [exact Hin | apply String.eqb_refl].
Qed.

(** X7.  The shortlist of Chart 14 always holds the target bank, names no
    bank twice and has at most five banks; every other bank on it is among
    the five largest, and when the target bank is not among the five
    largest, it takes the last place of the list after the four largest. *)
Theorem comparison_banks_shape (df : dataframe) :
  In target_bank (comparison_banks df)
  /\ NoDup (comparison_banks df)
  /\ (length (comparison_banks df) <= 5)%nat
  /\ (forall b, In b (comparison_banks df) ->
                b = target_bank \/ In b (top_5_banks df))
  /\ (~ In target_bank (top_5_banks df) ->
      comparison_banks df = (firstn 4 (top_5_banks df) ++ [target_bank])%list).
Proof.
  unfold comparison_banks.
  assert (Hnd : NoDup (top_5_banks df)) by apply top_banks_NoDup.
  assert (Hlen : (length (top_5_banks df) <= 5)%nat).
  { unfold top_5_banks. rewrite length_map. apply firstn_le_length. }
  destruct (existsb (fun b => String.eqb b target_bank) (top_5_banks df)) eqn:E;
    cbn [negb].
  - apply existsb_eqb_target in E.
    split; [exact E|]. split; [exact Hnd|]. split; [exact Hlen|].
    split; [auto | tauto].
  - assert (Hnin : ~ In target_bank (top_5_banks df)).
    { intros Hin. apply existsb_eqb_target in Hin. congruence. }
    split; [apply in_or_app; right; now left|]. split.
    { apply NoDup_app; [now apply NoDup_firstn | repeat constructor; simpl; tauto|].
      intros x Hx [<-|[]]. apply Hnin. now apply firstn_subset in Hx. }
    split.
    { rewrite length_app. cbn [length].
      assert (length (firstn 4 (top_5_banks df)) <= 4)%nat.
      { rewrite length_firstn. apply Nat.le_min_l. }
      lia. }
    split; [|reflexivity].
    intros b Hb. apply in_app_or in Hb. destruct Hb as [Hb|[<-|[]]];
      [right; now apply firstn_subset in Hb | now left].
Qed.

Lemma six_banks_shortlist :
  ~ In target_bank (top_5_banks six_banks_df)
  /\ comparison_banks six_banks_df
     = (firstn 4 (top_5_banks six_banks_df) ++ [target_bank])%list.
Proof.
  assert (H : ~ In target_bank (top_5_banks six_banks_df)).
  { intros Hin. vm_compute in Hin.
    repeat (destruct Hin as [Hin|Hin]; [discriminate|]). exact Hin. }
  split; [exact H|].
  exact (proj2 (proj2 (proj2 (proj2 (comparison_banks_shape six_banks_df)))) H).
Defined.

(** ** Tables by region *)

Lemma region_box (r : row) :
  between 40.3 (lat r) 40.5 && between 49.7 (long r) 50.0
  = (Rleb 40.3 (lat r) && Rleb (lat r) 40.5
     && Rleb 49.7 (long r) && Rleb (long r) 50.0).
Proof. unfold between. now rewrite !andb_assoc. Qed.

Lemma region_Baku_iff (r : row) :
  String.eqb (region r) "Baku"
  = (between 40.3 (lat r) 40.5 && between 49.7 (long r) 50.0).
Proof.
  unfold region.
  destruct (between 40.3 (lat r) 40.5 && between 49.7 (long r) 50.0);
    reflexivity.
Qed.

Lemma between_true (lo x hi : R) : between lo x hi = true <-> lo <= x <= hi.
Proof.
  unfold between. rewrite andb_true_iff, !Rleb_true. tauto.
Qed.

Lemma inner_box_in_outer (r : row) :
  between 40.3 (lat r) 40.5 && between 49.7 (long r) 50.0 = true ->
  in_baku_absheron (lat r) (long r) = true.
Proof.
  rewrite andb_true_iff, !between_true. intros [Hlat Hlong].
  unfold in_baku_absheron, baku_lat_min, baku_lat_max, baku_long_min,
    baku_long_max.
  rewrite !andb_true_iff, !Rleb_true. lra.
Qed.

(** X8.  The Baku city table of Chart 6 holds exactly the rows that Chart 7
    tags "Baku", in the order of the table.  Each of them also lies in the
    Baku-Absheron table of the urban opportunity grid and in the zone
    "Baku City"; and every row of the regional table (outside the
    Baku-Absheron box) is tagged "Regions". *)
Theorem baku_city_table_is_region_baku (df : dataframe) :
  baku_df df = filter (fun r => String.eqb (region r) "Baku") df
  /\ (forall r, In r (baku_df df) ->
                In r (df_baku df) /\ assign_zone r = "Baku City")
  /\ (forall r, In r (df_regions df) -> region r = "Regions").
Proof.
  assert (Heq : baku_df df = filter (fun r => String.eqb (region r) "Baku") df).
  { unfold baku_df. apply filter_ext. intros r.
    now rewrite region_Baku_iff, region_box. }
  split; [exact Heq|]. split.
  - intros r Hin. rewrite Heq in Hin. apply filter_In in Hin.
    destruct Hin as [Hin Hr]. rewrite region_Baku_iff in Hr. split.
    + unfold df_baku. apply filter_In. split; [exact Hin|].
      now apply inner_box_in_outer.
    + unfold assign_zone. cbv zeta. now rewrite Hr.
  - intros r Hin. unfold df_regions in Hin. apply filter_In in Hin.
    destruct Hin as [_ Hout]. unfold region.
    destruct (between 40.3 (lat r) 40.5 && between 49.7 (long r) 50.0) eqn:E;
      [|reflexivity].
    apply inner_box_in_outer in E. rewrite E in Hout. discriminate.
Qed.

Lemma filter_partition_length {A : Type} (p : A -> bool) (l : list A) :
  (length (filter p l) + length (filter (fun x => negb (p x)) l))%nat
  = length l.
Proof.
  induction l as [|a l IH]; simpl; [reflexivity|].
  destruct (p a); simpl; lia.
Qed.

(** X9.  The Baku-Absheron table and the regional table divide the rows
    between them: every row of the table is in exactly one of the two, so
    the two counts of the summary add up to the number of rows, and so do
    the two counts of target rows and the two counts of competitor rows. *)
Theorem urban_and_regional_tables_partition (df : dataframe) :
  (length (df_baku df) + length (df_regions df))%nat = length df
  /\ (length (atb_baku df) + length (atb_regions df))%nat = atb_count df
  /\ (length (comp_baku df) + length (comp_regions df))%nat
     = length (rows_not_of target_bank df)
  /\ (forall r, In r df <-> In r (df_baku df) \/ In r (df_regions df))
  /\ (forall r, ~ (In r (df_baku df) /\ In r (df_regions df))).
Proof.
  unfold atb_baku, atb_regions, comp_baku, comp_regions, df_baku, df_regions,
    atb_count, branch_count.
  split; [apply filter_partition_length|]. split.
  { rewrite !rows_of_filter. apply filter_partition_length. }
  split.
  { unfold rows_not_of.
    assert (Hc : forall (p q : row -> bool) (l : dataframe),
               filter p (filter q l) = filter q (filter p l)).
    { intros p q l. induction l as [|a l IH]; simpl; [reflexivity|].
      destruct (q a) eqn:Eq, (p a) eqn:Ep; simpl;
        rewrite ?Eq, ?Ep, ?IH; reflexivity. }
    rewrite (Hc _ (fun r => in_baku_absheron (lat r) (long r))).
    rewrite (Hc _ (fun r => negb (in_baku_absheron (lat r) (long r)))).
    apply filter_partition_length. }
  split.
  - intros r. rewrite !filter_In.
    destruct (in_baku_absheron (lat r) (long r)); simpl; tauto.
  - intros r. rewrite !filter_In.
    destruct (in_baku_absheron (lat r) (long r)); simpl;
      intros [[_ H1] [_ H2]]; discriminate.
Qed.

(** ** The zone rules, resolved *)

Ltac zone_cases :=
  repeat match goal with
         | H : _ && _ = true |- _ => apply andb_true_iff in H; destruct H
         | H : _ && _ = false |- _ => apply andb_false_iff in H; destruct H
         | H : between _ _ _ = true |- _ => apply between_true in H
         | H : between _ _ _ = false |- _ =>
             unfold between in H
         | H : Rleb _ _ = true |- _ => apply Rleb_true in H
         | H : Rleb _ _ = false |- _ => apply Rleb_false in H
         | H : Rltb _ _ = true |- _ => apply Rltb_true in H
         | H : Rltb _ _ = false |- _ => apply Rltb_false in H
         end.

(** X10.  The ordered zone rules amount to these conditions on a row:
    "Baku City" is the inner box; "Absheron" is the outer box without the
    inner one; "North" is every latitude above 41.0 and "South" every
    latitude below 39.0, whatever the longitude; "Northwest" is a latitude
    above 40.5 and at most 41.0 with a longitude below 48.5; "Central" is
    40.0 <= lat <= 40.8 with 47.0 <= long < 49.5 outside "Northwest";
    "West" is a longitude below 46.0 with 39.0 <= lat <= 40.5. *)
Theorem zone_rules_resolved (r : row) :
  (assign_zone r = "Baku City"
   <-> 40.3 <= lat r <= 40.5 /\ 49.7 <= long r <= 50.0)
  /\ (assign_zone r = "Absheron"
      <-> (40.2 <= lat r <= 40.6 /\ 49.5 <= long r <= 50.3)
          /\ ~ (40.3 <= lat r <= 40.5 /\ 49.7 <= long r <= 50.0))
  /\ (assign_zone r = "North" <-> 41.0 < lat r)
  /\ (assign_zone r = "Northwest"
      <-> 40.5 < lat r <= 41.0 /\ long r < 48.5)
  /\ (assign_zone r = "Central"
      <-> (40.0 <= lat r <= 40.8 /\ 47.0 <= long r < 49.5)
          /\ ~ (40.5 < lat r /\ long r < 48.5))
  /\ (assign_zone r = "South" <-> lat r < 39.0)
  /\ (assign_zone r = "West"
      <-> long r < 46.0 /\ 39.0 <= lat r <= 40.5).
Proof.
  unfold assign_zone. cbv zeta.
  destruct (between 40.3 (lat r) 40.5 && between 49.7 (long r) 50.0) eqn:E1.
  { zone_cases. repeat split; intros; try discriminate; try lra;
      try (exfalso; intuition lra). }
  destruct (between 40.2 (lat r) 40.6 && between 49.5 (long r) 50.3) eqn:E2.
  { zone_cases; repeat split; intros; try discriminate; try lra;
      try (exfalso; intuition lra); try (intuition lra). }
  destruct (Rltb 41.0 (lat r)) eqn:E3.
  { zone_cases; repeat split; intros; try discriminate; try lra;
      try (exfalso; intuition lra); try (intuition lra). }
  destruct (Rltb 40.5 (lat r) && Rltb (long r) 48.5) eqn:E4.
  { zone_cases; repeat split; intros; try discriminate; try lra;
      try (exfalso; intuition lra); try (intuition lra). }
  destruct (between 40.0 (lat r) 40.8
            && (Rleb 47.0 (long r) && Rltb (long r) 49.5)) eqn:E5.
  { zone_cases; repeat split; intros; try discriminate; try lra;
      try (exfalso; intuition lra); try (intuition lra). }
  destruct (Rltb (lat r) 39.0) eqn:E6.
  { zone_cases; repeat split; intros; try discriminate; try lra;
      try (exfalso; intuition lra); try (intuition lra). }
  destruct (Rltb (long r) 46.0) eqn:E7.
  { zone_cases; repeat split; intros; try discriminate; try lra;
      try (exfalso; intuition lra); try (intuition lra). }
  zone_cases; repeat split; intros; try discriminate; try lra;
    try (exfalso; intuition lra); try (intuition lra).
Qed.

(** ** Market dominance by zone *)

Lemma value_counts_head (df : dataframe) :
  df <> [] ->
  exists b n rest,
    value_counts df = (b, n) :: rest
    /\ In b (map bank_name df) /\ n = count df b
    /\ (forall b', (count df b' <= n)%nat).
Proof.
  intros Hne.
  destruct (value_counts df) as [|[b n] rest] eqn:E.
  - exfalso. destruct df as [|r df]; [congruence|].
    assert (Hin : In (bank_name r, count (r :: df) (bank_name r))
                     (value_counts (r :: df))).
    { apply value_counts_In. split; [now left | reflexivity]. }
    rewrite E in Hin. exact Hin.
  - assert (Hbn : In (b, n) (value_counts df)) by (rewrite E; now left).
    apply value_counts_In in Hbn. destruct Hbn as [Hb Hn].
    exists b, n, rest. split; [reflexivity|]. split; [exact Hb|].
    split; [exact Hn|]. intros b'.
    destruct (in_dec string_dec b' (map bank_name df)) as [Hin|Hnin].
    + assert (Hc : In (b', count df b') (value_counts df)).
      { now apply value_counts_In. }
      pose proof (value_counts_sorted df) as Hs. rewrite E in Hs, Hc.
      inversion Hs as [|? ? _ Hall]; subst.
      destruct Hc as [Hc|Hc]; [inversion Hc; lia|].
      pose proof (proj1 (Forall_forall _ _) Hall _ Hc) as Hd.
      unfold by_decreasing_count in Hd. simpl in Hd. lia.
    + rewrite (count_absent df b' Hnin). lia.
Qed.

Lemma share_percentage (k n : nat) :
  (k <= n)%nat -> (0 < n)%nat -> 0 <= INR k / INR n * 100 <= 100.
Proof.
  intros Hkn Hn. destruct (percentage_bounds k n Hkn Hn) as (x & Hx & Hb).
  destruct n; [lia|]. simpl in Hx. inversion Hx; subst. exact Hb.
Qed.

Lemma zone_entry_spec (df : dataframe) (zone : string) (e : zone_entry) :
  zone_entry_of df zone = Some e ->
  let zone_df := zone_rows df zone in
  Zone e = zone
  /\ Total e = length zone_df /\ (0 < Total e)%nat
  /\ ATB_Count e = count zone_df target_bank
  /\ In (Leader e) (map bank_name zone_df)
  /\ Leader_Count e = count zone_df (Leader e)
  /\ (forall b, (count zone_df b <= Leader_Count e)%nat)
  /\ (Leader_Count e <= Total e)%nat
  /\ (ATB_Rank e = RankNA <-> ATB_Count e = 0%nat)
  /\ (ATB_Rank e = Rank 1
      <-> (0 < ATB_Count e)%nat /\ ATB_Count e = Leader_Count e)
  /\ 0 <= ATB_Share e <= 100.
Proof.
  unfold zone_entry_of. intros He. cbv zeta.
  set (zone_df := zone_rows df zone) in *. cbv zeta in He.
  destruct (Nat.ltb_spec 0 (length zone_df)) as [Hlen|Hlen]; [|discriminate].
  assert (Hne : zone_df <> []).
  { intros Hnil. rewrite Hnil in Hlen. simpl in Hlen. lia. }
  destruct (value_counts_head zone_df Hne) as (b & n & rest & Hvc & Hb & Hn & Hmax).
  fold (branch_count zone_df target_bank) in He.
  fold (bank_rank zone_df target_bank) in He.
  rewrite branch_count_count in He.
  rewrite Hvc in He. cbn [firstn fst snd] in He.
  inversion He; subst e; clear He.
  cbn [Zone Total ATB_Count ATB_Share ATB_Rank Leader Leader_Count].
  split; [reflexivity|]. split; [reflexivity|]. split; [exact Hlen|].
  split; [reflexivity|]. split; [exact Hb|]. split; [exact Hn|].
  split; [exact Hmax|].
  split; [rewrite Hn; apply count_le_total|].
  split.
  { destruct (Nat.ltb_spec 0 (count zone_df target_bank)); split; intros;
      try discriminate; try reflexivity; lia. }
  split.
  { destruct (Nat.ltb_spec 0 (count zone_df target_bank)) as [Hpos|Hzero].
    - split.
      + intros Hr. inversion Hr as [Hr'].
        pose proof (proj1 (rank_one_iff zone_df target_bank) Hr' b Hb) as Hall.
        split; [exact Hpos|].
        specialize (Hmax target_bank). lia.
      + intros [_ Heq]. f_equal.
        apply (proj2 (rank_one_iff zone_df target_bank)).
        intros b' _. specialize (Hmax b'). lia.
    - split; [discriminate | lia]. }
  destruct (Nat.ltb_spec 0 (length zone_df)); [|lia].
  apply share_percentage; [apply count_le_total | exact Hlen].
Qed.

Lemma zone_tally_step (z0 : string) (c : string -> nat) (zones : list string) :
  NoDup zones -> In z0 zones ->
  list_sum (map (fun z => if String.eqb z0 z then S (c z) else c z) zones)
  = S (list_sum (map c zones)).
Proof.
  induction 1 as [|z zones Hnin Hnd IH]; [contradiction|].
  cbn [map list_sum]. intros [->|Hin].
  - rewrite String.eqb_refl.
    assert (Hrest : map (fun z => if String.eqb z0 z then S (c z) else c z)
                        zones
                    = map c zones).
    { apply map_ext_in. intros z Hz.
      destruct (String.eqb_spec z0 z) as [->|_]; [contradiction | reflexivity]. }
    rewrite Hrest. simpl. lia.
  - destruct (String.eqb_spec z0 z) as [->|_]; [contradiction|].
    change (list_sum (c z :: map (fun z1 => if String.eqb z0 z1
                                            then S (c z1) else c z1) zones))
      with (c z + list_sum (map (fun z1 => if String.eqb z0 z1
                                           then S (c z1) else c z1) zones))%nat.
    rewrite (IH Hin). simpl. lia.
Qed.

Lemma zone_tally (f : row -> string) (zones : list string) (df : dataframe) :
  NoDup zones -> (forall r, In r df -> In (f r) zones) ->
  list_sum (map (fun z => length (filter (fun r => String.eqb (f r) z) df))
                zones)
  = length df.
Proof.
  intros Hnd. induction df as [|r df IH]; intros Hin.
  - clear. induction zones; simpl; auto.
  - cbn [length].
    rewrite <- IH by (intros; apply Hin; now right).
    rewrite <- (zone_tally_step (f r) _ zones Hnd) by (apply Hin; now left).
    f_equal. apply map_ext. intros z. cbn [filter].
    destruct (String.eqb (f r) z); reflexivity.
Qed.

Lemma assign_zone_labels (r : row) :
  In (assign_zone r) (zones_order ++ ["Other"])%list.
Proof.
  unfold assign_zone. cbv zeta.
  repeat match goal with
         | |- context [if ?c then _ else _] => destruct c
         end; simpl; tauto.
Qed.

Lemma zone_totals (df : dataframe) (zones : list string) :
  list_sum (map Total
                (flat_map (fun zone => match zone_entry_of df zone with
                                       | Some e => [e]
                                       | None => []
                                       end) zones))
  = list_sum (map (fun z => length (zone_rows df z)) zones).
Proof.
  induction zones as [|z zones IH]; simpl; [reflexivity|].
  rewrite map_app, list_sum_app, IH. f_equal.
  unfold zone_entry_of.
  destruct (Nat.ltb_spec 0 (length (zone_rows df z))); simpl; lia.
Qed.

(** X11.  The zone table of Chart 12 has one entry per zone of the fixed
    order that has rows, in that order, and none for a zone without rows
    nor for the zone "Other": its totals and the rows of "Other" add up to
    the number of rows.  In each entry the leader is a bank with the most
    rows in the zone, so the target bank's count is never above the
    leader's; the rank of the target bank is 'N/A' exactly when it has no
    row in the zone and 1 exactly when it has rows and as many as the
    leader; its share lies between 0 and 100. *)
Theorem zone_table_entries (df : dataframe) :
  map Zone (zone_market_data df)
  = filter (fun z => (0 <? length (zone_rows df z))%nat) zones_order
  /\ (list_sum (map Total (zone_market_data df))
      + length (zone_rows df "Other"))%nat = length df
  /\ (forall e, In e (zone_market_data df) ->
        let zone_df := zone_rows df (Zone e) in
        Total e = length zone_df /\ (0 < Total e)%nat
        /\ ATB_Count e = count zone_df target_bank
        /\ In (Leader e) (map bank_name zone_df)
        /\ Leader_Count e = count zone_df (Leader e)
        /\ (forall b, (count zone_df b <= Leader_Count e)%nat)
        /\ (ATB_Count e <= Leader_Count e <= Total e)%nat
        /\ (ATB_Rank e = RankNA <-> ATB_Count e = 0%nat)
        /\ (ATB_Rank e = Rank 1
            <-> (0 < ATB_Count e)%nat /\ ATB_Count e = Leader_Count e)
        /\ 0 <= ATB_Share e <= 100).
Proof.
  split; [|split].
  - unfold zone_market_data.
    induction zones_order as [|z zones IH]; [reflexivity|].
    cbn [flat_map filter]. rewrite map_app, IH.
    destruct (zone_entry_of df z) as [e|] eqn:E.
    + destruct (zone_entry_spec df z e E) as (Hz & Ht & Hpos & _).
      rewrite Ht in Hpos. apply Nat.ltb_lt in Hpos. rewrite Hpos.
      simpl. now rewrite Hz.
    + unfold zone_entry_of in E.
      destruct (0 <? length (zone_rows df z))%nat; [discriminate | reflexivity].
  - unfold zone_market_data. rewrite zone_totals.
    rewrite <- (zone_tally assign_zone (zones_order ++ ["Other"])%list df).
    + rewrite map_app, list_sum_app. simpl. unfold zone_rows. lia.
    + unfold zones_order. simpl.
      repeat (constructor; [simpl; intuition discriminate|]). constructor.
    + intros r _. apply assign_zone_labels.
  - intros e Hin. unfold zone_market_data in Hin.
    apply in_flat_map in Hin. destruct Hin as (z & _ & Hin).
    destruct (zone_entry_of df z) as [e'|] eqn:E; [|contradiction].
    destruct Hin as [<-|[]].
    destruct (zone_entry_spec df z e' E)
      as (Hz & Ht & Hpos & Ha & Hl & Hlc & Hmax & Hle & Hna & Hr1 & Hs).
    rewrite Hz. cbv zeta.
    repeat split; try tauto; try (apply Hna); try (apply Hr1); try lra.
    rewrite Ha. apply Hmax.
Qed.

(** ** The nearest competitor *)

Lemma nearest_from_index (q : coord) (pts : list coord) :
  forall (pre : list coord) (best : R * nat),
    (exists p0, nth_error (pre ++ pts) (snd best) = Some p0
                /\ fst best = distance p0 q) ->
    exists p, nth_error (pre ++ pts)
                        (snd (nearest_from q best (length pre) pts)) = Some p
              /\ fst (nearest_from q best (length pre) pts) = distance p q.
Proof.
  induction pts as [|p pts IH]; intros pre best Hbest; simpl.
  - exact Hbest.
  - specialize (IH (pre ++ [p])%list
                   (if Rltb (distance p q) (fst best)
                    then (distance p q, length pre) else best)).
    rewrite <- app_assoc in IH. simpl in IH.
    rewrite length_app in IH. simpl in IH.
    replace (length pre + 1)%nat with (S (length pre)) in IH by lia.
    apply IH.
    destruct (Rltb (distance p q) (fst best)); [|exact Hbest].
    exists p. simpl. split; [|reflexivity].
    rewrite nth_error_app2 by lia. now rewrite Nat.sub_diag.
Qed.

Lemma nearest_index (model : fitted) (q : coord) :
  exists p, nth_error (fst model :: snd model) (snd (nearest model q)) = Some p
            /\ fst (nearest model q) = distance p q.
Proof.
  unfold nearest.
  apply (nearest_from_index q (snd model) [fst model]
                            (distance (fst model) q, 0%nat)).
  exists (fst model). simpl. auto.
Qed.

Lemma nth_map_error {A B : Type} (f : A -> B) (g : A -> string)
      (l : list A) (i : nat) (y : B) :
  nth_error (map f l) i = Some y ->
  exists x, In x l /\ f x = y /\ nth i (map g l) EmptyString = g x.
Proof.
  revert i. induction l as [|a l IH]; intros [|i]; simpl; try discriminate.
  - intros H. inversion H. exists a. auto.
  - intros H. destruct (IH i H) as (x & Hin & Hf & Hg). exists x. auto.
Qed.

(** X12.  When the target bank and the competitors both have rows, the
    nearest-competitor analysis has one line per target row, in order; its
    distance is the distance to a nearest competitor row, and the bank it
    names is the bank of a competitor row at exactly that distance, hence
    never the target bank itself. *)
Theorem nearest_competitor_is_a_nearest_row (df : dataframe) :
  atb_coords df <> [] -> comp_coords df <> [] ->
  exists analysis,
    atb_analysis df = Ok analysis
    /\ Forall2 (fun t a =>
                  a_row a = t
                  /\ is_nearest_distance (dist_to_competitor a)
                                         (lat t, long t) (comp_coords df)
                  /\ nearest_competitor a <> target_bank
                  /\ exists c,
                      In c (rows_not_of target_bank df)
                      /\ bank_name c = nearest_competitor a
                      /\ distance (lat c, long c) (lat t, long t)
                         = dist_to_competitor a)
               (rows_of target_bank df) analysis.
Proof.
  intros Hatb Hcomp.
  destruct (fit_nonempty _ Hcomp) as (p & rest & Heq & Hfit).
  unfold atb_analysis. rewrite Hfit. cbn [bind].
  rewrite (kneighbors_nonempty _ _ Hatb). cbn [bind].
  eexists. split; [reflexivity|].
  unfold atb_coords, coords. rewrite map_map, map_combine_map.
  induction (rows_of target_bank df) as [|t l IH]; simpl; constructor;
    [|exact IH].
  split; [reflexivity|]. simpl. split.
  { rewrite Heq. apply nearest_spec. }
  destruct (nearest_index (p, rest) (lat t, long t)) as (pc & Hnth & Hd).
  simpl in Hnth. rewrite <- Heq in Hnth. unfold comp_coords, coords in Hnth.
  destruct (nth_map_error _ bank_name _ _ _ Hnth) as (c & Hc & Hpc & Hname).
  unfold comp_banks. rewrite Hname.
  assert (Hex : In c (rows_not_of target_bank df)
                /\ bank_name c = bank_name c
                /\ distance (lat c, long c) (lat t, long t)
                   = fst (nearest (p, rest) (lat t, long t))).
  { split; [exact Hc|]. split; [reflexivity|]. now rewrite Hd, <- Hpc. }
  split; [|now exists c].
  unfold rows_not_of in Hc. apply filter_In in Hc. destruct Hc as [_ Hc].
  intros Habs. rewrite Habs, String.eqb_refl in Hc. discriminate.
Qed.

Lemma scenario_nearest_competitor :
  atb_coords scenario_df <> [] /\ comp_coords scenario_df <> []
  /\ exists analysis,
      atb_analysis scenario_df = Ok analysis
      /\ Forall (fun a => nearest_competitor a <> target_bank) analysis.
Proof.
  assert (Ha : atb_coords scenario_df <> []) by (simpl; discriminate).
  assert (Hc : comp_coords scenario_df <> []) by (simpl; discriminate).
  split; [exact Ha|]. split; [exact Hc|].
  destruct (nearest_competitor_is_a_nearest_row scenario_df Ha Hc)
    as (analysis & Hok & Hall).
  exists analysis. split; [exact Hok|].
  clear Hok. induction Hall as [|t a l l' (_ & _ & Hne & _) _ IH];
    constructor; assumption.
Defined.

(** ** The largest gaps *)

(** X13.  When the target bank and the competitors both have rows, the
    top gaps of Chart 9 are the first 15 gaps (all of them when there are
    fewer): each is farther than 0.3 from the nearest target row, they are
    in order of decreasing distance, and no gap left out is farther than a
    listed one. *)
Theorem top_gaps_are_the_farthest (df : dataframe) :
  atb_coords df <> [] -> comp_coords df <> [] ->
  exists gs top,
    gaps df = Ok gs /\ top_gaps df = Ok top
    /\ length top = Nat.min 15 (length gs)
    /\ StronglySorted farther_first top
    /\ (forall g, In g top -> In g gs /\ 0.3 < distance_to_bob g)
    /\ (forall g g', In g top -> In g' gs ->
                     distance_to_bob g < distance_to_bob g' -> In g' top).
Proof.
  intros Hatb Hcomp.
  destruct (fit_nonempty _ Hatb) as (p & rest & Heq & _).
  pose proof (gap_df_ok df p rest Heq Hcomp) as Htable.
  set (table := gap_table (p, rest) (rows_not_of target_bank df)) in *.
  set (gs := sort_gaps (filter is_gap table)).
  assert (Hgaps : gaps df = Ok gs) by (unfold gaps; now rewrite Htable).
  exists gs, (firstn 15 gs).
  split; [exact Hgaps|].
  split; [unfold top_gaps; now rewrite Hgaps|].
  split; [apply length_firstn|].
  destruct (firstn_sorted farther_first 15 gs (sort_gaps_sorted _))
    as [Hs Hsplit].
  split; [exact Hs|]. split.
  - intros g Hin. apply firstn_subset in Hin. split; [exact Hin|].
    apply (Permutation_in _ (sort_gaps_perm _)) in Hin.
    apply filter_In in Hin. now apply Rltb_true.
  - intros g g' Hg Hg' Hlt.
    rewrite <- (firstn_skipn 15 gs) in Hg'.
    apply in_app_or in Hg'. destruct Hg' as [Hg'|Hg']; [exact Hg'|].
    pose proof (Hsplit g g' Hg Hg') as Hle. unfold farther_first in Hle. lra.
Qed.

Lemma scenario_top_gaps :
  atb_coords scenario_df <> [] /\ comp_coords scenario_df <> []
  /\ exists top, top_gaps scenario_df = Ok top
                 /\ StronglySorted farther_first top.
Proof.
  assert (Ha : atb_coords scenario_df <> []) by (simpl; discriminate).
  assert (Hc : comp_coords scenario_df <> []) by (simpl; discriminate).
  split; [exact Ha|]. split; [exact Hc|].
  destruct (top_gaps_are_the_farthest scenario_df Ha Hc)
    as (gs & top & _ & Ht & _ & Hs & _).
  exists top. auto.
Defined.

(** ** The regions of the target bank *)

Lemma counts_In (names : list string) (k : string) (n : nat) :
  In (k, n) (sort_desc (tally names))
  <-> In k names /\ n = count_occ string_dec names k.
Proof.
  assert (Hperm : Permutation (sort_desc (tally names))
                    (map (fun b => (b, count_occ string_dec names b))
                         (nodup string_dec names))).
  { rewrite sort_desc_perm. apply tally_entries. }
  split.
  - intros Hin. apply (Permutation_in _ Hperm) in Hin.
    apply in_map_iff in Hin. destruct Hin as (b & Heq & Hin).
    inversion Heq; subst. split; [now apply nodup_In in Hin | reflexivity].
  - intros [Hin ->]. apply (Permutation_in _ (Permutation_sym Hperm)).
    apply in_map_iff. exists k. split; [reflexivity | now apply nodup_In].
Qed.

Lemma counts_NoDup (names : list string) :
  NoDup (map fst (sort_desc (tally names))).
Proof.
  assert (Hperm : Permutation (sort_desc (tally names))
                    (map (fun b => (b, count_occ string_dec names b))
                         (nodup string_dec names))).
  { rewrite sort_desc_perm. apply tally_entries. }
  apply (Permutation_NoDup (Permutation_sym (Permutation_map fst Hperm))).
  rewrite map_map. simpl. rewrite map_id. apply NoDup_nodup.
Qed.

Lemma count_occ_label {A : Type} (f : A -> string) (l : list A) (k : string) :
  count_occ string_dec (map f l) k
  = length (filter (fun x => String.eqb (f x) k) l).
Proof.
  induction l as [|a l IH]; simpl; [reflexivity|].
  destruct (string_dec (f a) k) as [->|Hne].
  - rewrite String.eqb_refl. simpl. now rewrite IH.
  - destruct (String.eqb_spec (f a) k); [congruence | exact IH].
Qed.

Lemma lookup_counts (names : list string) (k : string) :
  let n := count_occ string_dec names k in
  (n = 0%nat -> lookup k (sort_desc (tally names)) = Raise KeyError)
  /\ ((0 < n)%nat -> lookup k (sort_desc (tally names)) = Ok n).
Proof.
  cbv zeta. split.
  - intros Hz. apply lookup_missing. intros Hin.
    apply in_map_iff in Hin. destruct Hin as ([k' n] & Hk & Hin).
    simpl in Hk. subst. apply counts_In in Hin. destruct Hin as [Hin _].
    apply (count_occ_In string_dec) in Hin. lia.
  - intros Hpos. apply (lookup_In _ _ _ (counts_NoDup names)).
    apply counts_In. split; [|reflexivity].
    now apply (count_occ_In string_dec).
Qed.

Lemma region_labels (l : dataframe) :
  (length (filter (fun r => String.eqb (region r) "Baku") l)
   + length (filter (fun r => String.eqb (region r) "Regions") l))%nat
  = length l.
Proof.
  induction l as [|r l IH]; [reflexivity|].
  cbn [filter length].
  assert (H : region r = "Baku" \/ region r = "Regions").
  { unfold region.
    destruct (between 40.3 (lat r) 40.5 && between 49.7 (long r) 50.0); auto. }
  destruct H as [H|H]; rewrite H; simpl; lia.
Qed.

(** X14.  The report's regional presence of the target bank raises
    [KeyError] exactly when no target row is tagged "Regions", and its Baku
    concentration raises [KeyError] exactly when no target row is tagged
    "Baku"; otherwise each is the number of target rows with that tag
    divided by the number of target rows, times 100.  The two numbers of
    rows add up to the number of target rows. *)
Theorem target_regions_need_both_tags (df : dataframe) :
  (atb_rows_in df "Baku" + atb_rows_in df "Regions")%nat = atb_count df
  /\ (atb_rows_in df "Regions" = 0%nat ->
      regional_presence df = Raise KeyError)
  /\ ((0 < atb_rows_in df "Regions")%nat ->
      regional_presence df
      = Ok (INR (atb_rows_in df "Regions") / INR (atb_count df) * 100))
  /\ (atb_rows_in df "Baku" = 0%nat ->
      baku_concentration df = Raise KeyError)
  /\ ((0 < atb_rows_in df "Baku")%nat ->
      baku_concentration df
      = Ok (INR (atb_rows_in df "Baku") / INR (atb_count df) * 100)).
Proof.
  unfold atb_rows_in, regional_presence, baku_concentration, atb_region.
  split; [apply region_labels|].
  destruct (lookup_counts (map region (rows_of target_bank df)) "Regions")
    as [Hr0 Hr1].
  destruct (lookup_counts (map region (rows_of target_bank df)) "Baku")
    as [Hb0 Hb1].
  rewrite count_occ_label in Hr0, Hr1, Hb0, Hb1.
  repeat split; intros H.
  - now rewrite (Hr0 H).
  - now rewrite (Hr1 H).
  - now rewrite (Hb0 H).
  - now rewrite (Hb1 H).
Qed.

Lemma baku_only_regional_presence :
  atb_rows_in baku_only_df "Regions" = 0%nat
  /\ regional_presence baku_only_df = Raise KeyError.
Proof.
  assert (H : atb_rows_in baku_only_df "Regions" = 0%nat).
  { unfold atb_rows_in, baku_only_df. simpl. now rewrite baku_only_region. }
  split; [exact H|].
  exact (proj1 (proj2 (target_regions_need_both_tags baku_only_df)) H).
Defined.

(** ** The table of intensities *)

Lemma fold_min_spec (l : list nat) :
  forall x : nat,
    let m := fold_left Nat.min l x in
    (m <= x)%nat /\ (forall y, In y l -> (m <= y)%nat).
Proof.
  induction l as [|y l IH]; intros x; simpl.
  - split; [lia | tauto].
  - destruct (IH (Nat.min x y)) as (Hle & Hall). split; [lia|].
    intros z [<-|Hin]; [lia | now apply Hall].
Qed.

Lemma list_sum_bounds (lo hi : nat) (l : list nat) :
  (forall x, In x l -> (lo <= x <= hi)%nat) ->
  (lo * length l <= list_sum l <= hi * length l)%nat.
Proof.
  induction l as [|a l IH]; simpl; intros H; [lia|].
  destruct (H a (or_introl eq_refl)).
  destruct IH; [intros; apply H; now right|]. lia.
Qed.

Lemma intensity_row_bounds (item : string * list nat) :
  snd item <> [] ->
  exists row avg,
    intensity_row_of item = Ok row
    /\ i_Bank row = fst item
    /\ Avg_Competitors_Nearby row = Some avg
    /\ INR (Min_Competitors_Nearby row) <= avg
       <= INR (Max_Competitors_Nearby row)
    /\ In (Max_Competitors_Nearby row) (snd item)
    /\ (forall n, In n (snd item) ->
                  (Min_Competitors_Nearby row <= n
                   <= Max_Competitors_Nearby row)%nat).
Proof.
  destruct item as [bank l]. simpl. destruct l as [|n rest]; [congruence|].
  intros _. unfold intensity_row_of. simpl.
  do 2 eexists. split; [reflexivity|]. simpl.
  split; [reflexivity|]. split; [reflexivity|].
  destruct (fold_max_spec rest n) as (Hwhere & Hhi & Hhis).
  destruct (fold_min_spec rest n) as (Hlo & Hlos).
  simpl in *.
  set (hi := fold_left Nat.max rest n) in *.
  set (lo := fold_left Nat.min rest n) in *.
  assert (Hall : forall x, In x (n :: rest) -> (lo <= x <= hi)%nat).
  { intros x [<-|Hin]; [lia|]. split; [now apply Hlos | now apply Hhis]. }
  split; [|split].
  - pose proof (list_sum_bounds lo hi (n :: rest) Hall) as [Hs1 Hs2].
    simpl length in Hs1, Hs2. simpl list_sum in Hs1, Hs2.
    assert (Hlen : 0 < INR (S (length rest))) by (apply lt_0_INR; lia).
    apply le_INR in Hs1. apply le_INR in Hs2.
    rewrite mult_INR in Hs1, Hs2.
    change (n + list_sum rest)%nat with (list_sum (n :: rest)) in *.
    change (fold_right Nat.add 0%nat rest) with (list_sum rest).
    change (n + list_sum rest)%nat with (list_sum (n :: rest)).
    set (s := INR (list_sum (n :: rest))) in *.
    set (k := INR (S (length rest))) in *.
    split.
    + apply (Rmult_le_reg_r k); [exact Hlen|].
      unfold Rdiv. rewrite Rmult_assoc, Rinv_l by lra. lra.
    + apply (Rmult_le_reg_r k); [exact Hlen|].
      unfold Rdiv. rewrite Rmult_assoc, Rinv_l by lra. lra.
  - destruct Hwhere as [->|Hin]; [now left | now right].
  - exact Hall.
Qed.

Lemma intensity_below_total (df : dataframe) (radius : R) (c : coord) :
  In c (coords df) -> (intensity_at df radius c < length df)%nat.
Proof.
  intros Hin. unfold intensity_at.
  rewrite <- (coords_length df), <- (length_map (fun a => distance a c)).
  apply (filter_length_without _ _ (distance c c)).
  - apply in_map_iff. now exists c.
  - apply intensity_skips_self.
Qed.

Lemma intensities_below_total (df : dataframe) (bank : string) (radius : R) :
  Forall (fun n => (n < length df)%nat)
         (calculate_competitive_intensity df bank radius).
Proof.
  unfold calculate_competitive_intensity. apply Forall_forall.
  intros n Hin. apply in_map_iff in Hin. destruct Hin as (c & <- & Hc).
  apply intensity_below_total.
  unfold coords in *. apply in_map_iff in Hc. destruct Hc as (r & <- & Hr).
  apply in_map_iff. exists r. split; [reflexivity|].
  unfold rows_of in Hr. now apply filter_In in Hr.
Qed.

Lemma insert_intensity_perm (e : intensity_row) (l : list intensity_row) :
  Permutation (insert_intensity e l) (e :: l).
Proof.
  induction l as [|h l IH]; simpl; [reflexivity|].
  destruct (avg_before e h); [reflexivity|].
  rewrite IH. apply perm_swap.
Qed.

Lemma sort_intensity_perm (l : list intensity_row) :
  Permutation (fold_right insert_intensity [] l) l.
Proof.
  induction l as [|h l IH]; simpl; [reflexivity|].
  rewrite insert_intensity_perm. now constructor.
Qed.

(** X15.  The table of intensities has one row per bank of the table
    (whatever the order), and in each row the minimum is at most the
    average, the average at most the maximum, and the maximum is smaller
    than the number of rows of the table: a branch is never counted as its
    own neighbour. *)
Theorem intensity_table_bounds (df : dataframe) :
  exists rows,
    intensity_comparison df = Ok rows
    /\ Permutation (map i_Bank rows) (unique (map bank_name df))
    /\ Forall (fun row =>
                 exists avg,
                   Avg_Competitors_Nearby row = Some avg
                   /\ INR (Min_Competitors_Nearby row) <= avg
                      <= INR (Max_Competitors_Nearby row)
                   /\ (Max_Competitors_Nearby row < length df)%nat)
              rows.
Proof.
  unfold intensity_comparison, intensity_data.
  set (P := fun (item : string * list nat) (row : intensity_row) =>
              i_Bank row = fst item
              /\ exists avg,
                  Avg_Competitors_Nearby row = Some avg
                  /\ INR (Min_Competitors_Nearby row) <= avg
                     <= INR (Max_Competitors_Nearby row)
                  /\ (Max_Competitors_Nearby row < length df)%nat).
  destruct (map_result_Forall2 intensity_row_of P
              (map (fun bank => (bank, calculate_competitive_intensity
                                         df bank default_radius))
                   (unique (map bank_name df))))
    as (rows & Hrows & Hall).
  { intros item Hin. apply in_map_iff in Hin.
    destruct Hin as (bank & <- & Hbank).
    destruct (intensity_row_bounds
                (bank, calculate_competitive_intensity df bank default_radius))
      as (row & avg & Hrow & Hb & Havg & Hbounds & Hmax & _).
    { simpl. intros Hnil. apply (f_equal (@length nat)) in Hnil.
      rewrite intensity_length in Hnil. simpl in Hnil.
      apply unique_In, rows_of_nonempty_iff in Hbank.
      destruct (rows_of bank df); [congruence | discriminate]. }
    exists row. split; [exact Hrow|]. split; [exact Hb|].
    exists avg. split; [exact Havg|]. split; [exact Hbounds|].
    simpl in Hmax.
    exact (proj1 (Forall_forall _ _)
                 (intensities_below_total df bank default_radius) _ Hmax). }
  rewrite Hrows. cbn [bind]. eexists. split; [reflexivity|]. split.
  - rewrite (Permutation_map i_Bank (sort_intensity_perm rows)).
    assert (Hbanks : map i_Bank rows = unique (map bank_name df)).
    { clear Hrows. revert rows Hall.
      induction (unique (map bank_name df)) as [|b l IH]; intros rows Hall;
        inversion Hall as [|? ? ? ? [Hb _] Hrest]; subst; simpl;
        [reflexivity|].
      rewrite Hb. simpl. f_equal. now apply IH. }
    now rewrite Hbanks.
  - apply (Permutation_Forall (Permutation_sym (sort_intensity_perm rows))).
    clear Hrows. induction Hall as [|item row l l' [_ Hrow] _ IH];
      constructor; assumption.
Qed.

(** ** The recommended locations *)

Lemma insert_index_perm (scores : list R) (i : nat) (l : list nat) :
  Permutation (insert_index scores i l) (i :: l).
Proof.
  induction l as [|h l IH]; simpl; [reflexivity|].
  destruct (Rleb (nth i scores 0) (nth h scores 0)); [reflexivity|].
  rewrite IH. apply perm_swap.
Qed.

Lemma insert_index_sorted (scores : list R) (i : nat) (l : list nat) :
  StronglySorted (by_increasing_score scores) l ->
  StronglySorted (by_increasing_score scores) (insert_index scores i l).
Proof.
  induction 1 as [|h l Hs IH Hall]; simpl.
  - repeat constructor.
  - destruct (Rleb (nth i scores 0) (nth h scores 0)) eqn:E.
    + apply Rleb_true in E. constructor; [now constructor|].
      constructor; [exact E|].
      eapply Forall_impl; [|exact Hall].
      unfold by_increasing_score, score_at in *. intros; lra.
    + apply Rleb_false in E. constructor; [exact IH|].
      apply (Permutation_Forall
               (Permutation_sym (insert_index_perm scores i l))).
      constructor; [|exact Hall].
      unfold by_increasing_score, score_at. lra.
Qed.

Lemma argsort_perm (scores : list R) :
  Permutation (argsort scores) (seq 0 (length scores)).
Proof.
  unfold argsort. induction (seq 0 (length scores)) as [|i l IH]; simpl;
    [reflexivity|].
  rewrite insert_index_perm. now constructor.
Qed.

Lemma argsort_sorted (scores : list R) :
  StronglySorted (by_increasing_score scores) (argsort scores).
Proof.
  unfold argsort. induction (seq 0 (length scores)) as [|i l IH]; simpl;
    [constructor|].
  now apply insert_index_sorted.
Qed.

Lemma skipn_sorted {A : Type} (Rel : A -> A -> Prop) (k : nat) (l : list A) :
  StronglySorted Rel l -> StronglySorted Rel (skipn k l).
Proof.
  intros Hs. revert k. induction Hs as [|h l Hs IH Hall]; intros [|k]; simpl;
    try constructor; auto.
Qed.

Lemma sorted_snoc {A : Type} (Rel : A -> A -> Prop) (l : list A) (x : A) :
  StronglySorted Rel l -> Forall (fun y => Rel y x) l ->
  StronglySorted Rel (l ++ [x]).
Proof.
  induction 1 as [|h l Hs IH Hall]; simpl; intros Hx.
  - repeat constructor.
  - inversion Hx; subst. constructor; [now apply IH|].
    apply Forall_app. split; [exact Hall | now repeat constructor].
Qed.

Lemma rev_sorted {A : Type} (Rel : A -> A -> Prop) (l : list A) :
  StronglySorted Rel l -> StronglySorted (fun x y => Rel y x) (rev l).
Proof.
  induction 1 as [|h l Hs IH Hall]; simpl; [constructor|].
  apply sorted_snoc; [exact IH|].
  apply Forall_forall. intros y Hy. apply in_rev in Hy.
  now apply (proj1 (Forall_forall _ _) Hall).
Qed.

(** The positions chosen by [argsort()[-n:][::-1]]: each once, all within
    the array, as many as asked for (or all), by decreasing score, and no
    position left out has a larger score than a chosen one. *)
Lemma top_indices_spec (n : nat) (scores : list R) :
  let top := top_indices n scores in
  NoDup top
  /\ length top = Nat.min n (length scores)
  /\ (forall i, In i top -> (i < length scores)%nat)
  /\ StronglySorted (fun i j => score_at scores j <= score_at scores i) top
  /\ (forall i j, In i top -> (j < length scores)%nat -> ~ In j top ->
                  score_at scores j <= score_at scores i).
Proof.
  cbv zeta. unfold top_indices, last_n.
  set (sorted_idx := argsort scores).
  set (k := (length sorted_idx - n)%nat).
  pose proof (argsort_perm scores) as Hperm. fold sorted_idx in Hperm.
  pose proof (argsort_sorted scores) as Hsorted. fold sorted_idx in Hsorted.
  assert (Hlen : length sorted_idx = length scores).
  { rewrite (Permutation_length Hperm). apply length_seq. }
  assert (Hnd : NoDup sorted_idx).
  { apply (Permutation_NoDup (Permutation_sym Hperm)). apply seq_NoDup. }
  assert (Hin : forall i, In i sorted_idx <-> (i < length scores)%nat).
  { intros i. split.
    - intros H. apply (Permutation_in _ Hperm) in H. apply in_seq in H. lia.
    - intros H. apply (Permutation_in _ (Permutation_sym Hperm)).
      apply in_seq. lia. }
  assert (Hsub : forall i, In i (skipn k sorted_idx) -> In i sorted_idx).
  { intros i H. rewrite <- (firstn_skipn k sorted_idx).
    apply in_or_app. now right. }
  split.
  { apply NoDup_rev. rewrite <- (firstn_skipn k sorted_idx) in Hnd.
    now apply NoDup_app_remove_l in Hnd. }
  split.
  { rewrite length_rev, length_skipn. unfold k. lia. }
  split.
  { intros i Hi. apply in_rev in Hi. now apply Hin, Hsub. }
  split.
  { apply (rev_sorted (by_increasing_score scores)).
    now apply skipn_sorted. }
  intros i j Hi Hj Hnot. apply in_rev in Hi.
  assert (Hjs : In j sorted_idx) by now apply Hin.
  rewrite <- (firstn_skipn k sorted_idx) in Hjs.
  apply in_app_or in Hjs. destruct Hjs as [Hjs|Hjs].
  - exact (proj2 (firstn_sorted _ k _ Hsorted) j i Hjs Hi).
  - exfalso. apply Hnot. now apply in_rev in Hjs.
Qed.

Lemma linspace_length (start stop : R) (num : nat) :
  length (linspace start stop num) = num.
Proof. unfold linspace. now rewrite length_map, length_seq. Qed.

Lemma grid_points_length (lats longs : list R) :
  length (grid_points lats longs) = (length lats * length longs)%nat.
Proof.
  unfold grid_points, coord. induction lats as [|la lats IH]; [reflexivity|].
  cbn [flat_map]. rewrite length_app, length_map.
  cbn [length Nat.mul]. f_equal. exact IH.
Qed.

Lemma grid_points_baku_length : length grid_points_baku = 1225%nat.
Proof.
  unfold grid_points_baku. rewrite grid_points_length, !linspace_length.
  reflexivity.
Qed.

Lemma take_points_In (grid : list coord) (indices : list nat) :
  (forall i, In i indices -> (i < length grid)%nat) ->
  Forall (fun p => In p grid) (take_points grid indices).
Proof.
  intros Hin. unfold take_points. apply Forall_forall. intros p Hp.
  apply in_map_iff in Hp. destruct Hp as (i & <- & Hi).
  apply nth_In. now apply Hin.
Qed.

(** X16.  The recommended Baku-Absheron locations are 15 points of the
    urban grid, at 15 different grid positions, in order of decreasing
    score, and no grid position left out has a larger score than a
    recommended one. *)
Theorem top_opportunities_baku_are_the_best (df : dataframe) :
  exists scores indices top,
    opportunity_scores_baku df = Ok scores
    /\ flat_indices_baku df = Ok indices
    /\ top_opportunities_baku df = Ok top
    /\ top = take_points grid_points_baku indices
    /\ length top = 15%nat /\ NoDup indices
    /\ Forall (fun p => In p grid_points_baku) top
    /\ StronglySorted (fun i j => score_at scores j <= score_at scores i)
                      indices
    /\ (forall i j, In i indices -> (j < length grid_points_baku)%nat ->
                    ~ In j indices ->
                    score_at scores j <= score_at scores i).
Proof.
  destruct (opportunity_scores_baku_total df) as (scores & Hs & Hlen).
  destruct (top_indices_spec top_n_baku scores)
    as (Hnd & Hl & Hin & Hsorted & Hbest).
  exists scores, (top_indices top_n_baku scores),
    (take_points grid_points_baku (top_indices top_n_baku scores)).
  split; [exact Hs|].
  split; [unfold flat_indices_baku; now rewrite Hs|].
  split; [unfold top_opportunities_baku, flat_indices_baku; now rewrite Hs|].
  split; [reflexivity|]. split.
  { unfold take_points. rewrite length_map, Hl, Hlen, grid_points_baku_length.
    reflexivity. }
  split; [exact Hnd|]. split.
  { apply take_points_In. intros i Hi. rewrite <- Hlen. now apply Hin. }
  split; [exact Hsorted|].
  intros i j Hi Hj Hnot. apply Hbest; [exact Hi | now rewrite Hlen | exact Hnot].
Qed.

(** X17.  When there is a regional grid, the recommended regional
    locations are at most 15 points of that grid, and none of them lies
    inside the Baku-Absheron box. *)
Theorem top_opportunities_regions_avoid_the_box
        (df : dataframe) (grid : list coord) :
  grid_points_regions df = Some grid ->
  exists top,
    top_opportunities_regions df = Some (Ok top)
    /\ (length top <= 15)%nat
    /\ Forall (fun p =>
                 In p grid /\ in_baku_absheron (fst p) (snd p) = false)
              top.
Proof.
  intros Hgrid.
  destruct (opportunity_scores_regions_total df grid Hgrid)
    as (scores & Hs & Hlen).
  unfold opportunity_scores_regions in Hs. rewrite Hgrid in Hs. simpl in Hs.
  inversion Hs as [Hs']. clear Hs.
  unfold top_opportunities_regions. rewrite Hgrid, Hs'. cbn [bind].
  eexists. split; [reflexivity|].
  split.
  { rewrite length_firstn. apply Nat.le_min_l. }
  apply Forall_forall. intros p Hp. apply firstn_subset in Hp.
  apply filter_In in Hp. destruct Hp as [Hp Hout].
  destruct (top_indices_spec top_n_regions scores) as (_ & _ & Hin & _).
  split.
  - apply (proj1 (Forall_forall _ _)
                 (take_points_In grid (top_indices top_n_regions scores)
                    (fun i Hi => eq_ind _ (fun n => (i < n)%nat)
                                        (Hin i Hi) _ Hlen)) p Hp).
  - rewrite <- in_baku_absheron_between.
    now apply negb_true_iff in Hout.
Qed.

Lemma box_df_top_opportunities :
  (exists grid, grid_points_regions box_df = Some grid)
  /\ exists top, top_opportunities_regions box_df = Some (Ok top)
                 /\ (length top <= 15)%nat.
Proof.
  destruct box_df_grid_corner as (grid & Hgrid & _).
  split; [now exists grid|].
  destruct (top_opportunities_regions_avoid_the_box box_df grid Hgrid)
    as (top & Ht & Hlen & _).
  exists top. auto.
Defined.
